(** * lale.helpers: a shallow embedding and its verified properties

    The development follows [src/lale/helpers.py].  Part I embeds the
    functions the properties talk about; Part II proves the properties.

    - [Py]        : outcomes of Python calls (value, raised exception) and
                    the state-and-exception monad the embeddings run in;
    - [ValWrapper]: class [val_wrapper];
    - [Numpy]     : the floats the evaluator aggregates and [ndarray.mean];
    - [Schemas]   : [split_with_schemas] over arrays carrying a JSON schema;
    - [CrossVal]  : [cross_val_score_track_trials];
    - [Hyperopt]  : [dict_without], [instantiate_from_hyperopt_search_space]
                    and [create_instance_from_hyperopt_search_space]. *)

From Stdlib Require Import ZArith QArith Qcanon Ascii String List Lia.
From stdpp Require Import base option list gmap strings.

Set Default Proof Using "Type".
Set Warnings "-register-all".
Local Open Scope Z_scope.

(* ===================================================================== *)
(** * Part I: the embedding                                               *)
(* ===================================================================== *)

(** ** Python outcomes *)

Module Py.

(** The exception classes the embedded functions raise or let through.
    [OtherError] stands for whatever a delegated call (fit, scorer,
    predict_proba, ...) may raise. *)
Inductive exn : Type :=
| ValueError (msg : string)
| TypeError
| KeyError
| IndexError
| AssertionError
| AttributeError
| UnboundLocalError
| OtherError (name : string).

(** A call returns, raises, or is cut off: [OutOfFuel] is the recursion
    bound of the embedding (not a Python outcome), [Stuck] a store
    reference that names no object. *)
Inductive outcome (A : Type) : Type :=
| Ok (a : A)
| Raise (e : exn)
| OutOfFuel
| Stuck.
Arguments Ok {A} a.
Arguments Raise {A} e.
Arguments OutOfFuel {A}.
Arguments Stuck {A}.

(** State and exceptions: the state survives a raise, as the effects of
    a Python call do. *)
Definition M (S A : Type) : Type := S -> outcome A * S.

Definition ret {S A} (a : A) : M S A := fun s => (Ok a, s).
Definition raise {S A} (e : exn) : M S A := fun s => (Raise e, s).
Definition out_of_fuel {S A} : M S A := fun s => (OutOfFuel, s).
Definition stuck {S A} : M S A := fun s => (Stuck, s).

Definition bind {S A B} (c : M S A) (k : A -> M S B) : M S B :=
  fun s =>
    match c s with
    | (Ok a, s') => k a s'
    | (Raise e, s') => (Raise e, s')
    | (OutOfFuel, s') => (OutOfFuel, s')
    | (Stuck, s') => (Stuck, s')
    end.

(** [try: c except BaseException: h] *)
Definition try_except {S A} (c : M S A) (h : exn -> M S A) : M S A :=
  fun s =>
    match c s with
    | (Raise e, s') => h e s'
    | r => r
    end.

(** A pure computation that may raise, run inside [M]. *)
Definition lift {S A} (r : outcome A) : M S A := fun s => (r, s).

(** [assert b] *)
Definition py_assert {S} (b : bool) : M S unit :=
  if b then ret tt else raise AssertionError.

(** Pure outcomes compose the same way (state [unit] is not needed). *)
Definition obind {A B} (r : outcome A) (k : A -> outcome B) : outcome B :=
  match r with
  | Ok a => k a
  | Raise e => Raise e
  | OutOfFuel => OutOfFuel
  | Stuck => Stuck
  end.

Fixpoint omapM {A B} (f : A -> outcome B) (l : list A) : outcome (list B) :=
  match l with
  | [] => Ok []
  | x :: l' => obind (f x) (fun y => obind (omapM f l') (fun ys => Ok (y :: ys)))
  end.

(** [c'] does what [c] does wherever [c] is not cut off by the recursion
    bound. *)
Definition refines {S A} (c c' : M S A) : Prop :=
  forall s r s', c s = (r, s') -> r <> OutOfFuel -> c' s = (r, s').

End Py.

Notation "'let*' x ':=' c 'in' k" := (Py.bind c (fun x => k))
  (at level 10, x pattern, c at level 100, k at level 200).
Notation "'let+' x ':=' c 'in' k" := (Py.obind c (fun x => k))
  (at level 10, x pattern, c at level 100, k at level 200).

(** ** [class val_wrapper] *)

Module ValWrapper.
Section Values.
(** [A]: the Python values that are not [val_wrapper] instances. *)
Context {A : Type}.

Inductive value : Type :=
| Plain (a : A)
| val_wrapper (_base : value).      (* val_wrapper.__init__(self, base) *)

(** [isinstance(obj, val_wrapper)] *)
Definition is_wrapper (obj : value) : bool :=
  match obj with val_wrapper _ => true | Plain _ => false end.

(** [def unwrap_self(self): return self._base], a method of wrappers
    only. *)
Definition unwrap_self (self : value) : option value :=
  match self with
  | val_wrapper _base => Some _base
  | Plain _ => None
  end.

(** [@classmethod def unwrap(cls, obj)]: in the first case [_base] is
    [obj.unwrap_self()]. *)
Fixpoint unwrap (obj : value) : value :=
  match obj with
  | val_wrapper _base => unwrap _base
  | Plain _ => obj
  end.

End Values.
Arguments value : clear implicits.
End ValWrapper.

(** ** The floats of the evaluator and [ndarray.mean] *)

Module Numpy.

(** Scores, log-losses and durations are Python floats.  They are
    embedded as exact rationals plus NaN: rounding is not modelled. *)
Inductive npfloat : Type :=
| NaN
| Fin (q : Qc).

Definition add (a b : npfloat) : npfloat :=
  match a, b with
  | Fin x, Fin y => Fin (Qcplus x y)
  | _, _ => NaN
  end.

Definition of_count (n : nat) : Qc := Q2Qc (inject_Z (Z.of_nat n)).

Definition sum (a : list npfloat) : npfloat := fold_left add a (Fin (Q2Qc 0)).

(** [np.array(a).mean()]: the sum over the count; NaN for an empty
    array (numpy warns and returns nan) and when an element is NaN. *)
Definition mean (a : list npfloat) : npfloat :=
  match a with
  | [] => NaN
  | _ :: _ =>
      match sum a with
      | Fin s => Fin (Qcdiv s (of_count (length a)))
      | NaN => NaN
      end
  end.

(** [np.array(x).mean()] for a scalar [x]: a 0-d array holds the one
    element [x]. *)
Definition mean_scalar (x : npfloat) : npfloat := mean [x].

End Numpy.

(** ** [split_with_schemas] *)

Module Schemas.
Import Py.

(** JSON-shaped values, as the schema dicts hold them. *)
Inductive json : Type :=
| JBool (b : bool)
| JInt (n : Z)
| JStr (s : string)
| JList (l : list json)
| JDict (d : list (string * json)).

(** A schema is a Python dict with string keys, in insertion order. *)
Definition schema : Type := list (string * json).

Fixpoint dict_lookup (d : schema) (k : string) : option json :=
  match d with
  | [] => None
  | (k', v) :: d' => if String.eqb k' k then Some v else dict_lookup d' k
  end.

(** [d[k]] *)
Definition getitem (d : schema) (k : string) : outcome json :=
  match dict_lookup d k with
  | Some v => Ok v
  | None => Raise KeyError
  end.

(** An array-like value: its rows, and the [json_schema] attribute when
    the object has one ([hasattr(a, 'json_schema')]). *)
Record array (R : Type) : Type := mk_array {
  rows : list R;
  json_schema : option schema
}.
Arguments mk_array {R} rows json_schema.
Arguments rows {R} a.
Arguments json_schema {R} a.

(** [a.shape[0]] *)
Definition shape0 {R} (a : array R) : nat := length (rows a).

(** [a.shape[1]] of a 2-D array (an array without rows is taken to have
    no columns). *)
Definition shape1 {cell} (a : array (list cell)) : nat :=
  match rows a with
  | [] => O
  | r :: _ => length r
  end.

(** What [_safe_split] reads of the estimator. *)
Class Estimator (E : Type) : Type := { _pairwise : E -> bool }.

(** [l[i]] for every [i] of an index array; numpy and pandas raise
    IndexError for an index out of bounds. *)
Definition take {R} (l : list R) (indices : list nat) : outcome (list R) :=
  omapM (fun i => match l !! i with
                  | Some r => Ok r
                  | None => Raise IndexError
                  end) indices.

(** sklearn's [safe_indexing(X, indices)]: the selected rows, as a new
    object. *)
Definition safe_indexing {R} (X : array R) (indices : list nat)
  : outcome (array R) :=
  let+ rs := take (rows X) indices in
  Ok (mk_array rs None).

(** [X[np.ix_(indices, columns)]] *)
Definition ix_ {cell} (X : array (list cell)) (indices columns : list nat)
  : outcome (array (list cell)) :=
  let+ rs := take (rows X) indices in
  let+ rs' := omapM (fun r => take r columns) rs in
  Ok (mk_array rs' None).

(** sklearn's [_safe_split(estimator, X, y, indices, train_indices)]. *)
Definition _safe_split {E} `{Estimator E} {cell label}
    (estimator : E) (X : array (list cell)) (y : option (array label))
    (indices : list nat) (train_indices : option (list nat))
  : outcome (array (list cell) * option (array label)) :=
  let+ X_subset :=
    if _pairwise estimator then
      if negb (Nat.eqb (shape0 X) (shape1 X)) then
        Raise (ValueError "X should be a square kernel matrix")
      else
        match train_indices with
        | None => ix_ X indices indices
        | Some train => ix_ X indices train
        end
    else safe_indexing X indices in
  let+ y_subset :=
    match y with
    | Some y' => let+ s := safe_indexing y' indices in Ok (Some s)
    | None => Ok None
    end in
  Ok (X_subset, y_subset).

(** Modelled from the spec: [lale.datasets.data_schemas.add_schema] is
    not part of the sources at hand; the schema collaborator contract is
    [add_schema(value, schema_dict)], attaching the descriptor to the
    value.  [split_with_schemas] drops its return value, so the effect
    is the update of the [json_schema] attribute of [obj]. *)
Definition add_schema {R} (obj : array R) (sch : schema) : array R :=
  mk_array (rows obj) (Some sch).

(** The dict literal of [split_with_schemas]. *)
Definition array_schema (n_rows : nat) (items : json) : schema :=
  [ ("type"%string, JStr "array");
    ("minItems"%string, JInt (Z.of_nat n_rows));
    ("maxItems"%string, JInt (Z.of_nat n_rows));
    ("items"%string, items) ].

(** [def split_with_schemas(estimator, all_X, all_y, indices,
    train_indices=None)] *)
Definition split_with_schemas {E} `{Estimator E} {cell label}
    (estimator : E) (all_X : array (list cell)) (all_y : option (array label))
    (indices : list nat) (train_indices : option (list nat))
  : outcome (array (list cell) * option (array label)) :=
  let+ (subset_X, subset_y) :=
    _safe_split estimator all_X all_y indices train_indices in
  let+ subset_X :=
    match json_schema all_X with           (* hasattr(all_X, 'json_schema') *)
    | Some sch =>
        let n_rows := shape0 subset_X in
        let+ items := getitem sch "items" in
        Ok (add_schema subset_X (array_schema n_rows items))
    | None => Ok subset_X
    end in
  let+ subset_y :=
    match all_y with
    | Some y =>
        match json_schema y with           (* hasattr(all_y, 'json_schema') *)
        | Some sch =>
            match subset_y with
            | Some sy =>
                let n_rows := shape0 sy in
                let+ items := getitem sch "items" in
                Ok (Some (add_schema sy (array_schema n_rows items)))
            | None => Raise AttributeError  (* None has no shape *)
            end
        | None => Ok subset_y
        end
    | None => Ok subset_y                  (* hasattr(None, ...) is False *)
    end in
  Ok (subset_X, subset_y).

(** What a derived schema must look like: row-count bounds [n], and the
    given item schema. *)
Definition derived_schema_ok (sch' : schema) (n : nat) (items : json) : Prop :=
  dict_lookup sch' "type" = Some (JStr "array")
  /\ dict_lookup sch' "minItems" = Some (JInt (Z.of_nat n))
  /\ dict_lookup sch' "maxItems" = Some (JInt (Z.of_nat n))
  /\ dict_lookup sch' "items" = Some items.

End Schemas.

(** ** [cross_val_score_track_trials] *)

Module CrossVal.
Import Py Numpy Schemas.

Section Evaluator.
(** The collaborators of the evaluator.  [World] is whatever state the
    delegated calls read and change (the estimator's internals, the
    clock); every delegated call may raise. *)
Context {World E Trained Proba cell label : Type} `{Estimator E}.

Local Abbreviation X_t := (array (list cell)).
Local Abbreviation y_t := (option (array label)).

Variable fit : E -> X_t -> y_t -> M World Trained.
(** [scorer(trained, X_test, y_test, **args_to_scorer)] *)
Variable scorer : Trained -> X_t -> y_t -> M World npfloat.
(** [trained.predict_proba(X_test)]; AttributeError when the estimator
    has no such method. *)
Variable predict_proba : Trained -> X_t -> M World Proba.
Variable log_loss : y_t -> Proba -> M World npfloat.
(** [time.time()]: reads the clock, and does not raise. *)
Variable time_time : World -> Qc * World.

Definition tick : M World Qc :=
  fun w => let (t, w') := time_time w in (Ok t, w').

(** The local variables of the loop.  [execution_time] is unbound
    until the first iteration assigns it. *)
Record locals : Type := mk_locals {
  cv_results : list npfloat;
  log_loss_results : list npfloat;
  time_results : list Qc;
  execution_time : option Qc
}.

Definition init : locals := mk_locals [] [] [] None.

(** One iteration of [for train, test in cv.split(X, y)]. *)
Definition loop_body (estimator : E) (X : X_t) (y : y_t)
    (l : locals) (fold : list nat * list nat) : M World locals :=
  let (train, test) := fold in
  let* (X_train, y_train) :=
    lift (split_with_schemas estimator X y train None) in
  let* (X_test, y_test) :=
    lift (split_with_schemas estimator X y test (Some train)) in
  let* start := tick in
  let* trained := fit estimator X_train y_train in
  let* score_value := scorer trained X_test y_test in
  let* stop := tick in
  let execution_time := Qcminus stop start in
  let* log_loss_results :=
    try_except
      (let* y_pred_proba := predict_proba trained X_test in
       let* logloss := log_loss y_test y_pred_proba in
       ret (log_loss_results l ++ [logloss]))
      (fun _ => ret (log_loss_results l)) in
  ret (mk_locals (cv_results l ++ [score_value])
                 log_loss_results
                 (time_results l ++ [execution_time])
                 (Some execution_time)).

Fixpoint loop (estimator : E) (X : X_t) (y : y_t)
    (l : locals) (folds : list (list nat * list nat)) : M World locals :=
  match folds with
  | [] => ret l
  | fold :: folds' =>
      let* l' := loop_body estimator X y l fold in
      loop estimator X y l' folds'
  end.

(** [def cross_val_score_track_trials(estimator, X, y, scoring, cv,
    args_to_scorer)], from the loop on: [folds] are the (train, test)
    pairs [cv.split(X, y)] yields, [scorer] the checked scorer with
    [args_to_scorer] applied. *)
Definition cross_val_score_track_trials (estimator : E) (X : X_t) (y : y_t)
    (folds : list (list nat * list nat))
  : M World (npfloat * npfloat * npfloat) :=
  let* l := loop estimator X y init folds in
  let r1 := mean (cv_results l) in
  let r2 := mean (log_loss_results l) in
  match execution_time l with
  | Some t => ret (r1, r2, mean_scalar (Fin t))
  | None => raise UnboundLocalError
  end.

(** The additions one iteration makes to the locals. *)
Definition extend (l l1 : locals) : locals :=
  mk_locals (cv_results l ++ cv_results l1)
            (log_loss_results l ++ log_loss_results l1)
            (time_results l ++ time_results l1)
            (execution_time l1).

(** *** What one fold yields (used to state the properties) *)

(** The score, the log-loss when it could be computed, and the
    fit+score duration of one fold. *)
Record fold_result : Type := mk_fold_result {
  fold_score : npfloat;
  fold_log_loss : option npfloat;
  fold_time : Qc
}.

(** What a fold's results add to the locals. *)
Definition record_fold (l : locals) (r : fold_result) : locals :=
  extend l (mk_locals [fold_score r] (option_list (fold_log_loss r))
                      [fold_time r] (Some (fold_time r))).

Definition run_fold (estimator : E) (X : X_t) (y : y_t)
    (fold : list nat * list nat) : M World fold_result :=
  let* l := loop_body estimator X y init fold in
  match cv_results l, execution_time l with
  | [s], Some t => ret (mk_fold_result s (head (log_loss_results l)) t)
  | _, _ => stuck
  end.

Fixpoint run_folds (estimator : E) (X : X_t) (y : y_t)
    (folds : list (list nat * list nat)) : M World (list fold_result) :=
  match folds with
  | [] => ret []
  | fold :: folds' =>
      let* r := run_fold estimator X y fold in
      let* rs := run_folds estimator X y folds' in
      ret (r :: rs)
  end.

(** The arithmetic mean of the per-fold durations. *)
Definition mean_time (rs : list fold_result) : npfloat :=
  mean (map (fun r => Fin (fold_time r)) rs).

End Evaluator.
End CrossVal.

(** ** A two-fold evaluation, used as a test case

    Four rows, two folds.  The estimator has no [predict_proba], the
    scorer answers 1.0, and the [n]-th reading of the clock is [n * n]
    seconds: the first fold takes 1 second, the second 5. *)

Module CrossValExample.
Import Py Numpy Schemas CrossVal.

#[global] Instance plain_estimator : Estimator unit := {| _pairwise := fun _ => false |}.

Definition item_schema : json := JDict [("type"%string, JStr "number")].

Definition X : array (list Z) :=
  mk_array [[1; 2]; [3; 4]; [5; 6]; [7; 8]]
           (Some (array_schema 4 (JDict [("type"%string, JStr "array");
                                         ("items"%string, item_schema)]))).

Definition y : option (array Z) :=
  Some (mk_array [0; 1; 0; 1] (Some (array_schema 4 item_schema))).

Definition folds : list (list nat * list nat) :=
  [ ([0; 1], [2; 3]); ([2; 3], [0; 1]) ]%nat.

Definition fit (_ : unit) (_ : array (list Z)) (_ : option (array Z))
  : M nat unit := ret tt.
Definition scorer (_ : unit) (_ : array (list Z)) (_ : option (array Z))
  : M nat npfloat := ret (Fin (Q2Qc 1)).
Definition predict_proba (_ : unit) (_ : array (list Z)) : M nat unit :=
  raise AttributeError.
Definition log_loss (_ : option (array Z)) (_ : unit) : M nat npfloat :=
  ret (Fin (Q2Qc 0)).
Definition time_time (n : nat) : Qc * nat :=
  (Q2Qc (inject_Z (Z.of_nat (n * n))), S n).

Definition evaluate (fs : list (list nat * list nat))
  : M nat (npfloat * npfloat * npfloat) :=
  cross_val_score_track_trials fit scorer predict_proba log_loss time_time
    tt X y fs.

Definition results : list fold_result :=
  [ mk_fold_result (Fin (Q2Qc 1)) None
      (Qcminus (Q2Qc (inject_Z 1)) (Q2Qc (inject_Z 0)));
    mk_fold_result (Fin (Q2Qc 1)) None
      (Qcminus (Q2Qc (inject_Z 9)) (Q2Qc (inject_Z 4))) ].

End CrossValExample.

(** ** The hyperparameter-space instantiator *)

Module Hyperopt.
Import Py.

(** *** Python values *)

(** Dict keys: strings (hyperparameter names) and ints (the index of
    the chosen alternative). *)
Inductive key : Type :=
| KStr (s : string)
| KInt (n : Z).

#[global] Instance key_eq_dec : EqDecision key.
Proof. solve_decision. Defined.

(** The values hyperparameter structures are built from.  Dicts are the
    objects the instantiator updates in place: a dict value is a reference
    into the store.  Lists and tuples are never updated in place (the code
    copies before it assigns), so they are values.

    Modelled from the spec: the operator classes of [lale.operators] are
    not part of the sources at hand.  An operator is one of the three
    structural variants; [oid] is the identity of the object (operators
    are dict keys by identity), [class_name] what [class_name()] returns,
    [_hyperparams] the attribute of an individual operator, and [steps],
    [edges] what [steps()] and [edges()] return. *)
Inductive pyval : Type :=
| VNone
| VInt (n : Z)
| VStr (s : string)
| VList (l : list pyval)
| VTuple (l : list pyval)
| VDict (r : nat)
| VNested (sub_space : pyval)                (* NestedHyperoptSpace(sub_space) *)
| VOp (o : operator)
with operator : Type :=
| IndividualOp (oid : nat) (class_name : string)
               (_hyperparams : option (list (key * pyval)))
| BasePipeline (oid : nat) (class_name : string)
               (steps : list operator) (edges : list (operator * operator))
| OperatorChoice (oid : nat) (class_name : string) (steps : list operator).

(** A dict: its items in insertion order. *)
Abbreviation dict := (list (key * pyval)).

Definition oid (o : operator) : nat :=
  match o with
  | IndividualOp i _ _ | BasePipeline i _ _ _ | OperatorChoice i _ _ => i
  end.

Definition class_name (o : operator) : string :=
  match o with
  | IndividualOp _ c _ | BasePipeline _ c _ _ | OperatorChoice _ c _ => c
  end.

(** [isinstance(o, OperatorChoice)] *)
Definition is_choice (o : operator) : bool :=
  match o with OperatorChoice _ _ _ => true | _ => false end.

(** [v is None] *)
Definition is_none (v : pyval) : bool :=
  match v with VNone => true | _ => false end.

Definition key_eqb (a b : key) : bool :=
  match a, b with
  | KStr s, KStr t => String.eqb s t
  | KInt n, KInt m => Z.eqb n m
  | _, _ => false
  end.

Definition key_to_val (k : key) : pyval :=
  match k with KStr s => VStr s | KInt n => VInt n end.

(** *** Dicts *)

Fixpoint dict_get (d : dict) (k : key) : option pyval :=
  match d with
  | [] => None
  | (k', v) :: d' => if key_eqb k' k then Some v else dict_get d' k
  end.

(** [d[k] = v]: the value of an existing key is replaced where it stands,
    a new key goes last. *)
Fixpoint dict_set (d : dict) (k : key) (v : pyval) : dict :=
  match d with
  | [] => [(k, v)]
  | (k', v') :: d' =>
      if key_eqb k' k then (k', v) :: d' else (k', v') :: dict_set d' k v
  end.

(** [{**a, **b}] *)
Definition dict_merge (a b : dict) : dict :=
  fold_left (fun d kv => dict_set d (fst kv) (snd kv)) b a.

(** *** The store *)

Record store : Type := mk_store {
  dicts : gmap nat dict;       (* the dict objects *)
  next_oid : nat               (* identity of the next object created *)
}.

Definition read_dict (r : nat) : M store dict :=
  fun st => match dicts st !! r with
            | Some d => (Ok d, st)
            | None => (Stuck, st)
            end.

(** [d[k] = v] on the dict object [r] *)
Definition setitem (r : nat) (k : key) (v : pyval) : M store unit :=
  fun st => match dicts st !! r with
            | Some d => (Ok tt, mk_store (<[r := dict_set d k v]> (dicts st))
                                         (next_oid st))
            | None => (Stuck, st)
            end.

Definition fresh_oid : M store nat :=
  fun st => (Ok (next_oid st), mk_store (dicts st) (S (next_oid st))).

(** *** Python operations on values *)

Fixpoint chars (s : string) : list pyval :=
  match s with
  | EmptyString => []
  | String c s' => VStr (String c EmptyString) :: chars s'
  end.

(** [list(v)] / [for x in v]: a dict yields its keys, a string its
    characters; None, ints, markers and operators are not iterable. *)
Definition py_iter (v : pyval) : M store (list pyval) :=
  match v with
  | VList l | VTuple l => ret l
  | VStr s => ret (chars s)
  | VDict r => let* d := read_dict r in ret (map (fun kv => key_to_val (fst kv)) d)
  | _ => raise TypeError
  end.

(** [len(v)] *)
Definition py_len (v : pyval) : M store nat :=
  match v with
  | VList l | VTuple l => ret (length l)
  | VStr s => ret (String.length s)
  | VDict r => let* d := read_dict r in ret (length d)
  | _ => raise TypeError
  end.

(** [l[i]] on a sequence: a negative index counts from the end. *)
Definition seq_getitem {A} (l : list A) (i : Z) : outcome A :=
  let n := Z.of_nat (length l) in
  let j := if i <? 0 then i + n else i in
  if (j <? 0) || (n <=? j) then Raise IndexError
  else match l !! Z.to_nat j with
       | Some x => Ok x
       | None => Raise IndexError
       end.

(** Hashable values that are no key of a modelled dict. *)
Fixpoint hashable (v : pyval) : bool :=
  match v with
  | VList _ | VDict _ => false
  | VTuple l => forallb hashable l
  | _ => true
  end.

(** [v[k]] *)
Definition py_getitem (v k : pyval) : M store pyval :=
  match v with
  | VList l | VTuple l =>
      match k with
      | VInt i => lift (seq_getitem l i)
      | _ => raise TypeError
      end
  | VStr s =>
      match k with
      | VInt i => lift (seq_getitem (chars s) i)
      | _ => raise TypeError
      end
  | VDict r =>
      let* d := read_dict r in
      match k with
      | VStr s => match dict_get d (KStr s) with
                  | Some x => ret x
                  | None => raise KeyError
                  end
      | VInt n => match dict_get d (KInt n) with
                  | Some x => ret x
                  | None => raise KeyError
                  end
      | _ => if hashable k then raise KeyError else raise TypeError
      end
  | _ => raise TypeError
  end.

(** [a, b = v] *)
Definition unpack2 (v : pyval) : M store (pyval * pyval) :=
  let* items := py_iter v in
  match items with
  | [a; b] => ret (a, b)
  | _ => raise (ValueError "wrong number of values to unpack")
  end.

(** [v < n] for an int [n]: only ints are ordered against ints. *)
Definition py_lt_int (v : pyval) (n : Z) : outcome bool :=
  match v with
  | VInt i => Ok (i <? n)
  | _ => Raise TypeError
  end.

(** [k != key] for a string [key] *)
Definition differs_from_str (k : pyval) (key : string) : bool :=
  match k with
  | VStr s => negb (String.eqb s key)
  | _ => true
  end.

(** The dict key a value is stored under. *)
Definition as_key (v : pyval) : M store key :=
  match v with
  | VStr s => ret (KStr s)
  | VInt n => ret (KInt n)
  | _ => stuck
  end.

(** *** [dict_without] *)

(** The comprehension [{k: orig_dict[k] for k in ks if k != key}]. *)
Fixpoint dict_without_loop (orig_dict : pyval) (ks : list pyval) (key : string)
    (acc : dict) : M store dict :=
  match ks with
  | [] => ret acc
  | k :: ks' =>
      if differs_from_str k key then
        let* v := py_getitem orig_dict k in
        let* k' := as_key k in
        dict_without_loop orig_dict ks' key (dict_set acc k' v)
      else dict_without_loop orig_dict ks' key acc
  end.

(** [def dict_without(orig_dict, key)]: a new dict. *)
Definition dict_without (orig_dict : pyval) (key : string) : M store dict :=
  let* ks := py_iter orig_dict in
  dict_without_loop orig_dict ks key [].

(** *** Constructing operators *)

Definition is_str_key (k : key) : bool :=
  match k with KStr _ => true | KInt _ => false end.

(** Modelled from the spec: [IndividualOp.__call__] is not part of the
    sources at hand; it "returns a new operator instance constructed with
    the merged hyperparameters".  The instance is a new object of the same
    operator class.  Python itself raises TypeError when a dict
    unpacked into keyword arguments has a key that is not a string. *)
Definition call_individual_op (cn : string) (all_hyperparams : dict)
  : M store pyval :=
  if forallb (fun kv => is_str_key (fst kv)) all_hyperparams then
    let* i := fresh_oid in
    ret (VOp (IndividualOp i cn (Some all_hyperparams)))
  else raise TypeError.

Definition as_operator (v : pyval) : option operator :=
  match v with VOp o => Some o | _ => None end.

Definition as_edge (e : pyval * pyval) : option (operator * operator) :=
  match as_operator (fst e), as_operator (snd e) with
  | Some a, Some b => Some (a, b)
  | _, _ => None
  end.

(** Modelled from the spec: what [class_name()] returns for the pipelines
    the constructor builds is not in the sources at hand.  It is only ever
    compared with the class name of a pipeline that is itself a step. *)
Definition TrainablePipeline_class_name : string :=
  "lale.operators.TrainablePipeline".

(** Modelled from the spec: the constructor [TrainablePipeline(steps,
    edges, ordered=True)] is not part of the sources at hand; it
    "reconstructs a pipeline preserving original edge topology over the
    new instances": a new pipeline object with the given steps, in the
    given order, and the given edges.  Steps that are no operators are
    refused. *)
Definition TrainablePipeline (steps : list pyval) (edges : list (pyval * pyval))
  : M store pyval :=
  match mapM as_operator steps, mapM as_edge edges with
  | Some ops, Some es =>
      let* i := fresh_oid in
      ret (VOp (BasePipeline i TrainablePipeline_class_name ops es))
  | _, _ => raise AssertionError
  end.

(** [v.class_name()] *)
Definition py_class_name (v : pyval) : outcome string :=
  match v with
  | VOp o => Ok (class_name o)
  | _ => Raise AttributeError
  end.

(** *** The loops, over the recursive call [rec] *)

Section Loops.
Variable rec : pyval -> pyval -> M store pyval.

(** [instantiate_from_hyperopt_search_space], list/tuple case:
    [for i in range(params_len)]. *)
Fixpoint seq_loop (obj_hyperparams new_hyperparams : list pyval)
    (range : list nat) (res : option (list pyval))
  : M store (option (list pyval)) :=
  match range with
  | [] => ret res
  | i :: range' =>
      let* nhi := lift (seq_getitem new_hyperparams (Z.of_nat i)) in
      let* ohi := lift (seq_getitem obj_hyperparams (Z.of_nat i)) in
      let* updated_params := rec ohi nhi in
      let res' :=
        if is_none updated_params then res
        else
          let res0 := match res with
                      | None => new_hyperparams      (* res = list(new_hyperparams) *)
                      | Some l => l
                      end in
          Some (<[i := updated_params]> res0) in
      seq_loop obj_hyperparams new_hyperparams range' res'
  end.

(** [instantiate_from_hyperopt_search_space], dict case:
    [for k, sub_params in new_hyperparams.items()], on the dict objects
    [r_obj] and [r_new].  The loop assigns to existing keys only, so the
    keys are those at loop entry; each value is read when its turn
    comes. *)
Fixpoint dict_loop (r_obj r_new : nat) (ks : list key) : M store unit :=
  match ks with
  | [] => ret tt
  | k :: ks' =>
      let* new_hyperparams := read_dict r_new in
      let* sub_params := match dict_get new_hyperparams k with
                         | Some v => ret v
                         | None => stuck
                         end in
      let* obj_hyperparams := read_dict r_obj in
      let* _ :=
        match dict_get obj_hyperparams k with       (* k in obj_hyperparams *)
        | Some sub_op =>
            let* updated_params := rec sub_op sub_params in
            if is_none updated_params then ret tt
            else setitem r_new k updated_params
        | None => ret tt
        end in
      dict_loop r_obj r_new ks'
  end.

(** [create_instance_from_hyperopt_search_space], individual operator:
    [for k, sub_params in new_hyperparams.items()] on the local dict
    [new_hyperparams]; [items] are the items still to visit. *)
Fixpoint update_loop (obj_hyperparams : dict) (items : list (key * pyval))
    (new_hyperparams : dict) : M store dict :=
  match items with
  | [] => ret new_hyperparams
  | (k, sub_params) :: items' =>
      match dict_get obj_hyperparams k with         (* k in obj_hyperparams *)
      | Some sub_op =>
          let* updated_params := rec sub_op sub_params in
          update_loop obj_hyperparams items'
            (if is_none updated_params then new_hyperparams
             else dict_set new_hyperparams k updated_params)
      | None => update_loop obj_hyperparams items' new_hyperparams
      end
  end.

(** [create_instance_from_hyperopt_search_space], pipeline:
    [for op_index, sub_params in enumerate(hyperparams)]; [op_map] is
    keyed by the identity of the step. *)
Fixpoint pipeline_loop (steps : list operator) (op_index : nat)
    (hyperparams : list pyval) (op_instances : list pyval)
    (op_map : gmap nat pyval) : M store (list pyval * gmap nat pyval) :=
  match hyperparams with
  | [] => ret (op_instances, op_map)
  | sub_params :: hyperparams' =>
      let* sub_op := lift (seq_getitem steps (Z.of_nat op_index)) in
      let* op_instance := rec (VOp sub_op) sub_params in
      let* _ :=
        if is_choice sub_op then ret tt
        else
          let* cn := lift (py_class_name op_instance) in
          py_assert (String.eqb (class_name sub_op) cn) in
      pipeline_loop steps (S op_index) hyperparams'
        (op_instances ++ [op_instance])
        (<[oid sub_op := op_instance]> op_map)
  end.

End Loops.

(** [[(op_map[x], op_map[y]) for (x, y) in edges]], a KeyError turned
    into the ValueError of the dangling edge (the message ends with the
    key, which is left out here). *)
Definition remap_edges (op_map : gmap nat pyval) (edges : list (operator * operator))
  : outcome (list (pyval * pyval)) :=
  omapM (fun e =>
           match op_map !! oid (fst e), op_map !! oid (snd e) with
           | Some a, Some b => Ok (a, b)
           | _, _ =>
               Raise (ValueError
                        "An edge was found with an endpoint that is not a step")
           end) edges.

Definition step_count_mismatch : exn :=
  ValueError "The number of steps in the hyper-parameter space does not match the number of steps in the pipeline.".

(** *** The two functions

    They call each other.  Each is written first over its recursive
    calls ([instantiate] and [create_instance] below); [fuel] then bounds
    the depth of the calls. *)

Section Bodies.
Variable instantiate : pyval -> pyval -> M store pyval.
Variable create_instance : pyval -> pyval -> M store pyval.

(** The operator and the sample a marker is resolved against. *)
Definition resolve_marker (obj_hyperparams sub_space : pyval)
  : M store (pyval * pyval) :=
  let sub_params := sub_space in
  let sub_op := obj_hyperparams in
  match sub_op with
  | VList [x] => ret (x, sub_params)                 (* len(sub_op) == 1 *)
  | VList l =>
      let* items := py_iter sub_params in
      let* first := lift (seq_getitem items 0) in
      let* (step_index, step_params) := unpack2 first in
      let* lt := lift (py_lt_int step_index (Z.of_nat (length l))) in
      if lt then
        let* x := py_getitem (VList l) step_index in
        ret (x, step_params)
      else ret (VList l, sub_params)
  | _ => ret (sub_op, sub_params)
  end.

(** [def instantiate_from_hyperopt_search_space(obj_hyperparams,
    new_hyperparams)] *)
Definition instantiate_body (obj_hyperparams new_hyperparams : pyval)
  : M store pyval :=
  match new_hyperparams with
  | VNested sub_space =>
      let* (sub_op, sub_params) := resolve_marker obj_hyperparams sub_space in
      create_instance sub_op sub_params
  | VList news | VTuple news =>
      let* objs :=
        match obj_hyperparams with
        | VList l | VTuple l => ret l
        | _ => raise AssertionError
        end in
      let params_len := length news in
      let* _ := py_assert (Nat.eqb params_len (length objs)) in
      let* res := seq_loop instantiate objs news (seq 0 params_len) None in
      let is_obj_tuple :=
        match obj_hyperparams with VTuple _ => true | _ => false end in
      let is_new_tuple :=
        match new_hyperparams with VTuple _ => true | _ => false end in
      match res with
      | Some l => ret (if is_obj_tuple then VTuple l else VList l)
      | None =>
          if negb (Bool.eqb is_obj_tuple is_new_tuple) then
            ret (if is_obj_tuple then VTuple news else VList news)
          else ret VNone
      end
  | VDict r_new =>
      match obj_hyperparams with
      | VDict r_obj =>
          let* d := read_dict r_new in
          let* _ := dict_loop instantiate r_obj r_new (map fst d) in
          ret VNone
      | _ => raise AssertionError
      end
  | _ => ret VNone
  end.

(** [def create_instance_from_hyperopt_search_space(lale_object,
    hyperparams)] *)
Definition create_instance_body (lale_object hyperparams : pyval)
  : M store pyval :=
  match lale_object with
  | VOp (IndividualOp _ cn hp) =>
      let* new_hyperparams := dict_without hyperparams "name" in
      let obj_hyperparams := match hp with
                             | Some d => d
                             | None => []
                             end in
      let* new_hyperparams :=
        update_loop instantiate obj_hyperparams new_hyperparams new_hyperparams in
      let all_hyperparams := dict_merge obj_hyperparams new_hyperparams in
      call_individual_op cn all_hyperparams
  | VOp (BasePipeline _ _ steps edges) =>
      let* n := py_len hyperparams in
      if negb (Nat.eqb n (length steps)) then raise step_count_mismatch
      else
        let* items := py_iter hyperparams in
        let* (op_instances, op_map) :=
          pipeline_loop create_instance steps 0 items [] ∅ in
        let* trainable_edges := lift (remap_edges op_map edges) in
        TrainablePipeline op_instances trainable_edges
  | VOp (OperatorChoice _ _ choices) =>
      let* (step_index, hyperparams) :=
        if Nat.eqb (length choices) 1 then ret (VInt 0, hyperparams)
        else
          match hyperparams with
          | VDict r =>
              let* d := read_dict r in
              let* first := lift (seq_getitem d 0) in   (* list(d.items())[0] *)
              ret (key_to_val (fst first), snd first)
          | _ => raise AttributeError                   (* no method [items] *)
          end in
      let* step_object :=
        match step_index with
        | VInt i => lift (seq_getitem choices i)
        | _ => raise TypeError
        end in
      create_instance (VOp step_object) hyperparams
  | _ => ret VNone
  end.

End Bodies.

Fixpoint instantiate_from_hyperopt_search_space (fuel : nat)
    (obj_hyperparams new_hyperparams : pyval) {struct fuel} : M store pyval :=
  match fuel with
  | O => out_of_fuel
  | S fuel' =>
      instantiate_body (instantiate_from_hyperopt_search_space fuel')
        (create_instance_from_hyperopt_search_space fuel')
        obj_hyperparams new_hyperparams
  end
with create_instance_from_hyperopt_search_space (fuel : nat)
    (lale_object hyperparams : pyval) {struct fuel} : M store pyval :=
  match fuel with
  | O => out_of_fuel
  | S fuel' =>
      create_instance_body (instantiate_from_hyperopt_search_space fuel')
        (create_instance_from_hyperopt_search_space fuel')
        lale_object hyperparams
  end.

(** *** Notions used to state the properties *)

(** [dict_without] on the items of a dict. *)
Definition dict_without_dict (d : dict) (key : string) : dict :=
  fold_left (fun acc k =>
               if key_eqb k (KStr key) then acc
               else match dict_get d k with
                    | Some v => dict_set acc k v
                    | None => acc
                    end)
            (map fst d) [].

(** A value the list/dict recursion leaves alone: [isinstance] finds
    neither a marker nor a list, tuple or dict. *)
Definition is_plain (v : pyval) : bool :=
  match v with
  | VNone | VInt _ | VStr _ | VOp _ => true
  | _ => false
  end.

(** The recursive calls on the entries of two parallel sequences, left to
    right: [us] are the values they return. *)
Inductive entries_run (rec : pyval -> pyval -> M store pyval)
  : list pyval -> list pyval -> store -> list pyval -> store -> Prop :=
| entries_run_nil st : entries_run rec [] [] st [] st
| entries_run_cons o os n ns st u st1 us st2 :
    rec o n st = (Ok u, st1) ->
    entries_run rec os ns st1 us st2 ->
    entries_run rec (o :: os) (n :: ns) st (u :: us) st2.

(** A list or a tuple, by kind. *)
Definition seq_val (is_tuple : bool) (l : list pyval) : pyval :=
  if is_tuple then VTuple l else VList l.

(** The sample entries, each replaced by its update when there is one. *)
Definition apply_updates (news us : list pyval) : list pyval :=
  zip_with (fun n u => if is_none u then n else u) news us.

(** Some recursive call returned an update. *)
Definition any_update (us : list pyval) : bool :=
  existsb (fun u => negb (is_none u)) us.

(** The instantiation of the steps of a pipeline, in step order: [insts]
    are the instances, each passing the class-name assertion. *)
Inductive steps_instantiated (rec : pyval -> pyval -> M store pyval)
  : list operator -> list pyval -> store -> list operator -> store -> Prop :=
| steps_instantiated_nil st : steps_instantiated rec [] [] st [] st
| steps_instantiated_cons s ss h hs st inst st1 insts st2 :
    rec (VOp s) h st = (Ok (VOp inst), st1) ->
    is_choice s = true \/ class_name s = class_name inst ->
    steps_instantiated rec ss hs st1 insts st2 ->
    steps_instantiated rec (s :: ss) (h :: hs) st (inst :: insts) st2.

(** The instance at the position of the step [x] (found by identity). *)
Fixpoint counterpart (steps insts : list operator) (x : operator)
  : option operator :=
  match steps, insts with
  | s :: steps', i :: insts' =>
      if Nat.eqb (oid s) (oid x) then Some i else counterpart steps' insts' x
  | _, _ => None
  end.

(** The [op_map] the pipeline loop builds from [steps] and their
    instances, starting from [m]. *)
Definition op_map_of (steps insts : list operator) (m : gmap nat pyval)
  : gmap nat pyval :=
  fold_left (fun m si => <[oid (fst si) := VOp (snd si)]> m) (zip steps insts) m.

Definition remap_edge (steps insts : list operator) (e e' : operator * operator)
  : Prop :=
  counterpart steps insts (fst e) = Some (fst e')
  /\ counterpart steps insts (snd e) = Some (snd e').

(** The hyperparameters of an individual operator ([{}] when the
    attribute is None). *)
Definition declared_hyperparams (o : operator) : dict :=
  match o with
  | IndividualOp _ _ (Some d) => d
  | _ => []
  end.

End Hyperopt.

(** ** Operators and samples used as test cases *)

Module HyperoptExample.
Import Py Hyperopt.

(** An operator with the declared hyperparameters [{a: 1, b: 2}]. *)
Definition op_ab : operator :=
  IndividualOp 1 "Classifier" (Some [(KStr "a", VInt 1); (KStr "b", VInt 2)]).

Definition scaler : operator := IndividualOp 2 "Scaler" None.

(** The pipeline [scaler >> op_ab]. *)
Definition pipeline : operator :=
  BasePipeline 3 TrainablePipeline_class_name [scaler; op_ab] [(scaler, op_ab)].

(** A choice whose only alternative is the pipeline. *)
Definition single_choice : operator :=
  OperatorChoice 4 "lale.operators.OperatorChoice" [pipeline].

Definition two_choice : operator :=
  OperatorChoice 6 "lale.operators.OperatorChoice" [scaler; op_ab].

(** The dict objects:
    - 0: [{'name': 'op', 'a': 9}]
    - 1: [{}]
    - 2: [{0: [d1, d0]}], the pipeline sample under the index 0
    - 3: [{'a': 9}]
    - 4: [{'est': NestedHyperoptSpace(d3)}], a sample mapping
    - 5: [{'est': op_ab}], the mapping it is matched with
    - 6: [{1: d3}], the sample choosing alternative 1 *)
Definition st0 : store :=
  mk_store
    (list_to_map
       [ (0%nat, [(KStr "name", VStr "op"); (KStr "a", VInt 9)]);
         (1%nat, []);
         (2%nat, [(KInt 0, VList [VDict 1; VDict 0])]);
         (3%nat, [(KStr "a", VInt 9)]);
         (4%nat, [(KStr "est", VNested (VDict 3))]);
         (5%nat, [(KStr "est", VOp op_ab)]);
         (6%nat, [(KInt 1, VDict 3)]) ])
    10.

(** The sample of the pipeline: one dict per step. *)
Definition pipeline_sample : pyval := VList [VDict 1; VDict 0].

(** What [op_ab] becomes under the sample [{'a': 9}], as the first object
    created. *)
Definition op_ab_updated : operator :=
  IndividualOp 10 "Classifier" (Some [(KStr "a", VInt 9); (KStr "b", VInt 2)]).

Definition scaler_instance : operator := IndividualOp 10 "Scaler" (Some []).
Definition op_ab_instance : operator :=
  IndividualOp 11 "Classifier" (Some [(KStr "a", VInt 9); (KStr "b", VInt 2)]).

End HyperoptExample.

(** ** Notions for further properties of the instantiator *)

Module HyperoptInvariants.
Import Py Hyperopt.

(** The two stores hold the same dict objects with the same keys in the
    same order: only values may differ. *)
Definition same_keys (st st' : store) : Prop :=
  forall r, map fst <$> (dicts st !! r) = map fst <$> (dicts st' !! r).

(** A computation that leaves the keys of every dict object alone,
    whatever its outcome. *)
Definition keeps_keys {A} (c : M store A) : Prop :=
  forall st r st', c st = (r, st') -> same_keys st st'.

(** The message of the ValueError for an edge whose endpoint is no step
    (without the key that ends it in the source). *)
Definition dangling_edge : Py.exn :=
  Py.ValueError "An edge was found with an endpoint that is not a step".

End HyperoptInvariants.

(** ** More samples used as test cases *)

Module HyperoptExample2.
Import Py Hyperopt.

(** The dict objects:
    - 0: [{-1: d2}], the sample choosing the last alternative
    - 1: [{5: d2}], an index beyond the alternatives
    - 2: [{'a': 9}]
    - 3: [{}]
    - 4: [{'est': NestedHyperoptSpace(d2), 'n': 3}], a sample mapping
    - 5: [{'est': op_ab, 'n': 1}], the mapping it is matched with *)
Definition st1 : store :=
  mk_store
    (list_to_map
       [ (0%nat, [(KInt (-1), VDict 2)]);
         (1%nat, [(KInt 5, VDict 2)]);
         (2%nat, [(KStr "a", VInt 9)]);
         (3%nat, []);
         (4%nat, [(KStr "est", VNested (VDict 2)); (KStr "n", VInt 3)]);
         (5%nat, [(KStr "est", VOp HyperoptExample.op_ab); (KStr "n", VInt 1)]) ])
    20.

End HyperoptExample2.

(** ** [cross_val_score] *)

Module CrossValSimple.
Import Py Schemas.

Section Scores.
(** The collaborators, as for the evaluator above; [scoring] is the plain
    metric [scoring(y_test, predicted_values)], and [Score] whatever it
    returns. *)
Context {World E Trained Pred Score cell label : Type} `{Estimator E}.

Variable fit :
  E -> array (list cell) -> option (array label) -> M World Trained.
Variable predict : Trained -> array (list cell) -> M World Pred.
Variable scoring : option (array label) -> Pred -> M World Score.

(** [for train, test in cv.split(X, y)], with [cv_results] so far. *)
Fixpoint score_loop (estimator : E) (X : array (list cell))
    (y : option (array label)) (cv_results : list Score)
    (folds : list (list nat * list nat)) : M World (list Score) :=
  match folds with
  | [] => ret cv_results
  | (train, test) :: folds' =>
      let* (X_train, y_train) :=
        lift (split_with_schemas estimator X y train None) in
      let* (X_test, y_test) :=
        lift (split_with_schemas estimator X y test (Some train)) in
      let* trained_estimator := fit estimator X_train y_train in
      let* predicted_values := predict trained_estimator X_test in
      let* score := scoring y_test predicted_values in
      score_loop estimator X y (cv_results ++ [score]) folds'
  end.

(** [def cross_val_score(estimator, X, y, scoring, cv)], from the loop
    on: [folds] are the (train, test) pairs [cv.split(X, y)] yields. *)
Definition cross_val_score (estimator : E) (X : array (list cell))
    (y : option (array label)) (folds : list (list nat * list nat))
  : M World (list Score) :=
  score_loop estimator X y [] folds.

(** The score of one fold. *)
Definition score_fold (estimator : E) (X : array (list cell))
    (y : option (array label)) (fold : list nat * list nat) : M World Score :=
  let (train, test) := fold in
  let* (X_train, y_train) :=
    lift (split_with_schemas estimator X y train None) in
  let* (X_test, y_test) :=
    lift (split_with_schemas estimator X y test (Some train)) in
  let* trained_estimator := fit estimator X_train y_train in
  let* predicted_values := predict trained_estimator X_test in
  scoring y_test predicted_values.

(** The folds scored one after the other. *)
Fixpoint score_folds (estimator : E) (X : array (list cell))
    (y : option (array label)) (folds : list (list nat * list nat))
  : M World (list Score) :=
  match folds with
  | [] => ret []
  | fold :: folds' =>
      let* s := score_fold estimator X y fold in
      let* ss := score_folds estimator X y folds' in
      ret (s :: ss)
  end.

End Scores.
End CrossValSimple.

(** ** More evaluations used as test cases *)

Module CrossValExample2.
Import Py Numpy Schemas CrossVal.

(** An estimator whose [fit] succeeds once: the world counts the readings
    of the clock, and from the second fold on [fit] raises. *)
Definition fit_once (_ : unit) (_ : array (list Z)) (_ : option (array Z))
  : M nat unit :=
  fun w => if (w <? 2)%nat then (Ok tt, w) else (Raise (OtherError "fit"), w).

(** [predict] answers the number of test rows, [scoring] compares it with
    the number of test labels. *)
Definition predict (_ : unit) (X_test : array (list Z)) : M nat nat :=
  ret (shape0 X_test).

Definition scoring (y_test : option (array Z)) (predicted : nat) : M nat bool :=
  ret (match y_test with
       | Some y => Nat.eqb (shape0 y) predicted
       | None => false
       end).

End CrossValExample2.

(** ** Operators created from their class name *)

Module Reflection.
Import Py.

(** [s.split(".")]: the pieces between the dots, at least one. *)
Fixpoint split_dot (s : string) : list string :=
  match s with
  | EmptyString => [EmptyString]
  | String c s' =>
      if Ascii.eqb c "."%char then EmptyString :: split_dot s'
      else match split_dot s' with
           | piece :: pieces => String c piece :: pieces
           | [] => [String c EmptyString]
           end
  end.

(** [".".join(parts)] *)
Fixpoint join_dot (parts : list string) : string :=
  match parts with
  | [] => EmptyString
  | [piece] => piece
  | piece :: parts' => String.append piece (String "." (join_dot parts'))
  end.

(** [parts[-1]] of a list that is not empty. *)
Definition last_part (parts : list string) : string :=
  List.last parts EmptyString.

(** A string without a dot. *)
Fixpoint no_dot (s : string) : bool :=
  match s with
  | EmptyString => true
  | String c s' => negb (Ascii.eqb c "."%char) && no_dot s'
  end.

Section Reflection.
(** The collaborators: [importlib.import_module], [getattr] on a module,
    the class method [create] of an operator class, and the call of a class
    (without arguments, or with the parameter dict as keyword arguments). *)
Context {World Module Class Instance Name Params : Type}.
Variable import_module : string -> M World Module.
Variable getattr : Module -> string -> M World Class.
Variable create : Class -> Name -> option Params -> M World Instance.
Variable construct : Class -> option Params -> M World Instance.

(** [def create_operator_using_reflection(class_name, operator_name,
    param_dict)]; the result is None when [class_name] is None. *)
Definition create_operator_using_reflection (class_name : option string)
    (operator_name : Name) (param_dict : option Params)
  : M World (option Instance) :=
  match class_name with
  | Some class_name =>
      let class_name_parts := split_dot class_name in
      let* _ := py_assert (1 <? length class_name_parts)%nat in
      let module_name := join_dot (removelast class_name_parts) in
      let class_name := last_part class_name_parts in
      let* module := import_module module_name in
      let* class_ := getattr module class_name in
      let* instance := create class_ operator_name param_dict in
      ret (Some instance)
  | None => ret None
  end.

(** [def create_individual_op_using_reflection(class_name, operator_name,
    param_dict)] *)
Definition create_individual_op_using_reflection (class_name : option string)
    (operator_name : Name) (param_dict : option Params)
  : M World (option Instance) :=
  match class_name with
  | Some class_name =>
      let class_name_parts := split_dot class_name in
      let* _ := py_assert (1 <? length class_name_parts)%nat in
      let module_name := join_dot (removelast class_name_parts) in
      let class_name := last_part class_name_parts in
      let* module := import_module module_name in
      let* class_ := getattr module class_name in
      let* instance := construct class_ param_dict in
      ret (Some instance)
  | None => ret None
  end.

End Reflection.
End Reflection.

(** ** Names resolved in a test registry *)

Module ReflectionExample.
Import Py.

(** The world is the list of the modules imported so far; a module is its
    name, a class the pair of module and attribute, an instance what it was
    created from. *)
Definition import_module (m : string) : M (list string) string :=
  fun w => (Ok m, w ++ [m]).
Definition getattr (module : string) (c : string)
  : M (list string) (string * string) := ret (module, c).
Definition create (class_ : string * string) (name : string) (params : option nat)
  : M (list string) (string * string * string * option nat) :=
  ret (class_, name, params).
Definition construct (class_ : string * string) (params : option nat)
  : M (list string) (string * string * string * option nat) :=
  ret (class_, EmptyString, params).

End ReflectionExample.

(** ** [append_batch] *)

Module Batches.
Import Py.

Section Data.
Context {cell : Type}.

(** What [append_batch] tells apart: None, numpy arrays (of one or two
    dimensions here; [ncols] is [shape[1]]), tuples, an [h5py.File], and
    any other object that is none of these and no torch tensor. *)
Inductive data : Type :=
| DNone
| DArray1 (xs : list cell)
| DArray2 (ncols : nat) (rows : list (list cell))
| DTuple (items : list data)
| DFile
| DOther.

(** [a, b = t] for a tuple [t] *)
Definition unpack_pair (items : list data) : outcome (data * data) :=
  match items with
  | [a; b] => Ok (a, b)
  | _ => Raise (ValueError "wrong number of values to unpack")
  end.

(** [np.vstack((a, b))] on rows of [na] and [nb] columns. *)
Definition vstack (na : nat) (a : list (list cell)) (nb : nat)
    (b : list (list cell)) : outcome data :=
  if Nat.eqb na nb then Ok (DArray2 na (a ++ b))
  else Raise (ValueError "all the input array dimensions except for the concatenation axis must match exactly").

(** [def append_batch(data, batch_data)]; falling off the end of the
    function returns None. *)
Fixpoint append_batch (d batch_data : data) {struct d} : outcome data :=
  match d with
  | DNone => Ok batch_data
  | DArray1 xs =>
      match batch_data with
      | DArray1 ys => Ok (DArray1 (xs ++ ys))        (* np.concatenate *)
      | DArray2 n rows => vstack (length xs) [xs] n rows
      | _ => Ok DNone
      end
  | DArray2 n rows =>
      match batch_data with
      | DArray1 ys => vstack n rows (length ys) [ys]
      | DArray2 n' rows' => vstack n rows n' rows'
      | _ => Ok DNone
      end
  | DTuple items =>
      match items with
      | [X; y] =>
          match batch_data with
          | DTuple batch_items =>
              let+ (batch_X, batch_y) := unpack_pair batch_items in
              let+ X' := append_batch X batch_X in
              let+ y' := append_batch y batch_y in
              Ok (DTuple [X'; y'])
          | _ => Ok DNone
          end
      | _ => Raise (ValueError "wrong number of values to unpack")
      end
  | DFile =>
      match batch_data with
      | DTuple batch_items =>
          let+ _ := unpack_pair batch_items in
          Ok DNone
      | _ => Ok DNone
      end
  | DOther => Ok DNone
  end.

(** [append_batch] applied to the batches one after the other, starting
    from None. *)
Definition accumulate (batches : list data) : outcome data :=
  fold_left (fun acc b => let+ d := acc in append_batch d b) batches (Ok DNone).

(** [len(a)] of an array *)
Definition n_rows (d : data) : option nat :=
  match d with
  | DArray1 xs => Some (length xs)
  | DArray2 _ rows => Some (length rows)
  | _ => None
  end.

(** [isinstance(d, np.ndarray)] and [isinstance(d, tuple)] *)
Definition is_array (d : data) : bool :=
  match d with
  | DArray1 _ | DArray2 _ _ => true
  | _ => false
  end.

Definition is_tuple (d : data) : bool :=
  match d with
  | DTuple _ => true
  | _ => false
  end.

(** [len(np.atleast_2d(a))]: the rows [np.vstack] makes of an array. *)
Definition atleast_2d_rows (d : data) : nat :=
  match d with
  | DArray1 _ => 1
  | DArray2 _ rows => length rows
  | _ => 0
  end.

(** [a.shape[-1]] *)
Definition n_cols (d : data) : option nat :=
  match d with
  | DArray1 xs => Some (length xs)
  | DArray2 n _ => Some n
  | _ => None
  end.

End Data.
Arguments data : clear implicits.
End Batches.

(** ** [data_to_json] and [ndarray_to_json]

    Python data as the two functions tell it apart: tuples, lists,
    dicts (items in insertion order, keys distinct), arrays, and every
    other object, numpy scalars included. [PArray] also stands for a
    [csr_matrix], a [DataFrame], a [Series] or a tensor, given by the
    array that [toarray()], [values] or [detach().numpy()] makes of it. *)
Module Json.
Import Py.

(** What [np.issubdtype] and [dtype.kind] tell apart, in the order of
    the tests: bool, integer, any other number, kind U, S or O, and the
    rest. *)
Inductive dtype : Type :=
| DBool
| DInteger
| DNumber
| DText
| DUnexpected.

Section Data.
Context {key obj : Type}.

Record ndarray : Type := mk_ndarray {
  shape : list nat;
  arr_dtype : dtype;
  item : list nat -> obj;       (* [arr[indices]] for a full index tuple *)
}.

Inductive pydata : Type :=
| PTuple (elems : list pydata)
| PList (elems : list pydata)
| PDict (items : list (key * pydata))
| PArray (arr : ndarray)
| PObj (o : obj).

(** [isinstance(x, bool) or isinstance(x, int) or isinstance(x, float) or
    isinstance(x, str)] and the conversions [bool(x)], [int(x)],
    [float(x)], [str(x)]. *)
Variable is_python_scalar : obj -> bool.
Variables py_bool py_int py_float py_str : obj -> outcome obj.

(** [np.iinfo(np.int).max] *)
Definition int_max : Z := 9223372036854775807.

Definition num_subsamples (subsample_array : bool) : list Z :=
  if subsample_array then [10; int_max; int_max]
  else [int_max; int_max; int_max].

(** the branch [len(indices) == len(arr.shape)] of [subarray_to_json] *)
Definition element_to_json (arr : ndarray) (indices : list nat) : outcome obj :=
  let x := item arr indices in
  if is_python_scalar x then Ok x
  else match arr_dtype arr with
       | DBool => py_bool x
       | DInteger => py_int x
       | DNumber => py_float x
       | DText => py_str x
       | DUnexpected => Raise (ValueError "Unexpected dtype")
       end.

(** [subarray_to_json(indices)]. [rest] is [arr.shape[len(indices):]],
    so that [len(indices) == len(arr.shape)] reads [rest = []], and the
    assertion [len(indices) < len(arr.shape)] of the other branch holds. *)
Fixpoint subarray_to_json (arr : ndarray) (subsample_array : bool)
    (rest : list nat) (indices : list nat) {struct rest} : outcome pydata :=
  match rest with
  | [] => let+ o := element_to_json arr indices in Ok (PObj o)
  | n :: rest' =>
      match num_subsamples subsample_array !! length indices with
      | None => Raise IndexError
      | Some limit =>
          let+ elems :=
            omapM (fun i => subarray_to_json arr subsample_array rest'
                              (indices ++ [i]))
                  (seq 0 (Z.to_nat (Z.min limit (Z.of_nat n)))) in
          Ok (PList elems)
      end
  end.

Definition ndarray_to_json (arr : ndarray) (subsample_array : bool)
    : outcome pydata :=
  subarray_to_json arr subsample_array (shape arr) [].

Fixpoint data_to_json (subsample_array : bool) (d : pydata) {struct d}
    : outcome pydata :=
  match d with
  | PTuple elems =>
      let+ elems' := omapM (data_to_json subsample_array) elems in
      Ok (PList elems')
  | PList elems =>
      let+ elems' := omapM (data_to_json subsample_array) elems in
      Ok (PList elems')
  | PDict items =>
      let+ items' :=
        omapM (fun kv => let+ v := data_to_json subsample_array (snd kv) in
                         Ok (fst kv, v)) items in
      Ok (PDict items')
  | PArray arr => ndarray_to_json arr subsample_array
  | PObj o => Ok (PObj o)
  end.

(** Neither a tuple nor an array anywhere in the data. *)
Fixpoint is_json (d : pydata) : bool :=
  match d with
  | PTuple _ => false
  | PList elems => forallb is_json elems
  | PDict items => forallb (fun kv => is_json (snd kv)) items
  | PArray _ => false
  | PObj _ => true
  end.

(** No array anywhere in the data. *)
Fixpoint array_free (d : pydata) : bool :=
  match d with
  | PTuple elems => forallb array_free elems
  | PList elems => forallb array_free elems
  | PDict items => forallb (fun kv => array_free (snd kv)) items
  | PArray _ => false
  | PObj _ => true
  end.

(** The rows [ndarray_to_json] makes of a table. *)
Definition sampled_rows (subsample_array : bool) (n : nat) : nat :=
  if subsample_array then Nat.min 10 n else n.

End Data.
Arguments ndarray : clear implicits.
Arguments pydata : clear implicits.
End Json.

(** Integers as numpy holds them and as Python does, and a date, which
    is neither a Python scalar nor of an expected dtype. *)
Module JsonExample.
Import Py Json.

Inductive obj : Type :=
| NpInt (z : Z)
| NpDatetime (z : Z)
| PyBool (b : bool)
| PyInt (z : Z)
| PyFloat (z : Z)
| PyStr (s : string).

Definition is_python_scalar (x : obj) : bool :=
  match x with
  | NpInt _ | NpDatetime _ => false
  | _ => true
  end.

Definition py_bool (x : obj) : outcome obj :=
  match x with
  | NpInt z | PyInt z | PyFloat z => Ok (PyBool (negb (Z.eqb z 0)))
  | PyBool b => Ok (PyBool b)
  | _ => Ok (PyBool true)
  end.

Definition py_int (x : obj) : outcome obj :=
  match x with
  | NpInt z | PyInt z | PyFloat z => Ok (PyInt z)
  | PyBool b => Ok (PyInt (if b then 1 else 0))
  | _ => Raise TypeError
  end.

Definition py_float (x : obj) : outcome obj :=
  match x with
  | NpInt z | PyInt z | PyFloat z => Ok (PyFloat z)
  | PyBool b => Ok (PyFloat (if b then 1 else 0))
  | _ => Raise TypeError
  end.

Definition py_str (x : obj) : outcome obj :=
  match x with
  | PyStr s => Ok (PyStr s)
  | _ => Ok (PyStr "?")
  end.

Definition ndarray_to_json := @Json.ndarray_to_json string obj
  is_python_scalar py_bool py_int py_float py_str.
Definition data_to_json := @Json.data_to_json string obj
  is_python_scalar py_bool py_int py_float py_str.

(** twelve rows of two integers: row [i] is [10 i, 10 i + 1] *)
Definition table : ndarray obj :=
  mk_ndarray [12; 2]%nat DInteger
    (fun indices => match indices with
                    | [i; j] => NpInt (Z.of_nat (10 * i + j))
                    | _ => NpInt 0
                    end).

Definition table_cell (i j : nat) : obj := PyInt (Z.of_nat (10 * i + j)).

Definition hypercube : ndarray obj :=
  mk_ndarray [1; 1; 1; 1]%nat DInteger (fun _ => NpInt 0).

Definition dates : ndarray obj :=
  mk_ndarray [1; 1]%nat DUnexpected (fun _ => NpDatetime 0).

(** [{'X': (table, [1, 2]), 'n': 3}] *)
Definition dataset : pydata string obj :=
  PDict [("X"%string, PTuple [PArray table; PList [PObj (PyInt 1); PObj (PyInt 2)]]);
         ("n"%string, PObj (PyInt 3))].

(** [{'shape': (12, 2), 'names': ['a', 'b']}] *)
Definition description : pydata string obj :=
  PDict [("shape"%string, PTuple [PObj (PyInt 12); PObj (PyInt 2)]);
         ("names"%string, PList [PObj (PyStr "a"); PObj (PyStr "b")])].

End JsonExample.

(* ===================================================================== *)
(** * Part II: properties                                                 *)
(* ===================================================================== *)

Section ValWrapperFacts.
Import ValWrapper.
Context {A : Type}.
Implicit Types (v obj : value A).

Lemma unwrap_not_wrapper obj : is_wrapper (unwrap obj) = false.
Proof. induction obj as [a | base IH]; simpl; [reflexivity | exact IH]. Qed.

Lemma unwrap_plain obj : is_wrapper obj = false -> unwrap obj = obj.
Proof. destruct obj; simpl; [reflexivity | discriminate]. Qed.

Lemma unwrap_wrap obj : unwrap (val_wrapper obj) = unwrap obj.
Proof. reflexivity. Qed.

(** [unwrap] follows [unwrap_self] on a wrapper. *)
Lemma unwrap_unwrap_self obj base :
  unwrap_self obj = Some base -> unwrap obj = unwrap base.
Proof. destruct obj; simpl; [discriminate | intros [= ->]; reflexivity]. Qed.

Lemma unwrap_idempotent obj : unwrap (unwrap obj) = unwrap obj.
Proof. apply unwrap_plain, unwrap_not_wrapper. Qed.
End ValWrapperFacts.

(** With [v] a wrapper the first equation of C7 fails: unwrapping strips
    every layer, so [unwrap(val_wrapper(v))] is the innermost value. *)
Lemma unwrap_wrap_wrapper_counterexample :
  let v : ValWrapper.value nat := ValWrapper.val_wrapper (ValWrapper.Plain 0%nat) in
  ValWrapper.unwrap (ValWrapper.val_wrapper v) <> v.
Proof. simpl. discriminate. Qed.

(** C7 (amended).  For every value [v] that is not itself a [val_wrapper]
    instance, [unwrap(val_wrapper(v))] and
    [unwrap(val_wrapper(val_wrapper(v)))] are [v], and [unwrap(v)] returns
    [v] unchanged; for every value [obj], wrappers included,
    [unwrap(val_wrapper(obj))] is [unwrap(obj)], which is never a wrapper
    (all nested layers are stripped). *)
Theorem unwrap_wrap_roundtrip {A : Type} (v obj : ValWrapper.value A) :
  ValWrapper.is_wrapper v = false ->
  ValWrapper.unwrap (ValWrapper.val_wrapper v) = v
  /\ ValWrapper.unwrap (ValWrapper.val_wrapper (ValWrapper.val_wrapper v)) = v
  /\ ValWrapper.unwrap v = v
  /\ ValWrapper.unwrap (ValWrapper.val_wrapper obj) = ValWrapper.unwrap obj
  /\ ValWrapper.is_wrapper (ValWrapper.unwrap obj) = false.
Proof.
  intros Hv.
  repeat split; try (simpl; apply unwrap_plain; exact Hv).
  apply unwrap_not_wrapper.
Qed.

Lemma unwrap_wrap_roundtrip_witness :
  let v : ValWrapper.value nat := ValWrapper.Plain 7%nat in
  let obj : ValWrapper.value nat := ValWrapper.val_wrapper (ValWrapper.Plain 3%nat) in
  ValWrapper.is_wrapper v = false
  /\ ValWrapper.unwrap (ValWrapper.val_wrapper v) = v
  /\ ValWrapper.unwrap (ValWrapper.val_wrapper (ValWrapper.val_wrapper v)) = v
  /\ ValWrapper.unwrap v = v
  /\ ValWrapper.unwrap (ValWrapper.val_wrapper obj) = ValWrapper.unwrap obj
  /\ ValWrapper.is_wrapper (ValWrapper.unwrap obj) = false.
Proof.
  split; [reflexivity |].
  apply (unwrap_wrap_roundtrip (ValWrapper.Plain 7%nat)
           (ValWrapper.val_wrapper (ValWrapper.Plain 3%nat))).
  reflexivity.
Defined.

(** ** [split_with_schemas] *)

Section SchemaFacts.
Import Py Schemas.

Lemma omapM_length {A B} (f : A -> outcome B) (l : list A) (l' : list B) :
  omapM f l = Ok l' -> length l' = length l.
Proof.
  revert l'; induction l as [| x l IH]; intros l'; simpl.
  - intros [= <-]; reflexivity.
  - destruct (f x); simpl; try discriminate.
    destruct (omapM f l); simpl; try discriminate.
    intros [= <-]; simpl; f_equal; apply IH; reflexivity.
Qed.

Lemma take_length {R} (l : list R) (indices : list nat) (rs : list R) :
  take l indices = Ok rs -> length rs = length indices.
Proof. apply omapM_length. Qed.

(** Indices within bounds select without raising. *)
Lemma take_in_range {R} (l : list R) (indices : list nat) :
  Forall (fun i => (i < length l)%nat) indices ->
  exists rs, take l indices = Ok rs.
Proof.
  unfold take; induction 1 as [| i indices Hi _ [rs IH]]; simpl.
  - eexists; reflexivity.
  - destruct (lookup_lt_is_Some_2 l i Hi) as [r ->]; simpl.
    rewrite IH; simpl; eexists; reflexivity.
Qed.

Lemma safe_indexing_shape {R} (X : array R) (indices : list nat) (S : array R) :
  safe_indexing X indices = Ok S -> shape0 S = length indices.
Proof.
  unfold safe_indexing; destruct (take (rows X) indices) eqn:Ht; simpl; try discriminate.
  intros [= <-]; unfold shape0; simpl; eapply take_length; eassumption.
Qed.

Lemma ix_shape {cell} (X : array (list cell)) (indices columns : list nat) S :
  ix_ X indices columns = Ok S -> shape0 S = length indices.
Proof.
  unfold ix_; destruct (take (rows X) indices) eqn:Ht; simpl; try discriminate.
  destruct (omapM _ a) eqn:Hm; simpl; try discriminate.
  intros [= <-]; unfold shape0; simpl.
  rewrite (omapM_length _ _ _ Hm); eapply take_length; eassumption.
Qed.

Lemma safe_split_shape {E} `{Estimator E} {cell label}
    (estimator : E) (X : array (list cell)) (y : option (array label))
    (indices : list nat) (train : option (list nat)) SX Sy :
  _safe_split estimator X y indices train = Ok (SX, Sy) ->
  shape0 SX = length indices
  /\ match y with
     | Some _ => exists sy, Sy = Some sy /\ shape0 sy = length indices
     | None => Sy = None
     end.
Proof.
  unfold _safe_split.
  destruct (if _pairwise estimator then _ else _) as [X_subset | | |] eqn:HX;
    simpl; try discriminate.
  assert (HS : shape0 X_subset = length indices).
  { destruct (_pairwise estimator).
    - destruct (negb _); try discriminate.
      destruct train; eapply ix_shape; eassumption.
    - eapply safe_indexing_shape; eassumption. }
  destruct y as [y' |]; simpl.
  - destruct (safe_indexing y' indices) as [s | | |] eqn:Hy; simpl; try discriminate.
    intros [= <- <-]; split; [exact HS |].
    eexists; split; [reflexivity | eapply safe_indexing_shape; eassumption].
  - intros [= <- <-]; split; [exact HS | reflexivity].
Qed.

(** For a plain (not pairwise) estimator the split succeeds whenever the
    indices are within the rows and the schemas have an [items] entry. *)
Lemma split_with_schemas_succeeds {E} `{Estimator E} {cell label}
    (estimator : E) (all_X : array (list cell)) (all_y : option (array label))
    (I : list nat) (train : option (list nat)) :
  _pairwise estimator = false ->
  Forall (fun i => (i < shape0 all_X)%nat) I ->
  (forall sch, json_schema all_X = Some sch -> is_Some (dict_lookup sch "items")) ->
  (forall y, all_y = Some y ->
     Forall (fun i => (i < shape0 y)%nat) I
     /\ forall sch, json_schema y = Some sch -> is_Some (dict_lookup sch "items")) ->
  exists r, split_with_schemas estimator all_X all_y I train = Ok r.
Proof.
  intros Hp HI HX Hy.
  unfold split_with_schemas, _safe_split, safe_indexing, getitem; rewrite Hp.
  destruct (take_in_range _ _ HI) as [rs ->]; simpl.
  destruct all_y as [y |]; simpl.
  - destruct (Hy y eq_refl) as [HIy Hsy].
    destruct (take_in_range _ _ HIy) as [rsy ->]; simpl.
    destruct (json_schema all_X) as [sch |] eqn:HsX; simpl.
    + destruct (HX sch eq_refl) as [it ->]; simpl.
      destruct (json_schema y) as [schy |] eqn:Hsy'; simpl.
      * destruct (Hsy schy eq_refl) as [ity ->]; simpl. eexists; reflexivity.
      * eexists; reflexivity.
    + destruct (json_schema y) as [schy |] eqn:Hsy'; simpl.
      * destruct (Hsy schy eq_refl) as [ity ->]; simpl. eexists; reflexivity.
      * eexists; reflexivity.
  - destruct (json_schema all_X) as [sch |] eqn:HsX; simpl.
    + destruct (HX sch eq_refl) as [it ->]; simpl. eexists; reflexivity.
    + eexists; reflexivity.
Qed.

Lemma array_schema_ok n items : derived_schema_ok (array_schema n items) n items.
Proof. repeat split. Qed.

(** What the returned subsets carry. *)
Lemma split_with_schemas_schema {E} `{Estimator E} {cell label}
    (estimator : E) (all_X : array (list cell)) (all_y : option (array label))
    (I : list nat) (train : option (list nat))
    (subset_X : array (list cell)) (subset_y : option (array label)) :
  split_with_schemas estimator all_X all_y I train = Ok (subset_X, subset_y) ->
  (forall sch, json_schema all_X = Some sch ->
     exists sch' items,
       json_schema subset_X = Some sch'
       /\ dict_lookup sch "items" = Some items
       /\ shape0 subset_X = length I
       /\ derived_schema_ok sch' (shape0 subset_X) items)
  /\ (forall y sch, all_y = Some y -> json_schema y = Some sch ->
     exists sy sch' items,
       subset_y = Some sy
       /\ json_schema sy = Some sch'
       /\ dict_lookup sch "items" = Some items
       /\ shape0 sy = length I
       /\ derived_schema_ok sch' (shape0 sy) items).
Proof.
  unfold split_with_schemas.
  destruct (_safe_split estimator all_X all_y I train) as [[SX Sy] | | |] eqn:Hs;
    simpl; try discriminate.
  destruct (safe_split_shape _ _ _ _ _ _ _ Hs) as [HSX HSy].
  intros Hres; split.
  - intros sch Hsch; rewrite Hsch in Hres.
    unfold getitem in Hres.
    destruct (dict_lookup sch "items") as [items |] eqn:Hit; simpl in Hres;
      try discriminate.
    destruct (match all_y with Some _ => _ | None => _ end); simpl in Hres;
      try discriminate.
    injection Hres as <- <-.
    exists (array_schema (shape0 SX) items), items.
    repeat split; exact HSX.
  - intros y sch -> Hsch.
    destruct HSy as [sy [-> Hsy]].
    destruct (match json_schema all_X with Some _ => _ | None => _ end);
      simpl in Hres; try discriminate.
    rewrite Hsch in Hres; unfold getitem in Hres.
    destruct (dict_lookup sch "items") as [items |] eqn:Hit; simpl in Hres;
      try discriminate.
    injection Hres as <- <-.
    exists (add_schema sy (array_schema (shape0 sy) items)),
           (array_schema (shape0 sy) items), items.
    repeat split; exact Hsy.
Qed.

(** C4.  Whenever [split_with_schemas] returns for an index subset [I],
    the subset of a schema-carrying [all_X] carries a schema whose
    [minItems] and [maxItems] are both the subset's row count, which is
    [len(I)], and whose [items] is that of [all_X]'s schema; the same for a
    schema-carrying [all_y].  It does return, for an estimator that is not
    pairwise, when the indices are within the rows and the schemas have an
    [items] entry. *)
Theorem split_with_schemas_row_count {E} `{Estimator E} {cell label}
    (estimator : E) (all_X : array (list cell)) (all_y : option (array label))
    (I : list nat) (train : option (list nat)) :
  (forall (subset_X : array (list cell)) (subset_y : option (array label)),
      split_with_schemas estimator all_X all_y I train = Ok (subset_X, subset_y) ->
      (forall sch, json_schema all_X = Some sch ->
         exists sch' items,
           json_schema subset_X = Some sch'
           /\ dict_lookup sch "items" = Some items
           /\ shape0 subset_X = length I
           /\ derived_schema_ok sch' (shape0 subset_X) items)
      /\ (forall y sch, all_y = Some y -> json_schema y = Some sch ->
         exists sy sch' items,
           subset_y = Some sy
           /\ json_schema sy = Some sch'
           /\ dict_lookup sch "items" = Some items
           /\ shape0 sy = length I
           /\ derived_schema_ok sch' (shape0 sy) items))
  /\ (_pairwise estimator = false ->
      Forall (fun i => (i < shape0 all_X)%nat) I ->
      (forall sch, json_schema all_X = Some sch ->
         is_Some (dict_lookup sch "items")) ->
      (forall y, all_y = Some y ->
         Forall (fun i => (i < shape0 y)%nat) I
         /\ forall sch, json_schema y = Some sch ->
              is_Some (dict_lookup sch "items")) ->
      exists r, split_with_schemas estimator all_X all_y I train = Ok r).
Proof.
  split.
  - intros subset_X subset_y. apply split_with_schemas_schema.
  - apply split_with_schemas_succeeds.
Qed.

End SchemaFacts.

(** ** [cross_val_score_track_trials] *)

Section NumpyFacts.
Import Numpy.

Lemma of_count_S (n : nat) : of_count (S n) = Qcplus (of_count n) (Q2Qc 1).
Proof.
  unfold of_count. apply Qc_is_canon. simpl.
  rewrite !Qred_correct. unfold Qeq; simpl. lia.
Qed.

Lemma of_count_nonzero (n : nat) : of_count (S n) <> Q2Qc 0.
Proof.
  unfold of_count. intros Heq.
  apply (f_equal this) in Heq. simpl in Heq.
  assert (Hq : Qeq (inject_Z (Z.of_nat (S n))) 0).
  { rewrite <- (Qred_correct (inject_Z _)), Heq. reflexivity. }
  unfold Qeq in Hq; simpl in Hq. lia.
Qed.

Lemma fold_add_ones (n : nat) (a : Qc) :
  fold_left add (repeat (Fin (Q2Qc 1)) n) (Fin a) = Fin (Qcplus a (of_count n)).
Proof.
  revert a; induction n as [| n IH]; intros a; simpl.
  - f_equal. change (of_count 0) with (Q2Qc 0). ring.
  - rewrite IH, of_count_S. f_equal. ring.
Qed.

(** The mean of a non-empty array of ones is one. *)
Lemma mean_ones (n : nat) : mean (repeat (Fin (Q2Qc 1)) (S n)) = Fin (Q2Qc 1).
Proof.
  unfold mean, sum.
  change (repeat (Fin (Q2Qc 1)) (S n)) with (Fin (Q2Qc 1) :: repeat (Fin (Q2Qc 1)) n) at 1.
  cbv iota.
  rewrite fold_add_ones, repeat_length. f_equal.
  replace (Qcplus (Q2Qc 0) (of_count (S n))) with (of_count (S n)) by ring.
  field. apply of_count_nonzero.
Qed.

(** The mean of a 0-d array is its element. *)
Lemma mean_scalar_fin (t : Qc) : mean_scalar (Fin t) = Fin t.
Proof.
  unfold mean_scalar, mean, sum; simpl. f_equal.
  change (of_count 1) with (Q2Qc 1). field. discriminate.
Qed.

End NumpyFacts.

Section CrossValFacts.
Import Py Numpy Schemas CrossVal.
Context {World E Trained Proba cell label : Type} `{Estimator E}.
Variable fit : E -> array (list cell) -> option (array label) -> M World Trained.
Variable scorer :
  Trained -> array (list cell) -> option (array label) -> M World npfloat.
Variable predict_proba : Trained -> array (list cell) -> M World Proba.
Variable log_loss : option (array label) -> Proba -> M World npfloat.
Variable time_time : World -> Qc * World.

Local Abbreviation loop_body := (loop_body fit scorer predict_proba log_loss time_time).
Local Abbreviation loop := (loop fit scorer predict_proba log_loss time_time).
Local Abbreviation run_fold := (run_fold fit scorer predict_proba log_loss time_time).
Local Abbreviation run_folds := (run_folds fit scorer predict_proba log_loss time_time).
Local Abbreviation cross_val_score_track_trials :=
  (cross_val_score_track_trials fit scorer predict_proba log_loss time_time).

(** An iteration appends to the three lists what it would put into empty
    ones, and rebinds [execution_time]. *)
Lemma loop_body_extend estimator X y (l : locals) fold (w : World) :
  loop_body estimator X y l fold w =
  match loop_body estimator X y init fold w with
  | (Ok l1, w1) => (Ok (extend l l1), w1)
  | (Raise e, w1) => (Raise e, w1)
  | (OutOfFuel, w1) => (OutOfFuel, w1)
  | (Stuck, w1) => (Stuck, w1)
  end.
Proof.
  destruct fold as [train test].
  unfold CrossVal.loop_body, extend, bind, lift, ret, try_except, tick.
  destruct (split_with_schemas estimator X y train None) as [[X_train y_train] | | |];
    try reflexivity.
  destruct (split_with_schemas estimator X y test (Some train))
    as [[X_test y_test] | | |]; try reflexivity.
  destruct (time_time w) as [start w1].
  destruct (fit estimator X_train y_train w1) as [[trained | | |] w2];
    try reflexivity.
  destruct (scorer trained X_test y_test w2) as [[score | | |] w3];
    try reflexivity.
  destruct (time_time w3) as [stop w4].
  destruct (predict_proba trained X_test w4) as [[proba | e | |] w5];
    simpl; rewrite ?app_nil_r; try reflexivity.
  destruct (log_loss y_test proba w5) as [[ll | e | |] w6];
    simpl; rewrite ?app_nil_r; reflexivity.
Qed.

(** After its first iteration the loop has one score, one duration, at
    most one log-loss, and [execution_time] bound to that duration. *)
Lemma loop_body_init_shape estimator X y fold (w w1 : World) (l1 : locals) :
  loop_body estimator X y init fold w = (Ok l1, w1) ->
  exists s ll t, l1 = mk_locals [s] (option_list ll) [t] (Some t).
Proof.
  destruct fold as [train test].
  unfold CrossVal.loop_body, bind, lift, ret, try_except, tick.
  destruct (split_with_schemas estimator X y train None) as [[X_train y_train] | | |];
    try discriminate.
  destruct (split_with_schemas estimator X y test (Some train))
    as [[X_test y_test] | | |]; try discriminate.
  destruct (time_time w) as [start w1'].
  destruct (fit estimator X_train y_train w1') as [[trained | | |] w2];
    try discriminate.
  destruct (scorer trained X_test y_test w2) as [[score | | |] w3];
    try discriminate.
  destruct (time_time w3) as [stop w4].
  destruct (predict_proba trained X_test w4) as [[proba | e | |] w5];
    simpl; try discriminate.
  - destruct (log_loss y_test proba w5) as [[ll | e | |] w6];
      simpl; try discriminate; intros [= <- <-].
    + exists score, (Some ll), (Qcminus stop start); reflexivity.
    + exists score, None, (Qcminus stop start); reflexivity.
  - intros [= <- <-]. exists score, None, (Qcminus stop start); reflexivity.
Qed.

Lemma loop_body_run_fold estimator X y (l : locals) fold (w w1 : World) r :
  run_fold estimator X y fold w = (Ok r, w1) ->
  loop_body estimator X y l fold w = (Ok (record_fold l r), w1).
Proof.
  intros Hr. rewrite loop_body_extend.
  unfold CrossVal.run_fold, bind in Hr.
  destruct (loop_body estimator X y init fold w) as [[l1 | | |] w2] eqn:Hb;
    try discriminate.
  destruct (loop_body_init_shape _ _ _ _ _ _ _ Hb) as (s & ll & t & ->).
  simpl in Hr. destruct ll; injection Hr as <- <-; reflexivity.
Qed.

(** The loop, given what the folds yield. *)
Lemma loop_run_folds estimator X y folds (l : locals) (w w1 : World) rs :
  run_folds estimator X y folds w = (Ok rs, w1) ->
  loop estimator X y l folds w = (Ok (fold_left record_fold rs l), w1).
Proof.
  revert l w rs; induction folds as [| fold folds IH]; intros l w rs; simpl.
  - intros [= <- <-]; reflexivity.
  - unfold bind at 1 3.
    destruct (run_fold estimator X y fold w) as [[r | | |] w2] eqn:Hr;
      try discriminate.
    rewrite (loop_body_run_fold _ _ _ l _ _ _ _ Hr).
    unfold bind.
    destruct (run_folds estimator X y folds w2) as [[rs' | | |] w3] eqn:Hrs;
      try discriminate.
    intros [= <- <-]. simpl. apply IH. exact Hrs.
Qed.

Lemma record_folds_locals (rs : list fold_result) (l : locals) :
  fold_left record_fold rs l =
  mk_locals (cv_results l ++ map fold_score rs)
            (log_loss_results l ++ omap fold_log_loss rs)
            (time_results l ++ map fold_time rs)
            (match last rs with
             | Some r => Some (fold_time r)
             | None => execution_time l
             end).
Proof.
  revert l; induction rs as [| r rs IH]; intros l; simpl.
  - destruct l; simpl; rewrite !app_nil_r; reflexivity.
  - rewrite IH; unfold record_fold, extend; simpl.
    rewrite <- !app_assoc; simpl.
    f_equal.
    + destruct (fold_log_loss r); reflexivity.
    + destruct rs as [| r' rs]; [reflexivity |].
      simpl. destruct (last (r' :: rs)) eqn:Hl; [reflexivity |].
      apply last_None in Hl; discriminate.
Qed.

Lemma run_folds_length estimator X y folds (w w1 : World) rs :
  run_folds estimator X y folds w = (Ok rs, w1) -> length rs = length folds.
Proof.
  revert w rs; induction folds as [| fold folds IH]; intros w rs; simpl.
  - intros [= <- <-]; reflexivity.
  - unfold bind at 1.
    destruct (run_fold estimator X y fold w) as [[r | | |] w2]; try discriminate.
    unfold bind.
    destruct (run_folds estimator X y folds w2) as [[rs' | | |] w3] eqn:Hrs;
      try discriminate.
    intros [= <- <-]; simpl; f_equal; eapply IH; eassumption.
Qed.

(** The triple the evaluator returns, given what the folds yield. *)
Lemma cross_val_result estimator X y folds (w w1 : World) rs r_last :
  run_folds estimator X y folds w = (Ok rs, w1) ->
  last rs = Some r_last ->
  cross_val_score_track_trials estimator X y folds w =
  (Ok (mean (map fold_score rs),
       mean (omap fold_log_loss rs),
       Fin (fold_time r_last)), w1).
Proof.
  intros Hrs Hlast.
  unfold CrossVal.cross_val_score_track_trials, bind.
  rewrite (loop_run_folds _ _ _ _ init _ _ _ Hrs), record_folds_locals.
  simpl. rewrite Hlast, mean_scalar_fin. reflexivity.
Qed.

(** Without folds [execution_time] is never bound. *)
Lemma cross_val_no_folds estimator X y (w : World) :
  cross_val_score_track_trials estimator X y [] w = (Raise UnboundLocalError, w).
Proof. reflexivity. Qed.

(** *** Estimators without probability output *)

Lemma scores_constant (s : npfloat) (ts : list Qc) :
  map fold_score (map (mk_fold_result s None) ts) = repeat s (length ts).
Proof. induction ts as [| t ts IH]; simpl; [reflexivity | f_equal; exact IH]. Qed.

Lemma log_losses_skipped (s : npfloat) (ts : list Qc) :
  omap fold_log_loss (map (mk_fold_result s None) ts) = [].
Proof. induction ts as [| t ts IH]; simpl; [reflexivity | exact IH]. Qed.

Section NoProba.
Variables (estimator : E) (X : array (list cell)) (y : option (array label)).
Variable folds : list (list nat * list nat).
Hypothesis split_ok : forall train test, In (train, test) folds ->
  (exists r, split_with_schemas estimator X y train None = Ok r)
  /\ (exists r, split_with_schemas estimator X y test (Some train) = Ok r).
Hypothesis fit_ok : forall X' y' w, exists t w', fit estimator X' y' w = (Ok t, w').
Hypothesis score_one : forall t X' y' w,
  exists w', scorer t X' y' w = (Ok (Fin (Q2Qc 1)), w').
Hypothesis no_proba : forall t X' w,
  exists e w', predict_proba t X' w = (Raise e, w').

Lemma run_fold_no_proba train test (w : World) :
  In (train, test) folds ->
  exists t w1,
    run_fold estimator X y (train, test) w =
    (Ok (mk_fold_result (Fin (Q2Qc 1)) None t), w1).
Proof using split_ok fit_ok score_one no_proba.
  intros Hin. destruct (split_ok _ _ Hin) as [[[X_train y_train] H1] [[X_test y_test] H2]].
  unfold CrossVal.run_fold, CrossVal.loop_body, bind, lift, ret, try_except, tick.
  rewrite H1, H2.
  destruct (time_time w) as [start w1].
  destruct (fit_ok X_train y_train w1) as (trained & w2 & ->).
  destruct (score_one trained X_test y_test w2) as (w3 & ->).
  destruct (time_time w3) as [stop w4].
  destruct (no_proba trained X_test w4) as (e & w5 & ->).
  simpl. eexists _, _; reflexivity.
Qed.

Lemma run_folds_no_proba (fs : list (list nat * list nat)) (w : World) :
  (forall f, In f fs -> In f folds) ->
  exists ts w1,
    run_folds estimator X y fs w =
    (Ok (map (mk_fold_result (Fin (Q2Qc 1)) None) ts), w1)
    /\ length ts = length fs.
Proof using split_ok fit_ok score_one no_proba.
  revert w; induction fs as [| [train test] fs IH]; intros w Hsub; simpl.
  - exists [], w; split; reflexivity.
  - destruct (run_fold_no_proba train test w) as (t & w1 & Hf).
    { apply Hsub; left; reflexivity. }
    destruct (IH w1) as (ts & w2 & Hfs & Hlen).
    { intros f Hf'; apply Hsub; right; exact Hf'. }
    exists (t :: ts), w2; split; [| simpl; f_equal; exact Hlen].
    unfold bind at 1. rewrite Hf. unfold bind. rewrite Hfs. reflexivity.
Qed.

Lemma cross_val_no_proba (w : World) :
  folds <> [] ->
  exists t w1,
    cross_val_score_track_trials estimator X y folds w =
    (Ok (Fin (Q2Qc 1), NaN, Fin t), w1).
Proof using split_ok fit_ok score_one no_proba.
  intros Hne.
  destruct (run_folds_no_proba folds w) as (ts & w1 & Hrs & Hlen); [auto |].
  destruct ts as [| t0 ts]; [destruct folds; [congruence | discriminate] |].
  set (rs := map (mk_fold_result (Fin (Q2Qc 1)) None) (t0 :: ts)) in *.
  destruct (last rs) as [r_last |] eqn:Hlast;
    [| apply last_None in Hlast; discriminate].
  exists (fold_time r_last), w1.
  rewrite (cross_val_result _ _ _ _ _ _ _ _ Hrs Hlast). repeat f_equal.
  - subst rs. rewrite scores_constant. apply mean_ones.
  - subst rs. rewrite log_losses_skipped. reflexivity.
Qed.

End NoProba.

End CrossValFacts.

Section CrossValClosed.
Import Py Numpy Schemas CrossVal.

Lemma example_run_folds :
  run_folds CrossValExample.fit CrossValExample.scorer
    CrossValExample.predict_proba CrossValExample.log_loss
    CrossValExample.time_time tt CrossValExample.X CrossValExample.y
    CrossValExample.folds 0%nat
  = (Ok CrossValExample.results, 4%nat).
Proof. reflexivity. Qed.

Lemma example_evaluate :
  CrossValExample.evaluate CrossValExample.folds 0%nat =
  (Ok (Fin (Q2Qc 1), NaN, Fin (Qcminus (Q2Qc (inject_Z 9)) (Q2Qc (inject_Z 4)))),
   4%nat).
Proof.
  unfold CrossValExample.evaluate.
  rewrite (cross_val_result _ _ _ _ _ _ _ _ _ _ _ _
             (mk_fold_result (Fin (Q2Qc 1)) None
                (Qcminus (Q2Qc (inject_Z 9)) (Q2Qc (inject_Z 4))))
             example_run_folds eq_refl).
  change (mean (map fold_score CrossValExample.results))
    with (mean (repeat (Fin (Q2Qc 1)) 2)).
  rewrite (mean_ones 1). reflexivity.
Qed.

(** In the example the last fold takes 5 seconds, the folds 3 on average. *)
Lemma example_time_is_not_mean :
  Fin (Qcminus (Q2Qc (inject_Z 9)) (Q2Qc (inject_Z 4)))
  <> mean_time CrossValExample.results.
Proof.
  intros Heq.
  apply (f_equal (fun x => match x with Fin q => Qnum (this q) | NaN => 0 end)) in Heq.
  vm_compute in Heq. discriminate.
Qed.






(** C4 on rows 2 and 0 of the four-row example. *)
Lemma split_with_schemas_row_count_witness :
  exists subset_X subset_y,
    split_with_schemas tt CrossValExample.X CrossValExample.y [2; 0]%nat None
    = Ok (subset_X, subset_y)
    /\ (forall sch, json_schema CrossValExample.X = Some sch ->
         exists sch' items,
           json_schema subset_X = Some sch'
           /\ dict_lookup sch "items" = Some items
           /\ shape0 subset_X = length [2; 0]%nat
           /\ derived_schema_ok sch' (shape0 subset_X) items)
    /\ (forall y sch, CrossValExample.y = Some y -> json_schema y = Some sch ->
         exists sy sch' items,
           subset_y = Some sy
           /\ json_schema sy = Some sch'
           /\ dict_lookup sch "items" = Some items
           /\ shape0 sy = length [2; 0]%nat
           /\ derived_schema_ok sch' (shape0 sy) items).
Proof.
  eexists _, _. split; [reflexivity |].
  apply (proj1 (split_with_schemas_row_count tt CrossValExample.X
                  CrossValExample.y [2; 0]%nat None)).
  reflexivity.
Defined.

End CrossValClosed.

(** ** The hyperparameter-space instantiator *)

Section MonadFacts.
Import Py.
Context {S A B : Type}.

Lemma bind_Ok (c : M S A) (k : A -> M S B) (s s' : S) (a : A) :
  c s = (Ok a, s') -> bind c k s = k a s'.
Proof. unfold bind; intros ->; reflexivity. Qed.

(** A bind that returns has run both its parts. *)
Lemma bind_Ok_inv (c : M S A) (k : A -> M S B) (s s' : S) (b : B) :
  bind c k s = (Ok b, s') ->
  exists a s1, c s = (Ok a, s1) /\ k a s1 = (Ok b, s').
Proof.
  unfold bind. destruct (c s) as [[a | | |] s1]; try discriminate.
  intros Hk; exists a, s1; split; [reflexivity | exact Hk].
Qed.

End MonadFacts.

Section RefinementFacts.
Import Py.
Context {S : Type}.

Lemma refines_refl {A} (c : M S A) : refines c c.
Proof. intros s r s' Hc _; exact Hc. Qed.

Lemma refines_out_of_fuel {A} (c : M S A) : refines out_of_fuel c.
Proof. intros s r s' [= <- <-] Hne; contradiction. Qed.

Lemma refines_trans {A} (c1 c2 c3 : M S A) :
  refines c1 c2 -> refines c2 c3 -> refines c1 c3.
Proof.
  intros H12 H23 s r s' Hc Hne. apply H23; [| exact Hne].
  apply H12; assumption.
Qed.

Lemma refines_bind {A B} (c c' : M S A) (k k' : A -> M S B) :
  refines c c' -> (forall a, refines (k a) (k' a)) ->
  refines (bind c k) (bind c' k').
Proof.
  intros Hc Hk s r s'. unfold bind.
  destruct (c s) as [[a | e | |] s1] eqn:Hcs.
  - rewrite (Hc _ _ _ Hcs) by discriminate. apply Hk.
  - rewrite (Hc _ _ _ Hcs) by discriminate. intros Heq _; exact Heq.
  - intros [= <- <-] Hne; contradiction.
  - rewrite (Hc _ _ _ Hcs) by discriminate. intros Heq _; exact Heq.
Qed.

End RefinementFacts.

Section HyperoptBasics.
Import Py Hyperopt.

Lemma key_eqb_eq (a b : key) : key_eqb a b = true <-> a = b.
Proof.
  destruct a as [s | n], b as [t | m]; simpl;
    rewrite ?String.eqb_eq, ?Z.eqb_eq; split; congruence.
Qed.

Lemma key_eqb_refl (a : key) : key_eqb a a = true.
Proof. apply key_eqb_eq; reflexivity. Qed.

Lemma key_eqb_neq (a b : key) : key_eqb a b = false <-> a <> b.
Proof.
  rewrite <- key_eqb_eq. destruct (key_eqb a b); split; congruence.
Qed.

(** In range, a non-negative index selects the element at that position. *)
Lemma seq_getitem_lookup {A} (l : list A) (i : nat) (x : A) :
  l !! i = Some x -> seq_getitem l (Z.of_nat i) = Ok x.
Proof.
  intros Hx. pose proof (lookup_lt_Some _ _ _ Hx) as Hlt.
  unfold seq_getitem.
  destruct (Z.ltb_spec (Z.of_nat i) 0); [lia |].
  destruct (Z.ltb_spec (Z.of_nat i) 0); [lia |].
  destruct (Z.leb_spec (Z.of_nat (length l)) (Z.of_nat i)); [lia |].
  simpl. rewrite Nat2Z.id, Hx. reflexivity.
Qed.

Lemma seq_getitem_middle {A} (pre post : list A) (x : A) :
  seq_getitem (pre ++ x :: post) (Z.of_nat (length pre)) = Ok x.
Proof. apply seq_getitem_lookup, list_lookup_middle; reflexivity. Qed.

(** *** The equations of the two functions, one per case *)

Lemma create_instance_individual (fuel i : nat) (cn : string)
    (hp : option dict) (hyperparams : pyval) :
  create_instance_from_hyperopt_search_space (S fuel)
    (VOp (IndividualOp i cn hp)) hyperparams
  = let* new_hyperparams := dict_without hyperparams "name" in
    let* new_hyperparams :=
      update_loop (instantiate_from_hyperopt_search_space fuel)
        (declared_hyperparams (IndividualOp i cn hp))
        new_hyperparams new_hyperparams in
    call_individual_op cn
      (dict_merge (declared_hyperparams (IndividualOp i cn hp)) new_hyperparams).
Proof. destruct hp; reflexivity. Qed.

Lemma create_instance_pipeline (fuel i : nat) (cn : string)
    (steps : list operator) (edges : list (operator * operator))
    (hyperparams : pyval) :
  create_instance_from_hyperopt_search_space (S fuel)
    (VOp (BasePipeline i cn steps edges)) hyperparams
  = let* n := py_len hyperparams in
    if negb (Nat.eqb n (length steps)) then raise step_count_mismatch
    else
      let* items := py_iter hyperparams in
      let* (op_instances, op_map) :=
        pipeline_loop (create_instance_from_hyperopt_search_space fuel)
          steps 0 items [] ∅ in
      let* trainable_edges := lift (remap_edges op_map edges) in
      TrainablePipeline op_instances trainable_edges.
Proof. reflexivity. Qed.

Lemma create_instance_choice (fuel i : nat) (cn : string)
    (choices : list operator) (hyperparams : pyval) :
  create_instance_from_hyperopt_search_space (S fuel)
    (VOp (OperatorChoice i cn choices)) hyperparams
  = let* (step_index, hyperparams) :=
      if Nat.eqb (length choices) 1 then ret (VInt 0, hyperparams)
      else
        match hyperparams with
        | VDict r =>
            let* d := read_dict r in
            let* first := lift (seq_getitem d 0) in
            ret (key_to_val (fst first), snd first)
        | _ => raise AttributeError
        end in
    let* step_object :=
      match step_index with
      | VInt i => lift (seq_getitem choices i)
      | _ => raise TypeError
      end in
    create_instance_from_hyperopt_search_space fuel (VOp step_object) hyperparams.
Proof. reflexivity. Qed.

Lemma instantiate_plain (fuel : nat) (obj_hyperparams new_hyperparams : pyval) :
  is_plain new_hyperparams = true ->
  instantiate_from_hyperopt_search_space (S fuel) obj_hyperparams new_hyperparams
  = ret VNone.
Proof. destruct new_hyperparams; simpl; try discriminate; reflexivity. Qed.

Lemma instantiate_dict (fuel r_obj r_new : nat) :
  instantiate_from_hyperopt_search_space (S fuel) (VDict r_obj) (VDict r_new)
  = let* d := read_dict r_new in
    let* _ := dict_loop (instantiate_from_hyperopt_search_space fuel)
                r_obj r_new (map fst d) in
    ret VNone.
Proof. reflexivity. Qed.

End HyperoptBasics.

(** *** More fuel changes no result *)

Section FuelFacts.
Import Py Hyperopt.

Section LoopsMonotone.
Variables rec rec' : pyval -> pyval -> M store pyval.
Hypothesis rec_refines : forall x y, refines (rec x y) (rec' x y).

Lemma seq_loop_refines objs news range res :
  refines (seq_loop rec objs news range res) (seq_loop rec' objs news range res).
Proof using rec_refines.
  revert res; induction range as [| i range IH]; intros res; cbn [seq_loop].
  - apply refines_refl.
  - apply refines_bind; [apply refines_refl | intros nhi].
    apply refines_bind; [apply refines_refl | intros ohi].
    apply refines_bind; [apply rec_refines | intros u]. apply IH.
Qed.

Lemma dict_loop_refines r_obj r_new ks :
  refines (dict_loop rec r_obj r_new ks) (dict_loop rec' r_obj r_new ks).
Proof using rec_refines.
  induction ks as [| k ks IH]; cbn [dict_loop].
  - apply refines_refl.
  - apply refines_bind; [apply refines_refl | intros d].
    apply refines_bind; [apply refines_refl | intros sub_params].
    apply refines_bind; [apply refines_refl | intros d_obj].
    apply refines_bind; [| intros _; exact IH].
    destruct (dict_get d_obj k); [| apply refines_refl].
    apply refines_bind; [apply rec_refines | intros u; apply refines_refl].
Qed.

Lemma update_loop_refines obj items new :
  refines (update_loop rec obj items new) (update_loop rec' obj items new).
Proof using rec_refines.
  revert new; induction items as [| [k s] items IH]; intros new; cbn [update_loop].
  - apply refines_refl.
  - destruct (dict_get obj k); [| apply IH].
    apply refines_bind; [apply rec_refines | intros u; apply IH].
Qed.

Lemma pipeline_loop_refines steps op_index hs acc m :
  refines (pipeline_loop rec steps op_index hs acc m)
          (pipeline_loop rec' steps op_index hs acc m).
Proof using rec_refines.
  revert op_index acc m; induction hs as [| h hs IH]; intros op_index acc m;
    cbn [pipeline_loop].
  - apply refines_refl.
  - apply refines_bind; [apply refines_refl | intros sub_op].
    apply refines_bind; [apply rec_refines | intros op_instance].
    apply refines_bind; [apply refines_refl | intros _]. apply IH.
Qed.

End LoopsMonotone.

Lemma instantiate_body_refines
    (inst inst' create create' : pyval -> pyval -> M store pyval) :
  (forall x y, refines (inst x y) (inst' x y)) ->
  (forall x y, refines (create x y) (create' x y)) ->
  forall obj new,
    refines (instantiate_body inst create obj new)
            (instantiate_body inst' create' obj new).
Proof.
  intros Hi Hc obj new. destruct new; cbn [instantiate_body];
    try apply refines_refl.
  - apply refines_bind; [apply refines_refl | intros objs].
    apply refines_bind; [apply refines_refl | intros _].
    apply refines_bind; [apply seq_loop_refines; exact Hi | intros res].
    apply refines_refl.
  - apply refines_bind; [apply refines_refl | intros objs].
    apply refines_bind; [apply refines_refl | intros _].
    apply refines_bind; [apply seq_loop_refines; exact Hi | intros res].
    apply refines_refl.
  - destruct obj; try apply refines_refl.
    apply refines_bind; [apply refines_refl | intros d].
    apply refines_bind; [apply dict_loop_refines; exact Hi | intros _].
    apply refines_refl.
  - apply refines_bind; [apply refines_refl | intros [sub_op sub_params]].
    apply Hc.
Qed.

Lemma create_instance_body_refines
    (inst inst' create create' : pyval -> pyval -> M store pyval) :
  (forall x y, refines (inst x y) (inst' x y)) ->
  (forall x y, refines (create x y) (create' x y)) ->
  forall lale_object hyperparams,
    refines (create_instance_body inst create lale_object hyperparams)
            (create_instance_body inst' create' lale_object hyperparams).
Proof.
  intros Hi Hc lale_object hyperparams.
  destruct lale_object as [| | | | | | | o]; try apply refines_refl.
  destruct o as [i cn hp | i cn steps edges | i cn choices];
    cbn [create_instance_body].
  - apply refines_bind; [apply refines_refl | intros new].
    apply refines_bind; [apply update_loop_refines; exact Hi | intros new'].
    apply refines_refl.
  - apply refines_bind; [apply refines_refl | intros n].
    destruct (negb _); [apply refines_refl |].
    apply refines_bind; [apply refines_refl | intros items].
    apply refines_bind; [apply pipeline_loop_refines; exact Hc | intros [insts m]].
    apply refines_refl.
  - apply refines_bind; [apply refines_refl | intros [step_index hp']].
    apply refines_bind; [apply refines_refl | intros step_object].
    apply Hc.
Qed.

Lemma fuel_step (fuel : nat) :
  (forall x y, refines (instantiate_from_hyperopt_search_space fuel x y)
                       (instantiate_from_hyperopt_search_space (S fuel) x y))
  /\ (forall x y, refines (create_instance_from_hyperopt_search_space fuel x y)
                          (create_instance_from_hyperopt_search_space (S fuel) x y)).
Proof.
  induction fuel as [| fuel [IHi IHc]].
  - split; intros x y; apply refines_out_of_fuel.
  - split; intros x y.
    + change (refines
        (instantiate_body (instantiate_from_hyperopt_search_space fuel)
           (create_instance_from_hyperopt_search_space fuel) x y)
        (instantiate_body (instantiate_from_hyperopt_search_space (S fuel))
           (create_instance_from_hyperopt_search_space (S fuel)) x y)).
      apply instantiate_body_refines; assumption.
    + change (refines
        (create_instance_body (instantiate_from_hyperopt_search_space fuel)
           (create_instance_from_hyperopt_search_space fuel) x y)
        (create_instance_body (instantiate_from_hyperopt_search_space (S fuel))
           (create_instance_from_hyperopt_search_space (S fuel)) x y)).
      apply create_instance_body_refines; assumption.
Qed.

(** An outcome reached within some fuel is the outcome with any larger
    fuel: results do not depend on the recursion bound. *)
Lemma fuel_monotone (n m : nat) :
  (n <= m)%nat ->
  (forall x y, refines (instantiate_from_hyperopt_search_space n x y)
                       (instantiate_from_hyperopt_search_space m x y))
  /\ (forall x y, refines (create_instance_from_hyperopt_search_space n x y)
                          (create_instance_from_hyperopt_search_space m x y)).
Proof.
  induction 1 as [| m _ [IHi IHc]].
  - split; intros x y; apply refines_refl.
  - destruct (fuel_step m) as [Hi Hc].
    split; intros x y; eapply refines_trans; eauto.
Qed.

End FuelFacts.

Section PipelineArity.
Import Py Hyperopt.

(** C8.  A sample sequence (list or tuple) whose length differs from the
    number of steps makes the pipeline case raise the step-count
    ValueError at once: nothing is instantiated, no pipeline is returned
    and the store is untouched. *)
Theorem step_count_mismatch_raises (fuel i : nat) (cn : string)
    (steps : list operator) (edges : list (operator * operator))
    (hs : list pyval) (st : store) :
  length hs <> length steps ->
  create_instance_from_hyperopt_search_space (S fuel)
    (VOp (BasePipeline i cn steps edges)) (VList hs) st
  = (Raise step_count_mismatch, st)
  /\ create_instance_from_hyperopt_search_space (S fuel)
       (VOp (BasePipeline i cn steps edges)) (VTuple hs) st
     = (Raise step_count_mismatch, st).
Proof.
  intros Hlen. rewrite !create_instance_pipeline.
  unfold bind, py_len, ret.
  destruct (Nat.eqb_spec (length hs) (length steps)) as [Heq | _];
    [contradiction |].
  split; reflexivity.
Qed.

(** C2 (amended).  A choice with exactly one alternative hands its sample,
    whatever it is, to that alternative unchanged: a singleton mapping
    [{0: sample}] is not unwrapped, and what the alternative returns or
    raises for the sample is what the choice returns or raises.  A choice
    with another number of alternatives takes the first item
    [(i, sample)] of the mapping and hands [sample] to alternative [i]. *)
Theorem choice_single_alternative :
  (forall (fuel i : nat) (cn : string) (alt : operator) (sample : pyval),
      create_instance_from_hyperopt_search_space (S fuel)
        (VOp (OperatorChoice i cn [alt])) sample
      = create_instance_from_hyperopt_search_space fuel (VOp alt) sample)
  /\ (forall (n m i : nat) (cn : string) (alt : operator) (sample : pyval)
            (st st' : store) (r : outcome pyval),
        (n < m)%nat -> r <> OutOfFuel ->
        create_instance_from_hyperopt_search_space n (VOp alt) sample st
        = (r, st') ->
        create_instance_from_hyperopt_search_space m
          (VOp (OperatorChoice i cn [alt])) sample st = (r, st'))
  /\ (forall (fuel i : nat) (cn : string) (choices : list operator) (r : nat)
            (st : store) (index : nat) (sample : pyval) (rest : dict)
            (alt : operator),
        length choices <> 1%nat ->
        dicts st !! r = Some ((KInt (Z.of_nat index), sample) :: rest) ->
        choices !! index = Some alt ->
        create_instance_from_hyperopt_search_space (S fuel)
          (VOp (OperatorChoice i cn choices)) (VDict r) st
        = create_instance_from_hyperopt_search_space fuel (VOp alt) sample st).
Proof.
  split; [| split].
  - intros fuel i cn alt sample. reflexivity.
  - intros n m i cn alt sample st st' r Hlt Hne Hrun.
    destruct m as [| m]; [lia |].
    change (create_instance_from_hyperopt_search_space m (VOp alt) sample st
            = (r, st')).
    apply (proj2 (fuel_monotone n m ltac:(lia)) (VOp alt) sample);
      assumption.
  - intros fuel i cn choices r st index sample rest alt Hlen Hr Halt.
    rewrite create_instance_choice.
    destruct (Nat.eqb_spec (length choices) 1) as [Heq | _]; [contradiction |].
    unfold bind, read_dict, lift, ret. rewrite Hr.
    change (seq_getitem ((KInt (Z.of_nat index), sample) :: rest) 0)
      with (Ok (A := key * pyval) (KInt (Z.of_nat index), sample)).
    cbn [key_to_val fst snd].
    rewrite (seq_getitem_lookup _ _ _ Halt). reflexivity.
Qed.


Lemma step_count_mismatch_raises_witness :
  length [VDict 1] <> length [HyperoptExample.scaler; HyperoptExample.op_ab]
  /\ create_instance_from_hyperopt_search_space 1
       (VOp HyperoptExample.pipeline) (VList [VDict 1]) HyperoptExample.st0
     = (Raise step_count_mismatch, HyperoptExample.st0)
  /\ create_instance_from_hyperopt_search_space 1
       (VOp HyperoptExample.pipeline) (VTuple [VDict 1]) HyperoptExample.st0
     = (Raise step_count_mismatch, HyperoptExample.st0).
Proof.
  split; [simpl; lia |].
  apply (step_count_mismatch_raises 0%nat 3%nat TrainablePipeline_class_name
           [HyperoptExample.scaler; HyperoptExample.op_ab]
           [(HyperoptExample.scaler, HyperoptExample.op_ab)]
           [VDict 1] HyperoptExample.st0).
  simpl; lia.
Defined.

(** The choice has one alternative, a two-step pipeline.  The bare sample
    instantiates it; the mapping [{0: sample}] is handed to the pipeline as
    it is, has length 1, and the step count check raises. *)
Lemma choice_shortcut_counterexample :
  dicts HyperoptExample.st0 !! 2%nat
    = Some [(KInt 0, HyperoptExample.pipeline_sample)]
  /\ (exists inst st',
        create_instance_from_hyperopt_search_space 4
          (VOp HyperoptExample.single_choice) HyperoptExample.pipeline_sample
          HyperoptExample.st0
        = (Ok (VOp inst), st'))
  /\ create_instance_from_hyperopt_search_space 4
       (VOp HyperoptExample.single_choice) (VDict 2) HyperoptExample.st0
     = (Raise step_count_mismatch, HyperoptExample.st0).
Proof.
  split; [reflexivity |]. split; [| reflexivity].
  eexists _, _. vm_compute. reflexivity.
Qed.

Lemma choice_single_alternative_witness :
  create_instance_from_hyperopt_search_space 4
    (VOp HyperoptExample.single_choice) HyperoptExample.pipeline_sample
  = create_instance_from_hyperopt_search_space 3
      (VOp HyperoptExample.pipeline) HyperoptExample.pipeline_sample
  /\ (length [HyperoptExample.scaler; HyperoptExample.op_ab] <> 1%nat
      /\ dicts HyperoptExample.st0 !! 6%nat = Some [(KInt (Z.of_nat 1), VDict 3)]
      /\ [HyperoptExample.scaler; HyperoptExample.op_ab] !! 1%nat
           = Some HyperoptExample.op_ab
      /\ create_instance_from_hyperopt_search_space 4
           (VOp HyperoptExample.two_choice) (VDict 6) HyperoptExample.st0
         = create_instance_from_hyperopt_search_space 3
             (VOp HyperoptExample.op_ab) (VDict 3) HyperoptExample.st0).
Proof.
  split.
  - apply (proj1 choice_single_alternative).
  - split; [simpl; lia |]. split; [reflexivity |]. split; [reflexivity |].
    apply (proj2 (proj2 choice_single_alternative) 3%nat 6%nat
             "lale.operators.OperatorChoice"
             [HyperoptExample.scaler; HyperoptExample.op_ab] 6%nat
             HyperoptExample.st0 1%nat (VDict 3) [] HyperoptExample.op_ab);
      [simpl; lia | reflexivity | reflexivity].
Defined.

End PipelineArity.

(** *** Dicts *)

Section DictFacts.
Import Py Hyperopt.
Implicit Types (d acc : dict) (k : key) (v : pyval).

Lemma dict_get_set d k v k' :
  dict_get (dict_set d k v) k' = if key_eqb k k' then Some v else dict_get d k'.
Proof.
  induction d as [| [k0 v0] d IH]; simpl; [reflexivity |].
  destruct (key_eqb k0 k) eqn:Hk0; simpl.
  - apply key_eqb_eq in Hk0; subst k0.
    destruct (key_eqb k k'); reflexivity.
  - rewrite IH. destruct (key_eqb k0 k') eqn:Hk0'; [| reflexivity].
    apply key_eqb_eq in Hk0'; subst k'.
    assert (Hsym : key_eqb k k0 = false).
    { apply key_eqb_neq. apply key_eqb_neq in Hk0. congruence. }
    rewrite Hsym. reflexivity.
Qed.

Lemma dict_get_Some_In d k v : dict_get d k = Some v -> In (k, v) d.
Proof.
  induction d as [| [k0 v0] d IH]; simpl; [discriminate |].
  destruct (key_eqb k0 k) eqn:Hk0.
  - apply key_eqb_eq in Hk0; subst k0. intros [= ->]; left; reflexivity.
  - intros Hd; right; apply IH; exact Hd.
Qed.

Lemma dict_get_is_Some d k : is_Some (dict_get d k) <-> In k (map fst d).
Proof.
  induction d as [| [k0 v0] d IH]; simpl.
  - split; [intros [x Hx]; discriminate | contradiction].
  - destruct (key_eqb k0 k) eqn:Hk0.
    + apply key_eqb_eq in Hk0; subst k0. split; [left; reflexivity | eauto].
    + apply key_eqb_neq in Hk0. rewrite IH. split; [auto | intros [? | ?]; congruence].
Qed.

Lemma dict_get_None d k : dict_get d k = None <-> ~ In k (map fst d).
Proof.
  rewrite <- dict_get_is_Some. destruct (dict_get d k) as [x |].
  - split; [discriminate | intros Hn; exfalso; apply Hn; eauto].
  - split; [intros _ [x Hx]; discriminate | reflexivity].
Qed.

(** With distinct keys the items are what lookup finds. *)
Lemma dict_get_In d k v :
  NoDup (map fst d) -> In (k, v) d -> dict_get d k = Some v.
Proof.
  induction d as [| [k0 v0] d IH]; simpl; [contradiction |].
  intros Hnd [Heq | Hin]; apply NoDup_cons in Hnd as [Hk0 Hnd].
  - injection Heq as -> ->. rewrite key_eqb_refl. reflexivity.
  - destruct (key_eqb k0 k) eqn:Hk; [| apply IH; assumption].
    apply key_eqb_eq in Hk; subst k0. exfalso; apply Hk0.
    apply list_elem_of_In. apply (in_map fst) in Hin. exact Hin.
Qed.

Lemma dict_set_keys_In d k v :
  In k (map fst d) -> map fst (dict_set d k v) = map fst d.
Proof.
  induction d as [| [k0 v0] d IH]; simpl; [contradiction |].
  intros Hin. destruct (key_eqb k0 k) eqn:Hk0; simpl; [reflexivity |].
  f_equal. apply IH. destruct Hin as [-> | Hin]; [| exact Hin].
  rewrite key_eqb_refl in Hk0; discriminate.
Qed.

Lemma dict_set_keys_fresh d k v :
  ~ In k (map fst d) -> map fst (dict_set d k v) = map fst d ++ [k].
Proof.
  induction d as [| [k0 v0] d IH]; simpl; [reflexivity |].
  intros Hin. destruct (key_eqb k0 k) eqn:Hk0; simpl.
  - apply key_eqb_eq in Hk0. exfalso; apply Hin; left; exact Hk0.
  - f_equal. apply IH. intros Hd; apply Hin; right; exact Hd.
Qed.

Lemma dict_set_NoDup d k v :
  NoDup (map fst d) -> NoDup (map fst (dict_set d k v)).
Proof.
  intros Hnd. destruct (dict_get d k) as [x |] eqn:Hg.
  - rewrite dict_set_keys_In; [exact Hnd |].
    apply dict_get_is_Some; eauto.
  - apply dict_get_None in Hg. rewrite dict_set_keys_fresh by exact Hg.
    apply NoDup_app. split; [exact Hnd |]. split.
    + intros x Hx Hx'. apply list_elem_of_In in Hx.
      apply list_elem_of_singleton in Hx'. subst x. contradiction.
    + apply NoDup_singleton.
Qed.

(** [{**a, **b}]: the entries of [b] win. *)
Lemma dict_merge_get a b k :
  NoDup (map fst b) ->
  dict_get (dict_merge a b) k =
  match dict_get b k with
  | Some v => Some v
  | None => dict_get a k
  end.
Proof.
  unfold dict_merge. revert a; induction b as [| [k0 v0] b IH]; intros a Hnd;
    simpl; [reflexivity |].
  apply NoDup_cons in Hnd as [Hk0 Hnd]. rewrite IH by exact Hnd.
  rewrite dict_get_set. simpl.
  destruct (key_eqb k0 k) eqn:Hk; [| reflexivity].
  apply key_eqb_eq in Hk; subst k0.
  destruct (dict_get b k) eqn:Hb; [| reflexivity].
  exfalso; apply Hk0. apply list_elem_of_In, dict_get_is_Some; eauto.
Qed.

Lemma dict_merge_keys a b k :
  In k (map fst (dict_merge a b)) <-> In k (map fst a) \/ In k (map fst b).
Proof.
  unfold dict_merge. revert a; induction b as [| [k0 v0] b IH]; intros a; simpl.
  - tauto.
  - rewrite IH. rewrite <- !dict_get_is_Some, dict_get_set.
    destruct (key_eqb k0 k) eqn:Hk.
    + apply key_eqb_eq in Hk. split; [intros _ | eauto]. right; left; exact Hk.
    + apply key_eqb_neq in Hk. rewrite !dict_get_is_Some. tauto.
Qed.

(** *** [dict_without] on a dict *)

Lemma dict_without_fold_get d (key : string) (ks : list Hyperopt.key) acc k :
  dict_get
    (fold_left (fun acc k =>
                  if key_eqb k (KStr key) then acc
                  else match dict_get d k with
                       | Some v => dict_set acc k v
                       | None => acc
                       end) ks acc) k
  = if key_eqb k (KStr key) then dict_get acc k
    else if bool_decide (k ∈ ks) then
           match dict_get d k with
           | Some v => Some v
           | None => dict_get acc k
           end
         else dict_get acc k.
Proof.
  revert acc; induction ks as [| k0 ks IH]; intros acc; simpl.
  - destruct (key_eqb k (KStr key)); reflexivity.
  - rewrite IH. destruct (key_eqb k (KStr key)) eqn:Hkey.
    + destruct (key_eqb k0 (KStr key)) eqn:Hk0; [reflexivity |].
      destruct (dict_get d k0); [| reflexivity].
      rewrite dict_get_set. destruct (key_eqb k0 k) eqn:Hk; [| reflexivity].
      apply key_eqb_eq in Hk; subst k0. congruence.
    + destruct (key_eqb k0 k) eqn:Hk.
      * apply key_eqb_eq in Hk; subst k0. rewrite Hkey.
        rewrite (bool_decide_eq_true_2 (k ∈ k :: ks)) by (apply elem_of_cons; left; reflexivity).
        destruct (dict_get d k) as [v |] eqn:Hd.
        -- rewrite dict_get_set, key_eqb_refl.
           destruct (bool_decide (k ∈ ks)); reflexivity.
        -- destruct (bool_decide (k ∈ ks)); reflexivity.
      * assert (Hne : k0 <> k) by (apply key_eqb_neq; exact Hk).
        assert (Hdec : bool_decide (k ∈ k0 :: ks) = bool_decide (k ∈ ks)).
        { apply bool_decide_ext. rewrite elem_of_cons. split; [| auto].
          intros [-> | Hin]; [contradiction | exact Hin]. }
        rewrite Hdec.
        assert (Hacc : dict_get
                  (if key_eqb k0 (KStr key) then acc
                   else match dict_get d k0 with
                        | Some v => dict_set acc k0 v
                        | None => acc
                        end) k = dict_get acc k).
        { destruct (key_eqb k0 (KStr key)); [reflexivity |].
          destruct (dict_get d k0); [| reflexivity].
          rewrite dict_get_set, Hk. reflexivity. }
        rewrite Hacc. reflexivity.
Qed.

(** [dict_without] drops the key and keeps every other entry. *)
Lemma dict_without_dict_get d (key : string) k :
  dict_get (dict_without_dict d key) k =
  if key_eqb k (KStr key) then None else dict_get d k.
Proof.
  unfold dict_without_dict. rewrite dict_without_fold_get. simpl.
  destruct (key_eqb k (KStr key)); [reflexivity |].
  destruct (bool_decide (k ∈ map fst d)) eqn:Hin.
  - destruct (dict_get d k) eqn:Hd; [reflexivity |].
    apply bool_decide_eq_true_1, list_elem_of_In, dict_get_is_Some in Hin.
    destruct Hin as [x Hx]; congruence.
  - apply bool_decide_eq_false_1 in Hin. rewrite list_elem_of_In in Hin.
    apply dict_get_None in Hin. symmetry; exact Hin.
Qed.

Lemma dict_without_dict_NoDup d (key : string) :
  NoDup (map fst (dict_without_dict d key)).
Proof.
  unfold dict_without_dict.
  assert (Hgen : forall ks acc, NoDup (map fst acc) ->
    NoDup (map fst (fold_left (fun acc k =>
                  if key_eqb k (KStr key) then acc
                  else match dict_get d k with
                       | Some v => dict_set acc k v
                       | None => acc
                       end) ks acc))).
  { induction ks as [| k0 ks IH]; intros acc Hacc; simpl; [exact Hacc |].
    apply IH. destruct (key_eqb k0 (KStr key)); [exact Hacc |].
    destruct (dict_get d k0); [apply dict_set_NoDup |]; exact Hacc. }
  apply Hgen. constructor.
Qed.

End DictFacts.

(** *** The individual-operator case *)

Section IndividualOpFacts.
Import Py Hyperopt.
Implicit Types (d acc : dict) (k : key) (v : pyval) (st : store).

Lemma differs_from_str_key k (key : string) :
  differs_from_str (key_to_val k) key = negb (key_eqb k (KStr key)).
Proof. destruct k; reflexivity. Qed.

Lemma py_getitem_dict r d k v st :
  dicts st !! r = Some d -> dict_get d k = Some v ->
  py_getitem (VDict r) (key_to_val k) st = (Ok v, st).
Proof.
  intros Hr Hk. unfold py_getitem, bind, read_dict. rewrite Hr.
  destruct k; simpl; rewrite Hk; reflexivity.
Qed.

Lemma as_key_key k st : as_key (key_to_val k) st = (Ok k, st).
Proof. destruct k; reflexivity. Qed.

Lemma dict_without_loop_run r d (key : string) st (ks : list Hyperopt.key) acc :
  dicts st !! r = Some d ->
  Forall (fun k => is_Some (dict_get d k)) ks ->
  dict_without_loop (VDict r) (map key_to_val ks) key acc st
  = (Ok (fold_left (fun acc k =>
                      if key_eqb k (KStr key) then acc
                      else match dict_get d k with
                           | Some v => dict_set acc k v
                           | None => acc
                           end) ks acc), st).
Proof.
  intros Hr Hks. revert acc; induction Hks as [| k ks [v Hk] _ IH]; intros acc.
  - reflexivity.
  - cbn [map dict_without_loop fold_left].
    rewrite differs_from_str_key.
    destruct (key_eqb k (KStr key)); cbn [negb]; [apply IH |].
    unfold bind. rewrite (py_getitem_dict _ _ _ _ _ Hr Hk), as_key_key, Hk.
    apply IH.
Qed.

(** On a dict object, [dict_without] returns the items without the key
    and leaves the store alone. *)
Lemma dict_without_run r d (key : string) st :
  dicts st !! r = Some d ->
  dict_without (VDict r) key st = (Ok (dict_without_dict d key), st).
Proof.
  intros Hr. unfold dict_without, py_iter, bind, read_dict, ret. rewrite Hr.
  rewrite <- (map_map fst key_to_val).
  apply dict_without_loop_run; [exact Hr |].
  apply Forall_forall. intros k Hk. apply dict_get_is_Some.
  apply list_elem_of_In. exact Hk.
Qed.

(** What [update_loop] leaves in the local dict: the keys stand, an entry
    not visited is unchanged, and a visited entry is replaced by the
    update the recursive call returns, when there is one. *)
Lemma update_loop_spec (rec : pyval -> pyval -> M store pyval)
    (obj : dict) (items : list (key * pyval)) (new new' : dict) st st' :
  update_loop rec obj items new st = (Ok new', st') ->
  (forall k, In k (map fst items) -> In k (map fst new)) ->
  NoDup (map fst items) ->
  map fst new' = map fst new
  /\ forall k,
       (~ In k (map fst items) -> dict_get new' k = dict_get new k)
       /\ (forall s, In (k, s) items ->
             match dict_get obj k with
             | None => dict_get new' k = dict_get new k
             | Some sub_op =>
                 exists st1 st2 u,
                   rec sub_op s st1 = (Ok u, st2)
                   /\ dict_get new' k = if is_none u then dict_get new k else Some u
             end).
Proof.
  revert new st; induction items as [| [k0 s0] items IH]; intros new st Hrun Hkeys Hnd.
  - injection Hrun as <- <-. split; [reflexivity |].
    intros k; split; [reflexivity | contradiction].
  - cbn [update_loop] in Hrun. cbn [map fst] in Hnd, Hkeys.
    apply NoDup_cons in Hnd as [Hk0 Hnd]. rewrite list_elem_of_In in Hk0.
    destruct (dict_get obj k0) as [sub_op |] eqn:Hobj.
    + unfold bind in Hrun.
      destruct (rec sub_op s0 st) as [[u | | |] st1] eqn:Hrec; try discriminate.
      set (new1 := if is_none u then new else dict_set new k0 u) in Hrun.
      assert (Hkeys1 : map fst new1 = map fst new).
      { subst new1. destruct (is_none u); [reflexivity |].
        apply dict_set_keys_In. apply Hkeys. left; reflexivity. }
      destruct (IH new1 st1 Hrun) as [Hk' Hall]; [| exact Hnd |].
      { intros k Hk. rewrite Hkeys1. apply Hkeys. right; exact Hk. }
      split; [congruence |].
      intros k; split.
      * intros Hnotin. destruct (Hall k) as [Hout _].
        rewrite Hout by (intros Hin; apply Hnotin; right; exact Hin).
        subst new1. destruct (is_none u); [reflexivity |].
        rewrite dict_get_set.
        destruct (key_eqb k0 k) eqn:Hk; [| reflexivity].
        apply key_eqb_eq in Hk. exfalso; apply Hnotin; left; exact Hk.
      * intros s [Heq | Hin].
        -- injection Heq as -> ->. rewrite Hobj.
           exists st, st1, u. split; [exact Hrec |].
           destruct (Hall k) as [Hout _]. rewrite (Hout Hk0).
           subst new1. destruct (is_none u); [reflexivity |].
           rewrite dict_get_set, key_eqb_refl. reflexivity.
        -- destruct (Hall k) as [_ Hin']. specialize (Hin' s Hin).
           assert (Hne : key_eqb k0 k = false).
           { apply key_eqb_neq. intros ->. apply Hk0.
             apply (in_map fst) in Hin. exact Hin. }
           assert (Hsame : dict_get new1 k = dict_get new k).
           { subst new1. destruct (is_none u); [reflexivity |].
             rewrite dict_get_set, Hne. reflexivity. }
           rewrite Hsame in Hin'. exact Hin'.
    + destruct (IH new st Hrun) as [Hk' Hall]; [| exact Hnd |].
      { intros k Hk. apply Hkeys. right; exact Hk. }
      split; [exact Hk' |].
      intros k; split.
      * intros Hnotin. apply Hall. intros Hin; apply Hnotin; right; exact Hin.
      * intros s [Heq | Hin].
        -- injection Heq as -> ->. rewrite Hobj.
           apply Hall. exact Hk0.
        -- apply Hall. exact Hin.
Qed.

(** Plain sample values are never updated. *)
Lemma update_loop_plain (fuel : nat) (obj : dict) (items : list (key * pyval))
    (new : dict) st :
  Forall (fun kv => is_plain (snd kv) = true) items ->
  update_loop (instantiate_from_hyperopt_search_space (S fuel)) obj items new st
  = (Ok new, st).
Proof.
  induction 1 as [| [k s] items Hs _ IH]; [reflexivity |].
  cbn [update_loop]. destruct (dict_get obj k); [| exact IH].
  unfold bind. rewrite (instantiate_plain _ _ _ Hs). exact IH.
Qed.

Lemma call_individual_op_Ok (cn : string) (all : dict) st v st' :
  call_individual_op cn all st = (Ok v, st') ->
  v = VOp (IndividualOp (next_oid st) cn (Some all))
  /\ st' = mk_store (dicts st) (S (next_oid st))
  /\ Forall (fun kv => is_str_key (fst kv) = true) all.
Proof.
  unfold call_individual_op.
  destruct (forallb _ all) eqn:Hall; [| discriminate].
  intros [= <- <-]. repeat split.
  apply Forall_forall. intros kv Hin.
  rewrite forallb_forall in Hall. apply Hall. apply list_elem_of_In; exact Hin.
Qed.

(** The effective hyperparameters of the instance, key by key: the sample
    without its [name] entry over the declared hyperparameters, a sample
    value under a declared key replaced by its update when the recursive
    call returns one. *)
Lemma create_instance_individual_lookup (fuel i : nat) (cn : string)
    (hp : option dict) (r : nat) d st v st' :
  dicts st !! r = Some d ->
  create_instance_from_hyperopt_search_space (S fuel)
    (VOp (IndividualOp i cn hp)) (VDict r) st = (Ok v, st') ->
  exists j all,
    v = VOp (IndividualOp j cn (Some all))
    /\ forall k,
         match dict_get (dict_without_dict d "name") k with
         | None =>
             dict_get all k = dict_get (declared_hyperparams (IndividualOp i cn hp)) k
         | Some s =>
             match dict_get (declared_hyperparams (IndividualOp i cn hp)) k with
             | None => dict_get all k = Some s
             | Some sub_op =>
                 exists st1 st2 u,
                   instantiate_from_hyperopt_search_space fuel sub_op s st1
                   = (Ok u, st2)
                   /\ dict_get all k = Some (if is_none u then s else u)
             end
         end.
Proof.
  intros Hr. rewrite create_instance_individual.
  set (obj := declared_hyperparams (IndividualOp i cn hp)).
  unfold bind at 1. rewrite (dict_without_run _ _ _ _ Hr).
  set (new := dict_without_dict d "name").
  unfold bind.
  destruct (update_loop _ obj new new st) as [[new' | | |] st1] eqn:Hloop;
    try discriminate.
  intros Hcall. apply call_individual_op_Ok in Hcall as (-> & _ & _).
  pose proof (dict_without_dict_NoDup d "name") as Hnd. fold new in Hnd.
  destruct (update_loop_spec _ _ _ _ _ _ _ Hloop) as [Hkeys Hall];
    [auto | exact Hnd |].
  eexists _, _. split; [reflexivity |].
  intros k. rewrite dict_merge_get by (rewrite Hkeys; exact Hnd).
  destruct (Hall k) as [Hout Hin].
  destruct (dict_get new k) as [s |] eqn:Hnew.
  - specialize (Hin s (dict_get_Some_In _ _ _ Hnew)).
    destruct (dict_get obj k) as [sub_op |].
    + destruct Hin as (st2 & st3 & u & Hrec & Hget).
      exists st2, st3, u. split; [exact Hrec |].
      rewrite Hget. destruct (is_none u); reflexivity.
    + rewrite Hin. reflexivity.
  - pose proof Hnew as Hnotin. apply dict_get_None in Hnotin.
    rewrite (Hout Hnotin). rewrite ?Hnew. reflexivity.
Qed.

(** With a sample of plain values under string keys the instance is
    built, from the declared hyperparameters updated with the sample
    without its [name] entry. *)
Lemma create_instance_individual_plain (fuel i : nat) (cn : string)
    (hp : option dict) (r : nat) d st :
  dicts st !! r = Some d ->
  Forall (fun kv => is_plain (snd kv) = true) d ->
  Forall (fun kv => is_str_key (fst kv) = true) d ->
  Forall (fun kv => is_str_key (fst kv) = true)
         (declared_hyperparams (IndividualOp i cn hp)) ->
  create_instance_from_hyperopt_search_space (S (S fuel))
    (VOp (IndividualOp i cn hp)) (VDict r) st
  = (Ok (VOp (IndividualOp (next_oid st) cn
                (Some (dict_merge (declared_hyperparams (IndividualOp i cn hp))
                                  (dict_without_dict d "name"))))),
     mk_store (dicts st) (S (next_oid st))).
Proof.
  intros Hr Hplain Hstr Hobj. rewrite create_instance_individual.
  set (obj := declared_hyperparams (IndividualOp i cn hp)) in *.
  unfold bind at 1. rewrite (dict_without_run _ _ _ _ Hr).
  set (new := dict_without_dict d "name").
  assert (Hsub : forall kv, In kv new -> In kv d).
  { intros [k v] Hin.
    apply dict_get_In in Hin; [| apply dict_without_dict_NoDup].
    subst new. rewrite dict_without_dict_get in Hin.
    destruct (key_eqb k (KStr "name")); [discriminate |].
    apply dict_get_Some_In; exact Hin. }
  unfold bind. rewrite update_loop_plain.
  2:{ apply Forall_forall. intros kv Hin.
      rewrite Forall_forall in Hplain. apply Hplain.
      apply list_elem_of_In, Hsub, list_elem_of_In; exact Hin. }
  unfold call_individual_op.
  assert (Hall : forallb (fun kv => is_str_key (fst kv)) (dict_merge obj new) = true).
  { apply forallb_forall. intros [k v] Hin.
    assert (Hk : In k (map fst (dict_merge obj new))).
    { apply (in_map fst) in Hin. exact Hin. }
    apply dict_merge_keys in Hk. simpl.
    destruct Hk as [Hk | Hk]; apply in_map_iff in Hk as [[k' v'] [<- Hin']].
    - rewrite Forall_forall in Hobj. apply (Hobj (k', v')).
      apply list_elem_of_In; exact Hin'.
    - rewrite Forall_forall in Hstr. apply (Hstr (k', v')).
      apply list_elem_of_In, Hsub; exact Hin'. }
  rewrite Hall. reflexivity.
Qed.

End IndividualOpFacts.

Section IndividualOpClaims.
Import Py Hyperopt.




(** C10.  The [name] entry of a sample mapping is removed before the
    merge: whatever its value, the entry under [name] among the effective
    hyperparameters is the one the operator declares, and there is none
    when the operator declares none.  For a sample of plain values under
    string keys the instance is built, and this is what it holds. *)
Theorem sample_name_is_dropped :
  (forall (fuel i : nat) (cn : string) (hp : option dict) (r : nat) (d : dict)
          (st st' : store) (v : pyval),
      dicts st !! r = Some d ->
      create_instance_from_hyperopt_search_space (S fuel)
        (VOp (IndividualOp i cn hp)) (VDict r) st = (Ok v, st') ->
      dict_without (VDict r) "name" st = (Ok (dict_without_dict d "name"), st)
      /\ dict_get (dict_without_dict d "name") (KStr "name") = None
      /\ (forall k, k <> KStr "name" ->
            dict_get (dict_without_dict d "name") k = dict_get d k)
      /\ exists j all,
           v = VOp (IndividualOp j cn (Some all))
           /\ dict_get all (KStr "name")
              = dict_get (declared_hyperparams (IndividualOp i cn hp)) (KStr "name")
           /\ (dict_get (declared_hyperparams (IndividualOp i cn hp)) (KStr "name")
               = None ->
               ~ In (KStr "name") (map fst all)))
  /\ (forall (fuel i : nat) (cn : string) (hp : option dict) (r : nat) (d : dict)
            (st : store),
        dicts st !! r = Some d ->
        Forall (fun kv => is_plain (snd kv) = true) d ->
        Forall (fun kv => is_str_key (fst kv) = true) d ->
        Forall (fun kv => is_str_key (fst kv) = true)
               (declared_hyperparams (IndividualOp i cn hp)) ->
        exists all,
          create_instance_from_hyperopt_search_space (S (S fuel))
            (VOp (IndividualOp i cn hp)) (VDict r) st
          = (Ok (VOp (IndividualOp (next_oid st) cn (Some all))),
             mk_store (dicts st) (S (next_oid st)))
          /\ dict_get all (KStr "name")
             = dict_get (declared_hyperparams (IndividualOp i cn hp)) (KStr "name")).
Proof.
  split.
  - intros fuel i cn hp r d st st' v Hr Hrun.
    split; [apply dict_without_run; exact Hr |].
    split; [rewrite dict_without_dict_get, key_eqb_refl; reflexivity |].
    split.
    { intros k Hne. rewrite dict_without_dict_get.
      apply key_eqb_neq in Hne. rewrite Hne. reflexivity. }
    destruct (create_instance_individual_lookup _ _ _ _ _ _ _ _ _ Hr Hrun)
      as (j & all & -> & Hall).
    exists j, all. split; [reflexivity |].
    specialize (Hall (KStr "name")).
    rewrite dict_without_dict_get, key_eqb_refl in Hall.
    split; [exact Hall |].
    intros Hnone. apply dict_get_None. rewrite Hall. exact Hnone.
  - intros fuel i cn hp r d st Hr Hplain Hstr Hobj.
    eexists. split.
    + apply create_instance_individual_plain; eassumption.
    + rewrite dict_merge_get by apply dict_without_dict_NoDup.
      rewrite dict_without_dict_get, key_eqb_refl. reflexivity.
Qed.

Lemma sample_name_is_dropped_witness :
  dicts HyperoptExample.st0 !! 0%nat
    = Some [(KStr "name", VStr "op"); (KStr "a", VInt 9)]
  /\ dict_without (VDict 0) "name" HyperoptExample.st0
     = (Ok (dict_without_dict [(KStr "name", VStr "op"); (KStr "a", VInt 9)] "name"),
        HyperoptExample.st0)
  /\ dict_get (dict_without_dict [(KStr "name", VStr "op"); (KStr "a", VInt 9)] "name")
       (KStr "name") = None
  /\ (forall k, k <> KStr "name" ->
        dict_get (dict_without_dict [(KStr "name", VStr "op"); (KStr "a", VInt 9)] "name") k
        = dict_get [(KStr "name", VStr "op"); (KStr "a", VInt 9)] k)
  /\ exists j all,
       VOp (IndividualOp 10 "Classifier"
              (Some [(KStr "a", VInt 9); (KStr "b", VInt 2)]))
       = VOp (IndividualOp j "Classifier" (Some all))
       /\ dict_get all (KStr "name")
          = dict_get (declared_hyperparams HyperoptExample.op_ab) (KStr "name")
       /\ (dict_get (declared_hyperparams HyperoptExample.op_ab) (KStr "name") = None ->
           ~ In (KStr "name") (map fst all)).
Proof.
  split; [reflexivity |].
  apply (proj1 sample_name_is_dropped 2%nat 1%nat "Classifier"
           (Some [(KStr "a", VInt 1); (KStr "b", VInt 2)]) 0%nat
           [(KStr "name", VStr "op"); (KStr "a", VInt 9)]
           HyperoptExample.st0
           (mk_store (dicts HyperoptExample.st0) 11)
           (VOp (IndividualOp 10 "Classifier"
                   (Some [(KStr "a", VInt 9); (KStr "b", VInt 2)])))).
  - reflexivity.
  - reflexivity.
Defined.

End IndividualOpClaims.

(** *** The pipeline case *)

Section PipelineFacts.
Import Py Hyperopt.
Implicit Types (st : store) (m : gmap nat pyval) (x s : operator).

Lemma steps_instantiated_length rec ss hs st insts st1 :
  steps_instantiated rec ss hs st insts st1 ->
  length hs = length ss /\ length insts = length ss.
Proof. induction 1; simpl; [split; reflexivity | lia]. Qed.

(** The loop appends the instances in step order and records each under
    the identity of its step. *)
Lemma pipeline_loop_spec rec (pre ss : list operator) hs st insts st1
    (acc : list pyval) m :
  steps_instantiated rec ss hs st insts st1 ->
  pipeline_loop rec (pre ++ ss) (length pre) hs acc m st
  = (Ok (acc ++ map VOp insts, op_map_of ss insts m), st1).
Proof.
  intros Hrun. revert pre acc m.
  induction Hrun as [st | s ss h hs st inst st1 insts st2 Hrec Hcls _ IH];
    intros pre acc m.
  - simpl. rewrite app_nil_r. reflexivity.
  - cbn [pipeline_loop].
    erewrite bind_Ok by (unfold lift; rewrite seq_getitem_middle; reflexivity).
    erewrite bind_Ok by exact Hrec.
    assert (Hassert :
      (if is_choice s then ret tt
       else let* cn := lift (py_class_name (VOp inst)) in
            py_assert (String.eqb (class_name s) cn)) st1 = (Ok tt, st1)).
    { destruct (is_choice s) eqn:Hc; [reflexivity |].
      destruct Hcls as [Hcls | Hcls]; [congruence |].
      unfold bind, lift, py_class_name, py_assert. rewrite Hcls, String.eqb_refl.
      reflexivity. }
    erewrite bind_Ok by exact Hassert.
    specialize (IH (pre ++ [s]) (acc ++ [VOp inst]) (<[oid s := VOp inst]> m)).
    rewrite <- app_assoc, length_app in IH. simpl in IH.
    rewrite Nat.add_1_r in IH. rewrite IH.
    rewrite <- app_assoc. reflexivity.
Qed.

Lemma counterpart_not_step steps insts x :
  ~ In (oid x) (map oid steps) -> counterpart steps insts x = None.
Proof.
  revert insts; induction steps as [| s steps IH]; intros insts Hx; [reflexivity |].
  destruct insts as [| i insts]; [reflexivity |]. simpl.
  destruct (Nat.eqb_spec (oid s) (oid x)) as [Heq | Hne].
  - exfalso; apply Hx; left; exact Heq.
  - apply IH. intros Hin; apply Hx; right; exact Hin.
Qed.

Lemma counterpart_is_step steps insts x :
  length insts = length steps ->
  In (oid x) (map oid steps) -> is_Some (counterpart steps insts x).
Proof.
  revert insts; induction steps as [| s steps IH]; intros insts Hlen Hx;
    [contradiction |].
  destruct insts as [| i insts]; [discriminate |]. simpl.
  destruct (Nat.eqb_spec (oid s) (oid x)) as [Heq | Hne]; [eauto |].
  apply IH; [simpl in Hlen; lia |].
  destruct Hx as [Hx | Hx]; [contradiction | exact Hx].
Qed.

(** With distinct steps, the instance recorded for a step is the one at
    its position. *)
Lemma counterpart_position steps insts (i : nat) s :
  NoDup (map oid steps) ->
  steps !! i = Some s -> counterpart steps insts s = insts !! i.
Proof.
  revert insts i; induction steps as [| s0 steps IH]; intros insts i Hnd Hs;
    [discriminate |].
  apply NoDup_cons in Hnd as [Hs0 Hnd].
  destruct i as [| i]; simpl in Hs.
  - injection Hs as ->. destruct insts as [| i0 insts]; [reflexivity |].
    simpl. rewrite Nat.eqb_refl. reflexivity.
  - destruct insts as [| i0 insts]; simpl.
    + reflexivity.
    + destruct (Nat.eqb_spec (oid s0) (oid s)) as [Heq | Hne].
      * exfalso; apply Hs0. rewrite Heq. apply list_elem_of_In, in_map.
        apply list_elem_of_In. eapply list_elem_of_lookup_2; exact Hs.
      * apply IH; assumption.
Qed.

Lemma op_map_of_lookup steps insts m x :
  NoDup (map oid steps) ->
  op_map_of steps insts m !! oid x =
  match counterpart steps insts x with
  | Some i => Some (VOp i)
  | None => m !! oid x
  end.
Proof.
  unfold op_map_of. revert insts m;
    induction steps as [| s steps IH]; intros insts m Hnd; [reflexivity |].
  apply NoDup_cons in Hnd as [Hs Hnd]. rewrite list_elem_of_In in Hs.
  destruct insts as [| i insts]; [reflexivity |]. simpl.
  rewrite IH by exact Hnd.
  destruct (Nat.eqb_spec (oid s) (oid x)) as [Heq | Hne].
  - rewrite counterpart_not_step by (rewrite <- Heq; exact Hs).
    rewrite Heq. apply lookup_insert_eq.
  - destruct (counterpart steps insts x); [reflexivity |].
    apply lookup_insert_ne. exact Hne.
Qed.

(** Edges between steps are mapped to the edges between their
    instances. *)
Lemma remap_edges_spec steps insts m (edges : list (operator * operator)) :
  (forall x, m !! oid x =
             match counterpart steps insts x with
             | Some i => Some (VOp i)
             | None => None
             end) ->
  Forall (fun e => is_Some (counterpart steps insts (fst e))
                   /\ is_Some (counterpart steps insts (snd e))) edges ->
  exists edges',
    remap_edges m edges = Ok (map (fun e => (VOp (fst e), VOp (snd e))) edges')
    /\ Forall2 (remap_edge steps insts) edges edges'.
Proof.
  intros Hm. unfold remap_edges.
  induction 1 as [| [a b] edges [[ia Ha] [ib Hb]] _ [edges' [Hrun Hall]]].
  - exists []. split; [reflexivity | constructor].
  - exists ((ia, ib) :: edges'). simpl in Ha, Hb. split.
    + cbn [omapM fst snd]. rewrite !Hm, Ha, Hb. cbn [obind].
      rewrite Hrun. reflexivity.
    + constructor; [split; assumption | exact Hall].
Qed.

Lemma mapM_as_operator (insts : list operator) :
  mapM as_operator (map VOp insts) = Some insts.
Proof.
  induction insts as [| i insts IH]; [reflexivity |].
  cbn [map mapM]. rewrite IH. reflexivity.
Qed.

Lemma mapM_as_edge (es : list (operator * operator)) :
  mapM as_edge (map (fun e => (VOp (fst e), VOp (snd e))) es) = Some es.
Proof.
  induction es as [| [a b] es IH]; [reflexivity |].
  cbn [map mapM]. rewrite IH. reflexivity.
Qed.

Lemma create_instance_pipeline_run (fuel i : nat) (cn : string)
    (steps : list operator) (edges : list (operator * operator))
    (hs : list pyval) (sample : pyval) st st1 (insts : list operator) :
  sample = VList hs \/ sample = VTuple hs ->
  steps_instantiated (create_instance_from_hyperopt_search_space fuel)
    steps hs st insts st1 ->
  NoDup (map oid steps) ->
  Forall (fun e => In (oid (fst e)) (map oid steps)
                   /\ In (oid (snd e)) (map oid steps)) edges ->
  exists edges',
    create_instance_from_hyperopt_search_space (S fuel)
      (VOp (BasePipeline i cn steps edges)) sample st
    = (Ok (VOp (BasePipeline (next_oid st1) TrainablePipeline_class_name
                  insts edges')),
       mk_store (dicts st1) (S (next_oid st1)))
    /\ Forall2 (remap_edge steps insts) edges edges'.
Proof.
  intros Hsample Hrun Hnd Hedges.
  destruct (steps_instantiated_length _ _ _ _ _ _ Hrun) as [Hlen Hlen'].
  destruct (remap_edges_spec steps insts (op_map_of steps insts ∅) edges)
    as (edges' & Hremap & Hall).
  { intros x. rewrite op_map_of_lookup by exact Hnd.
    destruct (counterpart steps insts x); [reflexivity | apply lookup_empty]. }
  { eapply Forall_impl; [exact Hedges |].
    intros e [Ha Hb]; split; apply counterpart_is_step; assumption. }
  exists edges'. split; [| exact Hall].
  rewrite create_instance_pipeline.
  erewrite bind_Ok
    by (destruct Hsample as [-> | ->]; reflexivity).
  rewrite Hlen, Nat.eqb_refl. cbn [negb].
  erewrite bind_Ok
    by (destruct Hsample as [-> | ->]; reflexivity).
  erewrite bind_Ok by (apply (pipeline_loop_spec _ []); exact Hrun).
  cbn [app].
  erewrite bind_Ok by (unfold lift; rewrite Hremap; reflexivity).
  unfold TrainablePipeline. rewrite mapM_as_operator, mapM_as_edge.
  reflexivity.
Qed.

End PipelineFacts.

Section PipelineClaims.
Import Py Hyperopt.

(** C5.  For a pipeline with distinct steps [s0..sk], edges between those
    steps, and a sample sequence [h0..hk] whose entries instantiate the
    steps one after the other, the call returns a new pipeline whose steps
    are the k+1 instances in step order and whose edges are the original
    edges with each endpoint replaced by the instance at its position. *)
Theorem pipeline_structure_preserved (fuel i : nat) (cn : string)
    (steps : list operator) (edges : list (operator * operator))
    (hs : list pyval) (st st1 : store) (insts : list operator) :
  steps_instantiated (create_instance_from_hyperopt_search_space fuel)
    steps hs st insts st1 ->
  NoDup (map oid steps) ->
  Forall (fun e => In (oid (fst e)) (map oid steps)
                   /\ In (oid (snd e)) (map oid steps)) edges ->
  exists edges',
    create_instance_from_hyperopt_search_space (S fuel)
      (VOp (BasePipeline i cn steps edges)) (VList hs) st
    = (Ok (VOp (BasePipeline (next_oid st1) TrainablePipeline_class_name
                  insts edges')),
       mk_store (dicts st1) (S (next_oid st1)))
    /\ create_instance_from_hyperopt_search_space (S fuel)
         (VOp (BasePipeline i cn steps edges)) (VTuple hs) st
       = (Ok (VOp (BasePipeline (next_oid st1) TrainablePipeline_class_name
                     insts edges')),
          mk_store (dicts st1) (S (next_oid st1)))
    /\ length insts = length steps
    /\ (forall n s, steps !! n = Some s -> counterpart steps insts s = insts !! n)
    /\ Forall2 (remap_edge steps insts) edges edges'
    /\ length edges' = length edges.
Proof.
  intros Hrun Hnd Hedges.
  destruct (create_instance_pipeline_run fuel i cn steps edges hs (VList hs)
              st st1 insts (or_introl eq_refl) Hrun Hnd Hedges)
    as (edges' & Hlist & Hall).
  destruct (create_instance_pipeline_run fuel i cn steps edges hs (VTuple hs)
              st st1 insts (or_intror eq_refl) Hrun Hnd Hedges)
    as (edges'' & Htuple & Hall').
  assert (Heq : edges'' = edges').
  { clear -Hall Hall'. revert edges'' Hall'.
    induction Hall as [| e e' es es' [Ha Hb] _ IH]; intros edges'' Hall'.
    - inversion Hall'; reflexivity.
    - inversion Hall' as [| e0 e'' es0 es'' [Ha' Hb'] Hrest]; subst.
      f_equal; [| apply IH; exact Hrest].
      destruct e' as [a b], e'' as [a' b']; simpl in *. congruence. }
  subst edges''.
  exists edges'. split; [exact Hlist |]. split; [exact Htuple |].
  split; [apply (steps_instantiated_length _ _ _ _ _ _ Hrun) |].
  split; [intros n s Hs; apply counterpart_position; assumption |].
  split; [exact Hall |].
  symmetry. eapply Forall2_length; exact Hall.
Qed.

Lemma pipeline_structure_preserved_witness :
  steps_instantiated (create_instance_from_hyperopt_search_space 2)
    [HyperoptExample.scaler; HyperoptExample.op_ab] [VDict 1; VDict 0]
    HyperoptExample.st0
    [HyperoptExample.scaler_instance; HyperoptExample.op_ab_instance]
    (mk_store (dicts HyperoptExample.st0) 12)
  /\ exists edges',
       create_instance_from_hyperopt_search_space 3
         (VOp HyperoptExample.pipeline) (VList [VDict 1; VDict 0])
         HyperoptExample.st0
       = (Ok (VOp (BasePipeline 12 TrainablePipeline_class_name
                     [HyperoptExample.scaler_instance;
                      HyperoptExample.op_ab_instance] edges')),
          mk_store (dicts HyperoptExample.st0) 13)
       /\ create_instance_from_hyperopt_search_space 3
            (VOp HyperoptExample.pipeline) (VTuple [VDict 1; VDict 0])
            HyperoptExample.st0
          = (Ok (VOp (BasePipeline 12 TrainablePipeline_class_name
                        [HyperoptExample.scaler_instance;
                         HyperoptExample.op_ab_instance] edges')),
             mk_store (dicts HyperoptExample.st0) 13)
       /\ length [HyperoptExample.scaler_instance; HyperoptExample.op_ab_instance]
          = length [HyperoptExample.scaler; HyperoptExample.op_ab]
       /\ (forall n s,
             [HyperoptExample.scaler; HyperoptExample.op_ab] !! n = Some s ->
             counterpart [HyperoptExample.scaler; HyperoptExample.op_ab]
               [HyperoptExample.scaler_instance; HyperoptExample.op_ab_instance] s
             = [HyperoptExample.scaler_instance; HyperoptExample.op_ab_instance] !! n)
       /\ Forall2 (remap_edge [HyperoptExample.scaler; HyperoptExample.op_ab]
                     [HyperoptExample.scaler_instance;
                      HyperoptExample.op_ab_instance])
            [(HyperoptExample.scaler, HyperoptExample.op_ab)] edges'
       /\ length edges' = length [(HyperoptExample.scaler, HyperoptExample.op_ab)].
Proof.
  assert (Hrun :
    steps_instantiated (create_instance_from_hyperopt_search_space 2)
      [HyperoptExample.scaler; HyperoptExample.op_ab] [VDict 1; VDict 0]
      HyperoptExample.st0
      [HyperoptExample.scaler_instance; HyperoptExample.op_ab_instance]
      (mk_store (dicts HyperoptExample.st0) 12)).
  { apply (steps_instantiated_cons _ _ _ _ _ _ _
             (mk_store (dicts HyperoptExample.st0) 11));
      [reflexivity | right; reflexivity |].
    apply (steps_instantiated_cons _ _ _ _ _ _ _
             (mk_store (dicts HyperoptExample.st0) 12));
      [reflexivity | right; reflexivity |].
    apply steps_instantiated_nil. }
  split; [exact Hrun |].
  apply (pipeline_structure_preserved 2 3 TrainablePipeline_class_name
           [HyperoptExample.scaler; HyperoptExample.op_ab]
           [(HyperoptExample.scaler, HyperoptExample.op_ab)]
           [VDict 1; VDict 0] HyperoptExample.st0
           (mk_store (dicts HyperoptExample.st0) 12)
           [HyperoptExample.scaler_instance; HyperoptExample.op_ab_instance]).
  - exact Hrun.
  - simpl. apply NoDup_cons. split; [| apply NoDup_singleton].
    intros Hin. apply list_elem_of_singleton in Hin. discriminate.
  - constructor; [| constructor]. simpl. split; auto.
Defined.

End PipelineClaims.

(** *** The list/tuple and dict cases of the walker *)

Section WalkerFacts.
Import Py Hyperopt.
Implicit Types (st : store) (res : option (list pyval)).

Lemma entries_run_length rec os ns st us st1 :
  entries_run rec os ns st us st1 ->
  length os = length ns /\ length us = length ns.
Proof. induction 1; simpl; [split; reflexivity | lia]. Qed.

Lemma apply_updates_none (ns us : list pyval) :
  length us = length ns -> any_update us = false -> apply_updates ns us = ns.
Proof.
  revert us; induction ns as [| n ns IH]; intros [| u us]; simpl;
    try reflexivity; try discriminate.
  intros [= Hlen] Hany. apply orb_false_iff in Hany as [Hu Hany].
  apply negb_false_iff in Hu. rewrite Hu. f_equal. apply IH; assumption.
Qed.

Lemma apply_updates_length (ns us : list pyval) :
  length us = length ns -> length (apply_updates ns us) = length ns.
Proof.
  intros Hlen. unfold apply_updates. rewrite length_zip_with. lia.
Qed.

(** The loop from position [length npre] on: [res], once created, is the
    sample with the updates found so far ([bpre]) in front. *)
Lemma seq_loop_spec rec (opre opost npre npost bpre : list pyval) res st us st1 :
  entries_run rec opost npost st us st1 ->
  length opre = length npre ->
  length bpre = length npre ->
  match res with
  | None => npre ++ npost
  | Some l => l
  end = bpre ++ npost ->
  seq_loop rec (opre ++ opost) (npre ++ npost)
    (seq (length npre) (length npost)) res st
  = (Ok (if any_update us then Some (bpre ++ apply_updates npost us) else res),
     st1).
Proof.
  intros Hrun. revert opre npre bpre res.
  induction Hrun as [st | o os n ns st u st1 us st2 Hrec Hrest IH];
    intros opre npre bpre res Hlo Hlb Hbase.
  - reflexivity.
  - cbn [length seq seq_loop].
    erewrite bind_Ok by (unfold lift; rewrite seq_getitem_middle; reflexivity).
    erewrite bind_Ok
      by (unfold lift; rewrite <- Hlo, seq_getitem_middle; reflexivity).
    erewrite bind_Ok by exact Hrec.
    cbv zeta. rewrite Hbase.
    assert (Hins : <[length npre := u]> (bpre ++ n :: ns) = bpre ++ u :: ns).
    { rewrite <- Hlb. rewrite insert_app_r_alt by lia.
      rewrite Nat.sub_diag. reflexivity. }
    rewrite Hins.
    specialize (IH (opre ++ [o]) (npre ++ [n])
                   (bpre ++ [if is_none u then n else u])
                   (if is_none u then res else Some (bpre ++ u :: ns))).
    rewrite <- !app_assoc in IH. cbn [app] in IH.
    rewrite !length_app in IH. cbn [length] in IH.
    rewrite !Nat.add_1_r in IH.
    rewrite IH; [| lia | lia |].
    + cbn [any_update existsb apply_updates zip_with].
      fold (any_update us). fold (apply_updates ns us).
      destruct (is_none u) eqn:Hu; cbn [negb orb]; [reflexivity |].
      destruct (any_update us) eqn:Hany; [reflexivity |].
      rewrite apply_updates_none;
        [reflexivity | apply (entries_run_length _ _ _ _ _ _ Hrest) | exact Hany].
    + destruct (is_none u); [| reflexivity].
      rewrite Hbase. reflexivity.
Qed.

(** The list/tuple case, given what the recursive calls return. *)
Lemma instantiate_seq (fuel : nat) (obj_tuple new_tuple : bool)
    (objs news us : list pyval) st st1 :
  entries_run (instantiate_from_hyperopt_search_space fuel) objs news st us st1 ->
  instantiate_from_hyperopt_search_space (S fuel)
    (seq_val obj_tuple objs) (seq_val new_tuple news) st
  = (Ok (if any_update us then seq_val obj_tuple (apply_updates news us)
         else if negb (Bool.eqb obj_tuple new_tuple) then seq_val obj_tuple news
              else VNone), st1).
Proof.
  intros Hrun.
  destruct (entries_run_length _ _ _ _ _ _ Hrun) as [Hlen _].
  pose proof (seq_loop_spec _ [] objs [] news [] None st us st1 Hrun
                eq_refl eq_refl eq_refl) as Hloop.
  cbn [app length] in Hloop.
  destruct obj_tuple, new_tuple;
    cbn [seq_val instantiate_from_hyperopt_search_space instantiate_body];
    (erewrite bind_Ok by reflexivity);
    (erewrite bind_Ok
       by (unfold py_assert; rewrite <- Hlen, Nat.eqb_refl; reflexivity));
    (erewrite bind_Ok by exact Hloop);
    destruct (any_update us); reflexivity.
Qed.

(** The dict case returns None, whatever was updated. *)
Lemma instantiate_dict_returns_none (fuel : nat) (obj : pyval) (r : nat)
    st v st' :
  instantiate_from_hyperopt_search_space (S fuel) obj (VDict r) st = (Ok v, st') ->
  v = VNone.
Proof.
  destruct obj; try discriminate.
  rewrite instantiate_dict. intros Hrun.
  apply bind_Ok_inv in Hrun as (d & s1 & _ & Hrun).
  apply bind_Ok_inv in Hrun as (u & s2 & _ & Hrun).
  injection Hrun as <- _. reflexivity.
Qed.

(** An update found for a key of the sample dict is assigned to that
    key of the dict object, and the loop goes on. *)
Lemma dict_loop_update rec (r_obj r_new : nat) (k : key) (ks : list key)
    (d d_obj d1 : dict) (sub_params sub_op u : pyval) st st1 :
  dicts st !! r_new = Some d -> dict_get d k = Some sub_params ->
  dicts st !! r_obj = Some d_obj -> dict_get d_obj k = Some sub_op ->
  rec sub_op sub_params st = (Ok u, st1) ->
  is_none u = false ->
  dicts st1 !! r_new = Some d1 ->
  dict_loop rec r_obj r_new (k :: ks) st
  = dict_loop rec r_obj r_new ks
      (mk_store (<[r_new := dict_set d1 k u]> (dicts st1)) (next_oid st1)).
Proof.
  intros Hnew Hk Hobj Hko Hrec Hu Hnew1.
  cbn [dict_loop].
  erewrite bind_Ok by (unfold read_dict; rewrite Hnew; reflexivity).
  rewrite Hk. erewrite bind_Ok by reflexivity.
  erewrite bind_Ok by (unfold read_dict; rewrite Hobj; reflexivity).
  rewrite Hko.
  erewrite bind_Ok; [reflexivity |].
  erewrite bind_Ok by exact Hrec.
  rewrite Hu. unfold setitem. rewrite Hnew1. reflexivity.
Qed.

End WalkerFacts.

Section WalkerClaims.
Import Py Hyperopt.

(** The sample mapping [{'est': NestedHyperoptSpace({'a': 9})}] is matched
    with [{'est': op_ab}].  The recursive call on the entry yields an
    update, the instantiated operator; it is assigned to the sample
    mapping, and the call itself returns None. *)
Lemma mapping_update_returns_none_counterexample :
  dicts HyperoptExample.st0 !! 4%nat = Some [(KStr "est", VNested (VDict 3))]
  /\ dicts HyperoptExample.st0 !! 5%nat
     = Some [(KStr "est", VOp HyperoptExample.op_ab)]
  /\ instantiate_from_hyperopt_search_space 3
       (VOp HyperoptExample.op_ab) (VNested (VDict 3)) HyperoptExample.st0
     = (Ok (VOp HyperoptExample.op_ab_updated),
        mk_store (dicts HyperoptExample.st0) 11)
  /\ instantiate_from_hyperopt_search_space 4 (VDict 5) (VDict 4)
       HyperoptExample.st0
     = (Ok VNone,
        mk_store (<[4%nat := [(KStr "est", VOp HyperoptExample.op_ab_updated)]]>
                    (dicts HyperoptExample.st0)) 11).
Proof.
  split; [reflexivity |]. split; [reflexivity |]. split; [reflexivity |].
  vm_compute. reflexivity.
Qed.

(** C1 (amended).  The walker returns None for a sample that is neither a
    marker nor a list, tuple or mapping, and for every mapping sample: an
    update found for a key is assigned to the sample mapping itself and
    is not returned.  For a list or tuple sample it returns None exactly
    when no recursive call on an entry yields an update and the sample has
    the container kind of the original; when only the kinds differ it
    returns the sample as a container of the original's kind; when some
    call yields an update it returns the container of the original's kind
    with the updated entries replaced.  For a marker it returns what
    [create_instance_from_hyperopt_search_space] returns. *)
Theorem walker_returns_none_or_update :
  (forall (fuel : nat) (obj new : pyval) (st : store),
      is_plain new = true ->
      instantiate_from_hyperopt_search_space (S fuel) obj new st = (Ok VNone, st))
  /\ (forall (fuel : nat) (obj_tuple new_tuple : bool)
            (objs news us : list pyval) (st st1 : store),
        entries_run (instantiate_from_hyperopt_search_space fuel)
          objs news st us st1 ->
        exists v,
          instantiate_from_hyperopt_search_space (S fuel)
            (seq_val obj_tuple objs) (seq_val new_tuple news) st = (Ok v, st1)
          /\ (any_update us = true ->
              v = seq_val obj_tuple (apply_updates news us))
          /\ (any_update us = false -> obj_tuple <> new_tuple ->
              v = seq_val obj_tuple news)
          /\ (v = VNone <-> any_update us = false /\ obj_tuple = new_tuple))
  /\ (forall (fuel : nat) (obj : pyval) (r : nat) (st st' : store) (v : pyval),
        instantiate_from_hyperopt_search_space (S fuel) obj (VDict r) st
        = (Ok v, st') ->
        v = VNone)
  /\ (forall (fuel r_obj r_new : nat) (k : key) (ks : list key)
            (d d_obj d1 : dict) (sub_params sub_op u : pyval) (st st1 : store),
        dicts st !! r_new = Some d -> dict_get d k = Some sub_params ->
        dicts st !! r_obj = Some d_obj -> dict_get d_obj k = Some sub_op ->
        instantiate_from_hyperopt_search_space fuel sub_op sub_params st
        = (Ok u, st1) ->
        is_none u = false ->
        dicts st1 !! r_new = Some d1 ->
        dict_loop (instantiate_from_hyperopt_search_space fuel)
          r_obj r_new (k :: ks) st
        = dict_loop (instantiate_from_hyperopt_search_space fuel) r_obj r_new ks
            (mk_store (<[r_new := dict_set d1 k u]> (dicts st1)) (next_oid st1)))
  /\ (forall (fuel : nat) (obj sub_space : pyval),
        (forall l, obj <> VList l) ->
        instantiate_from_hyperopt_search_space (S fuel) obj (VNested sub_space)
        = create_instance_from_hyperopt_search_space fuel obj sub_space)
  /\ (forall (fuel : nat) (x sub_space : pyval),
        instantiate_from_hyperopt_search_space (S fuel) (VList [x])
          (VNested sub_space)
        = create_instance_from_hyperopt_search_space fuel x sub_space).
Proof.
  split; [| split; [| split; [| split; [| split]]]].
  - intros fuel obj new st Hplain. rewrite instantiate_plain by exact Hplain.
    reflexivity.
  - intros fuel obj_tuple new_tuple objs news us st st1 Hrun.
    eexists. split; [apply instantiate_seq; exact Hrun |].
    destruct (entries_run_length _ _ _ _ _ _ Hrun) as [_ Hlen].
    destruct (any_update us) eqn:Hany.
    + split; [reflexivity |]. split; [discriminate |].
      split; [| intros [? _]; discriminate].
      destruct obj_tuple; discriminate.
    + split; [discriminate |]. split.
      * intros _ Hne. destruct obj_tuple, new_tuple; try reflexivity;
          exfalso; apply Hne; reflexivity.
      * destruct obj_tuple, new_tuple; cbn; split; try discriminate;
          try (intros [_ ?]; discriminate); auto.
  - intros fuel obj r st st' v. apply instantiate_dict_returns_none.
  - intros fuel r_obj r_new k ks d d_obj d1 sub_params sub_op u st st1.
    apply dict_loop_update.
  - intros fuel obj sub_space Hobj.
    destruct obj; try reflexivity. exfalso; eapply Hobj; reflexivity.
  - intros fuel x sub_space. reflexivity.
Qed.

Lemma walker_returns_none_or_update_witness :
  entries_run (instantiate_from_hyperopt_search_space 3)
    [VOp HyperoptExample.op_ab; VInt 1] [VNested (VDict 3); VInt 5]
    HyperoptExample.st0
    [VOp HyperoptExample.op_ab_updated; VNone]
    (mk_store (dicts HyperoptExample.st0) 11)
  /\ exists v,
       instantiate_from_hyperopt_search_space 4
         (seq_val true [VOp HyperoptExample.op_ab; VInt 1])
         (seq_val false [VNested (VDict 3); VInt 5]) HyperoptExample.st0
       = (Ok v, mk_store (dicts HyperoptExample.st0) 11)
       /\ (any_update [VOp HyperoptExample.op_ab_updated; VNone] = true ->
           v = seq_val true
                 (apply_updates [VNested (VDict 3); VInt 5]
                    [VOp HyperoptExample.op_ab_updated; VNone]))
       /\ (any_update [VOp HyperoptExample.op_ab_updated; VNone] = false ->
           true <> false ->
           v = seq_val true [VNested (VDict 3); VInt 5])
       /\ (v = VNone <->
           any_update [VOp HyperoptExample.op_ab_updated; VNone] = false
           /\ true = false).
Proof.
  assert (Hrun :
    entries_run (instantiate_from_hyperopt_search_space 3)
      [VOp HyperoptExample.op_ab; VInt 1] [VNested (VDict 3); VInt 5]
      HyperoptExample.st0
      [VOp HyperoptExample.op_ab_updated; VNone]
      (mk_store (dicts HyperoptExample.st0) 11)).
  { apply (entries_run_cons _ _ _ _ _ _ _
             (mk_store (dicts HyperoptExample.st0) 11)); [reflexivity |].
    apply (entries_run_cons _ _ _ _ _ _ _
             (mk_store (dicts HyperoptExample.st0) 11)); [reflexivity |].
    apply entries_run_nil. }
  split; [exact Hrun |].
  apply (proj1 (proj2 walker_returns_none_or_update) 3%nat true false
           [VOp HyperoptExample.op_ab; VInt 1] [VNested (VDict 3); VInt 5]
           [VOp HyperoptExample.op_ab_updated; VNone]
           HyperoptExample.st0 (mk_store (dicts HyperoptExample.st0) 11)).
  exact Hrun.
Defined.

End WalkerClaims.

(* ===================================================================== *)
(** * Part III: further properties of the code                            *)
(* ===================================================================== *)

(** ** [dict_without] *)

Section DictWithoutFacts.
Import Py Hyperopt.
Implicit Types (d acc : dict) (k : key) (v : pyval) (st : store).

Lemma dict_set_fresh acc k v :
  ~ In k (map fst acc) -> dict_set acc k v = acc ++ [(k, v)].
Proof.
  induction acc as [| [k0 v0] acc IH]; simpl; [reflexivity |].
  intros Hk. destruct (key_eqb k0 k) eqn:Hk0.
  - apply key_eqb_eq in Hk0. exfalso; apply Hk; left; exact Hk0.
  - f_equal. apply IH. intros Hin; apply Hk; right; exact Hin.
Qed.

Lemma filter_keys_subset (f : key * pyval -> bool) d k :
  In k (map fst (List.filter f d)) -> In k (map fst d).
Proof.
  intros Hin. apply in_map_iff in Hin as [kv [<- Hkv]].
  apply List.filter_In in Hkv as [Hkv _]. apply in_map; exact Hkv.
Qed.

(** With distinct keys, [dict_without] keeps the items whose key differs
    from [key], in their order. *)
Lemma dict_without_dict_filter d (key : string) :
  NoDup (map fst d) ->
  dict_without_dict d key
  = List.filter (fun kv => negb (key_eqb (fst kv) (KStr key))) d.
Proof.
  intros Hnd. unfold dict_without_dict.
  set (f := fun kv : Hyperopt.key * pyval => negb (key_eqb (fst kv) (KStr key))).
  assert (Hgen : forall d' pre, d = pre ++ d' ->
    fold_left (fun acc k =>
                 if key_eqb k (KStr key) then acc
                 else match dict_get d k with
                      | Some v => dict_set acc k v
                      | None => acc
                      end) (map fst d') (List.filter f pre)
    = List.filter f d).
  { induction d' as [| [k v] d' IH]; intros pre Hd.
    - rewrite app_nil_r in Hd. subst pre. reflexivity.
    - cbn [map fold_left fst].
      assert (Hin : In (k, v) d).
      { rewrite Hd. apply in_or_app. right; left; reflexivity. }
      assert (Hpre : ~ In k (map fst pre)).
      { rewrite Hd, map_app in Hnd. cbn [map fst] in Hnd.
        apply NoDup_app in Hnd as (_ & Hdisj & _).
        intros Hk. apply (Hdisj k); [apply list_elem_of_In; exact Hk |].
        apply elem_of_cons; left; reflexivity. }
      specialize (IH (pre ++ [(k, v)])).
      rewrite <- app_assoc in IH. specialize (IH Hd).
      rewrite List.filter_app in IH. cbn [List.filter] in IH.
      unfold f at 2 in IH. cbn [fst] in IH.
      destruct (key_eqb k (KStr key)) eqn:Hk; cbn [negb] in IH.
      + rewrite app_nil_r in IH. exact IH.
      + rewrite (dict_get_In _ _ _ Hnd Hin).
        rewrite dict_set_fresh; [exact IH |].
        intros Hk'. apply Hpre. eapply filter_keys_subset; exact Hk'. }
  apply (Hgen d []). reflexivity.
Qed.

Lemma filter_all_true {A} (f : A -> bool) (l : list A) :
  (forall x, In x l -> f x = true) -> List.filter f l = l.
Proof.
  induction l as [| x l IH]; intros Hall; simpl; [reflexivity |].
  rewrite (Hall x) by (left; reflexivity). f_equal.
  apply IH. intros y Hy; apply Hall; right; exact Hy.
Qed.

(** X1.  [dict_without] of a dict returns a new dict with the items whose key
    is not [key], in their order; the dict itself is not changed; without
    the key in the dict the result has the same items. *)
Theorem dict_without_filters (r : nat) d (key : string) st :
  dicts st !! r = Some d ->
  NoDup (map fst d) ->
  dict_without (VDict r) key st
  = (Ok (List.filter (fun kv => negb (key_eqb (fst kv) (KStr key))) d), st)
  /\ (dict_get d (KStr key) = None -> dict_without (VDict r) key st = (Ok d, st)).
Proof.
  intros Hr Hnd.
  rewrite (dict_without_run _ _ _ _ Hr), (dict_without_dict_filter _ _ Hnd).
  split; [reflexivity |].
  intros Hnone. rewrite filter_all_true; [reflexivity |].
  intros [k v] Hin. cbn [fst]. apply negb_true_iff, key_eqb_neq.
  intros ->. apply dict_get_None in Hnone. apply Hnone.
  apply (in_map fst) in Hin. exact Hin.
Qed.

Lemma dict_without_filters_witness :
  dicts HyperoptExample.st0 !! 0%nat
    = Some [(KStr "name", VStr "op"); (KStr "a", VInt 9)]
  /\ dict_without (VDict 0) "name" HyperoptExample.st0
     = (Ok [(KStr "a", VInt 9)], HyperoptExample.st0).
Proof.
  split; [reflexivity |].
  refine (proj1 (dict_without_filters 0
                   [(KStr "name", VStr "op"); (KStr "a", VInt 9)] "name"
                   HyperoptExample.st0 eq_refl _)).
  apply NoDup_cons. split; [| apply NoDup_singleton].
  intros Hin. apply list_elem_of_singleton in Hin. discriminate.
Defined.

End DictWithoutFacts.

(** ** What the instantiator returns and raises *)

Section InstantiatorFacts.
Import Py Hyperopt.
Implicit Types (st : store) (o : operator).

Lemma TrainablePipeline_Ok steps edges st v st' :
  TrainablePipeline steps edges st = (Ok v, st') -> exists o, v = VOp o.
Proof.
  unfold TrainablePipeline.
  destruct (mapM as_operator steps); [| discriminate].
  destruct (mapM as_edge edges); [| discriminate].
  intros [= <- _]. eexists; reflexivity.
Qed.

(** X2.  Instantiating an operator returns an operator, never None; anything
    that is not an operator gives None. *)
Theorem create_instance_returns_operator (fuel : nat) :
  (forall o hyperparams st v st',
      create_instance_from_hyperopt_search_space fuel (VOp o) hyperparams st
      = (Ok v, st') ->
      exists o', v = VOp o')
  /\ (forall lale_object hyperparams st,
        as_operator lale_object = None ->
        create_instance_from_hyperopt_search_space (S fuel) lale_object
          hyperparams st = (Ok VNone, st)).
Proof.
  split.
  - induction fuel as [| fuel IH]; intros o hyperparams st v st' Hrun;
      [discriminate |].
    destruct o as [i cn hp | i cn steps edges | i cn choices].
    + rewrite create_instance_individual in Hrun.
      apply bind_Ok_inv in Hrun as (new & s1 & _ & Hrun).
      apply bind_Ok_inv in Hrun as (new' & s2 & _ & Hrun).
      apply call_individual_op_Ok in Hrun as (-> & _ & _).
      eexists; reflexivity.
    + rewrite create_instance_pipeline in Hrun.
      apply bind_Ok_inv in Hrun as (n & s1 & _ & Hrun).
      destruct (negb _); [discriminate |].
      apply bind_Ok_inv in Hrun as (items & s2 & _ & Hrun).
      apply bind_Ok_inv in Hrun as ([insts m] & s3 & _ & Hrun).
      apply bind_Ok_inv in Hrun as (es & s4 & _ & Hrun).
      eapply TrainablePipeline_Ok; exact Hrun.
    + rewrite create_instance_choice in Hrun.
      apply bind_Ok_inv in Hrun as ([step_index hp'] & s1 & _ & Hrun).
      apply bind_Ok_inv in Hrun as (step_object & s2 & _ & Hrun).
      eapply IH; exact Hrun.
  - intros lale_object hyperparams st Hnot.
    destruct lale_object; try reflexivity. discriminate.
Qed.

Lemma create_instance_returns_operator_witness :
  create_instance_from_hyperopt_search_space 3
    (VOp HyperoptExample.pipeline) HyperoptExample.pipeline_sample
    HyperoptExample.st0
  = (Ok (VOp (BasePipeline 12 TrainablePipeline_class_name
                [HyperoptExample.scaler_instance; HyperoptExample.op_ab_instance]
                [(HyperoptExample.scaler_instance,
                  HyperoptExample.op_ab_instance)])),
     mk_store (dicts HyperoptExample.st0) 13)
  /\ (exists o',
        VOp (BasePipeline 12 TrainablePipeline_class_name
               [HyperoptExample.scaler_instance; HyperoptExample.op_ab_instance]
               [(HyperoptExample.scaler_instance,
                 HyperoptExample.op_ab_instance)]) = VOp o')
  /\ create_instance_from_hyperopt_search_space 1 (VInt 5) (VDict 3)
       HyperoptExample.st0 = (Ok VNone, HyperoptExample.st0).
Proof.
  split; [reflexivity |]. split.
  - apply (proj1 (create_instance_returns_operator 3) HyperoptExample.pipeline
             HyperoptExample.pipeline_sample HyperoptExample.st0 _
             (mk_store (dicts HyperoptExample.st0) 13)).
    reflexivity.
  - apply (proj2 (create_instance_returns_operator 0)). reflexivity.
Defined.

End InstantiatorFacts.

(** ** Edges that leave the pipeline *)

Section DanglingEdgeFacts.
Import Py Hyperopt HyperoptInvariants.
Implicit Types (st : store) (m : gmap nat pyval) (x : operator).

Lemma op_map_of_not_step steps insts m x :
  ~ In (oid x) (map oid steps) ->
  op_map_of steps insts m !! oid x = m !! oid x.
Proof.
  unfold op_map_of. revert insts m.
  induction steps as [| s steps IH]; intros insts m Hx; [reflexivity |].
  destruct insts as [| i insts]; [reflexivity |]. cbn [zip zip_with fold_left fst snd].
  rewrite IH by (intros Hin; apply Hx; right; exact Hin).
  apply lookup_insert_ne. intros Heq. apply Hx. left; exact Heq.
Qed.

Lemma omapM_raises {A B} (f : A -> outcome B) (e : exn) (l : list A) :
  (forall a, In a l -> (exists b, f a = Ok b) \/ f a = Raise e) ->
  (exists a, In a l /\ f a = Raise e) ->
  omapM f l = Raise e.
Proof.
  induction l as [| a0 l IH]; intros Hall [y [Hy Hfy]]; [contradiction |].
  cbn [omapM].
  destruct (Hall a0 (or_introl eq_refl)) as [[b Hb] | Ha0].
  - rewrite Hb. cbn [obind]. rewrite IH; [reflexivity | |].
    + intros z Hz; apply Hall; right; exact Hz.
    + destruct Hy as [-> | Hy]; [congruence |]. exists y; split; assumption.
  - rewrite Ha0. reflexivity.
Qed.

(** X3.  When the steps instantiate but some edge has an endpoint that is not
    a step of the pipeline, the KeyError of the lookup comes out as the
    ValueError of the dangling edge, after all steps were instantiated. *)
Theorem dangling_edge_raises (fuel i : nat) (cn : string)
    (steps : list operator) (edges : list (operator * operator))
    (hs : list pyval) st st1 (insts : list operator) :
  steps_instantiated (create_instance_from_hyperopt_search_space fuel)
    steps hs st insts st1 ->
  Exists (fun e => ~ In (oid (fst e)) (map oid steps)
                   \/ ~ In (oid (snd e)) (map oid steps)) edges ->
  create_instance_from_hyperopt_search_space (S fuel)
    (VOp (BasePipeline i cn steps edges)) (VList hs) st
  = (Raise dangling_edge, st1).
Proof.
  intros Hrun Hdangling.
  destruct (steps_instantiated_length _ _ _ _ _ _ Hrun) as [Hlen _].
  rewrite create_instance_pipeline.
  erewrite bind_Ok by reflexivity.
  rewrite Hlen, Nat.eqb_refl. cbn [negb].
  erewrite bind_Ok by reflexivity.
  erewrite bind_Ok by (apply (pipeline_loop_spec _ []); exact Hrun).
  cbn [app].
  assert (Hremap : remap_edges (op_map_of steps insts ∅) edges = Raise dangling_edge).
  { unfold remap_edges. apply omapM_raises.
    - intros e _.
      destruct (op_map_of steps insts ∅ !! oid e.1); [| right; reflexivity].
      destruct (op_map_of steps insts ∅ !! oid e.2); [| right; reflexivity].
      left; eexists; reflexivity.
    - apply Exists_exists in Hdangling as (e & He & Hend).
      exists e. split; [apply list_elem_of_In; exact He |].
      destruct Hend as [Ha | Hb].
      + rewrite (op_map_of_not_step _ _ _ _ Ha), lookup_empty. reflexivity.
      + rewrite (op_map_of_not_step _ _ _ (snd e) Hb), lookup_empty.
        destruct (op_map_of steps insts ∅ !! oid e.1); reflexivity. }
  unfold bind, lift. rewrite Hremap. reflexivity.
Qed.

Lemma dangling_edge_raises_witness :
  steps_instantiated (create_instance_from_hyperopt_search_space 2)
    [HyperoptExample.scaler] [VDict 1] HyperoptExample.st0
    [HyperoptExample.scaler_instance]
    (mk_store (dicts HyperoptExample.st0) 11)
  /\ create_instance_from_hyperopt_search_space 3
       (VOp (BasePipeline 3 TrainablePipeline_class_name
               [HyperoptExample.scaler]
               [(HyperoptExample.scaler, HyperoptExample.op_ab)]))
       (VList [VDict 1]) HyperoptExample.st0
     = (Raise dangling_edge, mk_store (dicts HyperoptExample.st0) 11).
Proof.
  assert (Hrun :
    steps_instantiated (create_instance_from_hyperopt_search_space 2)
      [HyperoptExample.scaler] [VDict 1] HyperoptExample.st0
      [HyperoptExample.scaler_instance]
      (mk_store (dicts HyperoptExample.st0) 11)).
  { apply (steps_instantiated_cons _ _ _ _ _ _ _
             (mk_store (dicts HyperoptExample.st0) 11));
      [reflexivity | right; reflexivity | apply steps_instantiated_nil]. }
  split; [exact Hrun |].
  apply (dangling_edge_raises 2 3 TrainablePipeline_class_name
           [HyperoptExample.scaler]
           [(HyperoptExample.scaler, HyperoptExample.op_ab)]
           [VDict 1] HyperoptExample.st0
           (mk_store (dicts HyperoptExample.st0) 11)
           [HyperoptExample.scaler_instance] Hrun).
  apply Exists_cons_hd. right. cbn. intros [Heq | []]. discriminate.
Defined.

End DanglingEdgeFacts.

(** ** The index of the chosen alternative *)

Section ChoiceIndexFacts.
Import Py Hyperopt.
Implicit Types (st : store).

(** A negative index counts from the end. *)
Lemma seq_getitem_negative {A} (l : list A) (k : nat) (a : A) :
  l !! k = Some a ->
  seq_getitem l (Z.of_nat k - Z.of_nat (length l)) = Ok a.
Proof.
  intros Hk. pose proof (lookup_lt_Some _ _ _ Hk) as Hlt.
  unfold seq_getitem.
  destruct (Z.ltb_spec (Z.of_nat k - Z.of_nat (length l)) 0); [| lia].
  replace (Z.of_nat k - Z.of_nat (length l) + Z.of_nat (length l))
    with (Z.of_nat k) by lia.
  destruct (Z.ltb_spec (Z.of_nat k) 0); [lia |].
  destruct (Z.leb_spec (Z.of_nat (length l)) (Z.of_nat k)); [lia |].
  cbn [orb]. rewrite Nat2Z.id, Hk. reflexivity.
Qed.

Lemma seq_getitem_out_of_range {A} (l : list A) (i : Z) :
  Z.of_nat (length l) <= i \/ i < - Z.of_nat (length l) ->
  seq_getitem l i = Raise IndexError.
Proof.
  intros Hi. unfold seq_getitem.
  destruct (Z.ltb_spec i 0).
  - destruct (Z.ltb_spec (i + Z.of_nat (length l)) 0); [reflexivity | lia].
  - destruct (Z.ltb_spec i 0); [lia |].
    destruct (Z.leb_spec (Z.of_nat (length l)) i); [reflexivity | lia].
Qed.

(** X4.  For a choice whose number of alternatives is not one, the sample must
    be a mapping and its first key selects the alternative the way a list
    index does: [-1] is the last alternative, an index beyond either end
    raises IndexError, and so does a mapping without items; a string key
    raises TypeError, a list instead of a mapping AttributeError. *)
Theorem choice_index_selects (fuel i : nat) (cn : string)
    (choices : list operator) st :
  length choices <> 1%nat ->
  (forall r (k : nat) alt sample rest,
      dicts st !! r
        = Some ((KInt (Z.of_nat k - Z.of_nat (length choices)), sample) :: rest) ->
      choices !! k = Some alt ->
      create_instance_from_hyperopt_search_space (S fuel)
        (VOp (OperatorChoice i cn choices)) (VDict r) st
      = create_instance_from_hyperopt_search_space fuel (VOp alt) sample st)
  /\ (forall r (index : Z) sample rest,
        dicts st !! r = Some ((KInt index, sample) :: rest) ->
        Z.of_nat (length choices) <= index
        \/ index < - Z.of_nat (length choices) ->
        create_instance_from_hyperopt_search_space (S fuel)
          (VOp (OperatorChoice i cn choices)) (VDict r) st
        = (Raise IndexError, st))
  /\ (forall r,
        dicts st !! r = Some [] ->
        create_instance_from_hyperopt_search_space (S fuel)
          (VOp (OperatorChoice i cn choices)) (VDict r) st
        = (Raise IndexError, st))
  /\ (forall r (name : string) sample rest,
        dicts st !! r = Some ((KStr name, sample) :: rest) ->
        create_instance_from_hyperopt_search_space (S fuel)
          (VOp (OperatorChoice i cn choices)) (VDict r) st
        = (Raise TypeError, st))
  /\ (forall hs,
        create_instance_from_hyperopt_search_space (S fuel)
          (VOp (OperatorChoice i cn choices)) (VList hs) st
        = (Raise AttributeError, st)).
Proof.
  intros Hlen.
  assert (Hne : Nat.eqb (length choices) 1 = false)
    by (apply Nat.eqb_neq; exact Hlen).
  split; [| split; [| split; [| split]]].
  - intros r k alt sample rest Hr Halt.
    rewrite create_instance_choice, Hne.
    unfold bind, read_dict, lift, ret. rewrite Hr.
    change (seq_getitem ((KInt (Z.of_nat k - Z.of_nat (length choices)), sample)
                           :: rest) 0)
      with (Ok (A := key * pyval)
              (KInt (Z.of_nat k - Z.of_nat (length choices)), sample)).
    cbn [key_to_val fst snd].
    rewrite (seq_getitem_negative _ _ _ Halt). reflexivity.
  - intros r index sample rest Hr Hout.
    rewrite create_instance_choice, Hne.
    unfold bind, read_dict, lift, ret. rewrite Hr.
    change (seq_getitem ((KInt index, sample) :: rest) 0)
      with (Ok (A := key * pyval) (KInt index, sample)).
    cbn [key_to_val fst snd].
    rewrite (seq_getitem_out_of_range _ _ Hout). reflexivity.
  - intros r Hr. rewrite create_instance_choice, Hne.
    unfold bind, read_dict, lift, ret. rewrite Hr. reflexivity.
  - intros r name sample rest Hr. rewrite create_instance_choice, Hne.
    unfold bind, read_dict, lift, ret. rewrite Hr. reflexivity.
  - intros hs. rewrite create_instance_choice, Hne. reflexivity.
Qed.

Lemma choice_index_selects_witness :
  length [HyperoptExample.scaler; HyperoptExample.op_ab] <> 1%nat
  /\ dicts HyperoptExample2.st1 !! 0%nat = Some [(KInt (-1), VDict 2)]
  /\ create_instance_from_hyperopt_search_space 3
       (VOp HyperoptExample.two_choice) (VDict 0) HyperoptExample2.st1
     = create_instance_from_hyperopt_search_space 2
         (VOp HyperoptExample.op_ab) (VDict 2) HyperoptExample2.st1
  /\ create_instance_from_hyperopt_search_space 3
       (VOp HyperoptExample.two_choice) (VDict 1) HyperoptExample2.st1
     = (Raise IndexError, HyperoptExample2.st1).
Proof.
  split; [simpl; lia |]. split; [reflexivity |].
  pose proof (choice_index_selects 2 6 "lale.operators.OperatorChoice"
                [HyperoptExample.scaler; HyperoptExample.op_ab]
                HyperoptExample2.st1 ltac:(simpl; lia)) as H.
  split.
  - exact (proj1 H 0%nat 1%nat HyperoptExample.op_ab (VDict 2) []
             eq_refl eq_refl).
  - refine (proj1 (proj2 H) 1%nat 5 (VDict 2) [] eq_refl _). simpl; lia.
Defined.

End ChoiceIndexFacts.

(** ** Markers, and samples without any *)

Section MarkerFacts.
Import Py Hyperopt.
Implicit Types (st : store).

Lemma resolve_marker_alternatives (l : list pyval) (t1 t2 : bool) (idx : Z)
    (params : pyval) (rest : list pyval) st :
  length l <> 1%nat ->
  resolve_marker (VList l)
    (seq_val t1 (seq_val t2 [VInt idx; params] :: rest)) st
  = if idx <? Z.of_nat (length l) then
      match seq_getitem l idx with
      | Ok x => (Ok (x, params), st)
      | Raise e => (Raise e, st)
      | OutOfFuel => (OutOfFuel, st)
      | Stuck => (Stuck, st)
      end
    else (Ok (VList l,
              seq_val t1 (seq_val t2 [VInt idx; params] :: rest)), st).
Proof.
  intros Hlen. unfold resolve_marker.
  assert (Hiter : py_iter (seq_val t1 (seq_val t2 [VInt idx; params] :: rest)) st
                  = (Ok (seq_val t2 [VInt idx; params] :: rest), st))
    by (destruct t1; reflexivity).
  assert (Hunpack : unpack2 (seq_val t2 [VInt idx; params]) st
                    = (Ok (VInt idx, params), st))
    by (destruct t2; reflexivity).
  assert (Hbody :
    (let* items := py_iter (seq_val t1 (seq_val t2 [VInt idx; params] :: rest)) in
     let* first := lift (seq_getitem items 0) in
     let* (step_index, step_params) := unpack2 first in
     let* lt := lift (py_lt_int step_index (Z.of_nat (length l))) in
     if lt then
       let* x := py_getitem (VList l) step_index in
       ret (x, step_params)
     else ret (VList l,
               seq_val t1 (seq_val t2 [VInt idx; params] :: rest))) st
    = if idx <? Z.of_nat (length l) then
        match seq_getitem l idx with
        | Ok x => (Ok (x, params), st)
        | Raise e => (Raise e, st)
        | OutOfFuel => (OutOfFuel, st)
        | Stuck => (Stuck, st)
        end
      else (Ok (VList l,
                seq_val t1 (seq_val t2 [VInt idx; params] :: rest)), st)).
  { erewrite bind_Ok by exact Hiter.
    erewrite bind_Ok by reflexivity.
    erewrite bind_Ok by exact Hunpack.
    cbv beta iota.
    erewrite bind_Ok by reflexivity.
    cbn [py_lt_int].
    destruct (idx <? Z.of_nat (length l)); [| reflexivity].
    unfold bind, py_getitem, lift, ret.
    destruct (seq_getitem l idx); reflexivity. }
  destruct l as [| x [| y l']]; [exact Hbody | contradiction | exact Hbody].
Qed.

(** X5.  A marker met with a list of alternatives that is not a singleton takes
    the first pair [(index, params)] of its sub-space: an index within the
    list instantiates that alternative with [params]; an index at or
    beyond the end selects nothing, the list itself is "instantiated" and
    the walker returns None, without an error. *)
Theorem marker_against_alternatives (fuel : nat) (l : list pyval)
    (t1 t2 : bool) (idx : Z) (params : pyval) (rest : list pyval) st :
  length l <> 1%nat ->
  (forall (k : nat) x,
      idx = Z.of_nat k -> l !! k = Some x ->
      instantiate_from_hyperopt_search_space (S fuel) (VList l)
        (VNested (seq_val t1 (seq_val t2 [VInt idx; params] :: rest))) st
      = create_instance_from_hyperopt_search_space fuel x params st)
  /\ (Z.of_nat (length l) <= idx ->
      instantiate_from_hyperopt_search_space (S (S fuel)) (VList l)
        (VNested (seq_val t1 (seq_val t2 [VInt idx; params] :: rest))) st
      = (Ok VNone, st)).
Proof.
  intros Hlen. split.
  - intros k x -> Hx.
    pose proof (lookup_lt_Some _ _ _ Hx) as Hlt.
    change (instantiate_from_hyperopt_search_space (S fuel) (VList l)
              (VNested (seq_val t1 (seq_val t2 [VInt (Z.of_nat k); params] :: rest)))
              st)
      with ((let* (sub_op, sub_params) :=
               resolve_marker (VList l)
                 (seq_val t1 (seq_val t2 [VInt (Z.of_nat k); params] :: rest)) in
             create_instance_from_hyperopt_search_space fuel sub_op sub_params)
              st).
    erewrite bind_Ok
      by (rewrite (resolve_marker_alternatives _ _ _ _ _ _ _ Hlen);
          destruct (Z.ltb_spec (Z.of_nat k) (Z.of_nat (length l))); [| lia];
          rewrite (seq_getitem_lookup _ _ _ Hx); reflexivity).
    reflexivity.
  - intros Hout.
    change (instantiate_from_hyperopt_search_space (S (S fuel)) (VList l)
              (VNested (seq_val t1 (seq_val t2 [VInt idx; params] :: rest))) st)
      with ((let* (sub_op, sub_params) :=
               resolve_marker (VList l)
                 (seq_val t1 (seq_val t2 [VInt idx; params] :: rest)) in
             create_instance_from_hyperopt_search_space (S fuel) sub_op sub_params)
              st).
    erewrite bind_Ok
      by (rewrite (resolve_marker_alternatives _ _ _ _ _ _ _ Hlen);
          destruct (Z.ltb_spec idx (Z.of_nat (length l))); [lia | reflexivity]).
    reflexivity.
Qed.

Lemma marker_against_alternatives_witness :
  length [VOp HyperoptExample.scaler; VOp HyperoptExample.op_ab] <> 1%nat
  /\ instantiate_from_hyperopt_search_space 3
       (VList [VOp HyperoptExample.scaler; VOp HyperoptExample.op_ab])
       (VNested (seq_val false [seq_val true [VInt 1; VDict 2]]))
       HyperoptExample2.st1
     = create_instance_from_hyperopt_search_space 2
         (VOp HyperoptExample.op_ab) (VDict 2) HyperoptExample2.st1
  /\ instantiate_from_hyperopt_search_space 2
       (VList [VOp HyperoptExample.scaler; VOp HyperoptExample.op_ab])
       (VNested (seq_val false [seq_val true [VInt 2; VDict 2]]))
       HyperoptExample2.st1
     = (Ok VNone, HyperoptExample2.st1).
Proof.
  split; [simpl; lia |]. split.
  - refine (proj1 (marker_against_alternatives 2
                     [VOp HyperoptExample.scaler; VOp HyperoptExample.op_ab]
                     false true 1 (VDict 2) [] HyperoptExample2.st1 _)
              1%nat (VOp HyperoptExample.op_ab) eq_refl eq_refl).
    simpl; lia.
  - refine (proj2 (marker_against_alternatives 0
                     [VOp HyperoptExample.scaler; VOp HyperoptExample.op_ab]
                     false true 2 (VDict 2) [] HyperoptExample2.st1 _) _);
      simpl; lia.
Defined.

Lemma entries_run_plain (fuel : nat) (objs news : list pyval) st :
  length objs = length news ->
  Forall (fun n => is_plain n = true) news ->
  entries_run (instantiate_from_hyperopt_search_space (S fuel)) objs news st
    (repeat VNone (length news)) st.
Proof.
  intros Hlen Hplain. revert objs Hlen.
  induction Hplain as [| n news Hn _ IH]; intros [| o objs] Hlen;
    try discriminate; [constructor |].
  cbn [length repeat].
  apply entries_run_cons with (st1 := st).
  - rewrite instantiate_plain by exact Hn. reflexivity.
  - apply IH. simpl in Hlen; lia.
Qed.

Lemma any_update_repeat_none (n : nat) : any_update (repeat VNone n) = false.
Proof. induction n as [| n IH]; [reflexivity | exact IH]. Qed.

(** X6.  A list or tuple sample of plain values (no marker, list, tuple or
    mapping among its entries) changes nothing: matched with a sequence
    of the same length and kind the walker returns None and leaves the
    store as it is; when only the kinds differ it returns the sample in
    the original's kind. *)
Theorem walker_plain_sequence (fuel : nat) (obj_tuple new_tuple : bool)
    (objs news : list pyval) st :
  length objs = length news ->
  Forall (fun n => is_plain n = true) news ->
  instantiate_from_hyperopt_search_space (S (S fuel))
    (seq_val obj_tuple objs) (seq_val new_tuple news) st
  = (Ok (if Bool.eqb obj_tuple new_tuple then VNone
         else seq_val obj_tuple news), st).
Proof.
  intros Hlen Hplain.
  rewrite (instantiate_seq _ _ _ _ _ _ _ _
             (entries_run_plain fuel objs news st Hlen Hplain)).
  rewrite any_update_repeat_none.
  destruct (Bool.eqb obj_tuple new_tuple); reflexivity.
Qed.

Lemma walker_plain_sequence_witness :
  length [VInt 1; VStr "x"] = length [VInt 2; VNone]
  /\ Forall (fun n => is_plain n = true) [VInt 2; VNone]
  /\ instantiate_from_hyperopt_search_space 2
       (seq_val true [VInt 1; VStr "x"]) (seq_val false [VInt 2; VNone])
       HyperoptExample.st0
     = (Ok (VTuple [VInt 2; VNone]), HyperoptExample.st0).
Proof.
  split; [reflexivity |]. split; [repeat constructor |].
  apply (walker_plain_sequence 0 true false [VInt 1; VStr "x"] [VInt 2; VNone]
           HyperoptExample.st0 eq_refl).
  repeat constructor.
Defined.

(** X7.  A sample whose shape does not match the original fails an assertion
    before anything is instantiated: a list or tuple sample against a
    sequence of another length or against something that is no list or
    tuple, a mapping sample against something that is no mapping. *)
Theorem walker_shape_mismatch (fuel : nat) st :
  (forall (obj_tuple new_tuple : bool) (objs news : list pyval),
      length objs <> length news ->
      instantiate_from_hyperopt_search_space (S fuel)
        (seq_val obj_tuple objs) (seq_val new_tuple news) st
      = (Raise AssertionError, st))
  /\ (forall (obj : pyval) (new_tuple : bool) (news : list pyval),
        (forall l, obj <> VList l) -> (forall l, obj <> VTuple l) ->
        instantiate_from_hyperopt_search_space (S fuel)
          obj (seq_val new_tuple news) st
        = (Raise AssertionError, st))
  /\ (forall (obj : pyval) (r : nat),
        (forall r', obj <> VDict r') ->
        instantiate_from_hyperopt_search_space (S fuel) obj (VDict r) st
        = (Raise AssertionError, st)).
Proof.
  split; [| split].
  - intros obj_tuple new_tuple objs news Hlen.
    assert (Hne : Nat.eqb (length news) (length objs) = false)
      by (apply Nat.eqb_neq; congruence).
    destruct obj_tuple, new_tuple;
      cbn [seq_val instantiate_from_hyperopt_search_space instantiate_body];
      (erewrite bind_Ok by reflexivity);
      unfold bind, py_assert; rewrite Hne; reflexivity.
  - intros obj new_tuple news Hl Ht.
    destruct new_tuple;
      cbn [seq_val instantiate_from_hyperopt_search_space instantiate_body];
      destruct obj; try reflexivity;
      solve [exfalso; eapply Hl; reflexivity | exfalso; eapply Ht; reflexivity].
  - intros obj r Hd.
    cbn [instantiate_from_hyperopt_search_space instantiate_body].
    destruct obj; try reflexivity. exfalso; eapply Hd; reflexivity.
Qed.

Lemma walker_shape_mismatch_witness :
  length [VInt 1] <> length [VInt 2; VInt 3]
  /\ instantiate_from_hyperopt_search_space 1
       (seq_val false [VInt 1]) (seq_val false [VInt 2; VInt 3])
       HyperoptExample.st0
     = (Raise AssertionError, HyperoptExample.st0).
Proof.
  split; [simpl; lia |].
  apply (proj1 (walker_shape_mismatch 0 HyperoptExample.st0) false false
           [VInt 1] [VInt 2; VInt 3]).
  simpl; lia.
Defined.

End MarkerFacts.

(** ** The keys of the sample mappings *)

Section KeysFacts.
Import Py Hyperopt HyperoptInvariants.
Implicit Types (st : store).

Lemma same_keys_refl st : same_keys st st.
Proof. intros r; reflexivity. Qed.

Lemma same_keys_trans st1 st2 st3 :
  same_keys st1 st2 -> same_keys st2 st3 -> same_keys st1 st3.
Proof. intros H12 H23 r. rewrite H12. apply H23. Qed.

Lemma keeps_keys_pure {A} (c : M store A) :
  (forall st, snd (c st) = st) -> keeps_keys c.
Proof.
  intros Hc st r st' Hrun. specialize (Hc st). rewrite Hrun in Hc.
  simpl in Hc. subst st'. apply same_keys_refl.
Qed.

Lemma keeps_keys_ret {A} (a : A) : keeps_keys (ret a).
Proof. apply keeps_keys_pure; reflexivity. Qed.

Lemma keeps_keys_raise {A} (e : exn) : keeps_keys (raise (A := A) e).
Proof. apply keeps_keys_pure; reflexivity. Qed.

Lemma keeps_keys_lift {A} (r : outcome A) : keeps_keys (lift r).
Proof. apply keeps_keys_pure; reflexivity. Qed.

Lemma keeps_keys_read_dict (r : nat) : keeps_keys (read_dict r).
Proof.
  apply keeps_keys_pure. intros st. unfold read_dict.
  destruct (dicts st !! r); reflexivity.
Qed.

Lemma keeps_keys_bind {A B} (c : M store A) (k : A -> M store B) :
  keeps_keys c -> (forall a, keeps_keys (k a)) -> keeps_keys (bind c k).
Proof.
  intros Hc Hk st r st'. unfold bind.
  destruct (c st) as [[a | e | |] s1] eqn:Hcs; specialize (Hc _ _ _ Hcs).
  - intros Hrun. eapply same_keys_trans; [exact Hc | eapply Hk; exact Hrun].
  - intros [= <- <-]; exact Hc.
  - intros [= <- <-]; exact Hc.
  - intros [= <- <-]; exact Hc.
Qed.

Lemma keeps_keys_fresh_oid : keeps_keys fresh_oid.
Proof. intros st r st' [= <- <-] r'. reflexivity. Qed.

Lemma keeps_keys_py_assert (b : bool) : keeps_keys (py_assert b).
Proof. destruct b; [apply keeps_keys_ret | apply keeps_keys_raise]. Qed.

Lemma keeps_keys_py_iter (v : pyval) : keeps_keys (py_iter v).
Proof.
  destruct v; cbn [py_iter];
    try apply keeps_keys_ret; try apply keeps_keys_raise.
  apply keeps_keys_bind; [apply keeps_keys_read_dict | intros d; apply keeps_keys_ret].
Qed.

Lemma keeps_keys_py_len (v : pyval) : keeps_keys (py_len v).
Proof.
  destruct v; cbn [py_len];
    try apply keeps_keys_ret; try apply keeps_keys_raise.
  apply keeps_keys_bind; [apply keeps_keys_read_dict | intros d; apply keeps_keys_ret].
Qed.

Lemma keeps_keys_py_getitem (v k : pyval) : keeps_keys (py_getitem v k).
Proof.
  destruct v; cbn [py_getitem]; try apply keeps_keys_raise.
  - destruct k; try apply keeps_keys_raise; apply keeps_keys_lift.
  - destruct k; try apply keeps_keys_raise; apply keeps_keys_lift.
  - destruct k; try apply keeps_keys_raise; apply keeps_keys_lift.
  - apply keeps_keys_bind; [apply keeps_keys_read_dict | intros d].
    destruct k;
      try (destruct (hashable _); apply keeps_keys_raise);
      try (destruct (dict_get d _);
           [apply keeps_keys_ret | apply keeps_keys_raise]).
Qed.

Lemma keeps_keys_unpack2 (v : pyval) : keeps_keys (unpack2 v).
Proof.
  unfold unpack2. apply keeps_keys_bind; [apply keeps_keys_py_iter | intros items].
  destruct items as [| a [| b [| c items]]];
    try apply keeps_keys_raise; apply keeps_keys_ret.
Qed.

Lemma keeps_keys_as_key (v : pyval) : keeps_keys (as_key v).
Proof.
  destruct v; cbn [as_key]; try apply keeps_keys_ret;
    apply keeps_keys_pure; reflexivity.
Qed.

Lemma keeps_keys_dict_without (orig_dict : pyval) (key : string) :
  keeps_keys (dict_without orig_dict key).
Proof.
  unfold dict_without.
  apply keeps_keys_bind; [apply keeps_keys_py_iter | intros ks].
  generalize (@nil (Hyperopt.key * pyval)).
  induction ks as [| k ks IH]; intros acc; cbn [dict_without_loop].
  - apply keeps_keys_ret.
  - destruct (differs_from_str k key); [| apply IH].
    apply keeps_keys_bind; [apply keeps_keys_py_getitem | intros v].
    apply keeps_keys_bind; [apply keeps_keys_as_key | intros k'].
    apply IH.
Qed.

Lemma keeps_keys_call_individual_op (cn : string) (all : dict) :
  keeps_keys (call_individual_op cn all).
Proof.
  unfold call_individual_op. destruct (forallb _ all); [| apply keeps_keys_raise].
  apply keeps_keys_bind; [apply keeps_keys_fresh_oid | intros i; apply keeps_keys_ret].
Qed.

Lemma keeps_keys_TrainablePipeline steps edges :
  keeps_keys (TrainablePipeline steps edges).
Proof.
  unfold TrainablePipeline.
  destruct (mapM as_operator steps); [| apply keeps_keys_raise].
  destruct (mapM as_edge edges); [| apply keeps_keys_raise].
  apply keeps_keys_bind; [apply keeps_keys_fresh_oid | intros i; apply keeps_keys_ret].
Qed.

Lemma keeps_keys_resolve_marker (obj sub_space : pyval) :
  keeps_keys (resolve_marker obj sub_space).
Proof.
  assert (Hbody : forall l,
    keeps_keys
      (let* items := py_iter sub_space in
       let* first := lift (seq_getitem items 0) in
       let* (step_index, step_params) := unpack2 first in
       let* lt := lift (py_lt_int step_index (Z.of_nat (length l))) in
       if lt then
         let* x := py_getitem (VList l) step_index in
         ret (x, step_params)
       else ret (VList l, sub_space))).
  { intros l.
    apply keeps_keys_bind; [apply keeps_keys_py_iter | intros items].
    apply keeps_keys_bind; [apply keeps_keys_lift | intros first].
    apply keeps_keys_bind; [apply keeps_keys_unpack2 | intros [step_index step_params]].
    apply keeps_keys_bind; [apply keeps_keys_lift | intros lt].
    destruct lt; [| apply keeps_keys_ret].
    apply keeps_keys_bind; [apply keeps_keys_py_getitem | intros x].
    apply keeps_keys_ret. }
  unfold resolve_marker. destruct obj; try apply keeps_keys_ret.
  destruct l as [| x [| y l]];
    [apply (Hbody []) | apply keeps_keys_ret | apply (Hbody (x :: y :: l))].
Qed.

(** Assigning to a key the dict has keeps its keys. *)
Lemma setitem_same_keys (r : nat) (k : key) (u : pyval) st (d : dict) o st' :
  dicts st !! r = Some d -> In k (map fst d) ->
  setitem r k u st = (o, st') -> same_keys st st'.
Proof.
  intros Hr Hk. unfold setitem. rewrite Hr. intros [= <- <-] r'.
  cbn [dicts]. destruct (decide (r = r')) as [<- | Hne].
  - rewrite lookup_insert_eq, Hr. cbn.
    rewrite dict_set_keys_In by exact Hk. reflexivity.
  - rewrite lookup_insert_ne by exact Hne. reflexivity.
Qed.

Section LoopsKeepKeys.
Variable rec : pyval -> pyval -> M store pyval.
Hypothesis rec_keeps : forall x y, keeps_keys (rec x y).

Lemma keeps_keys_seq_loop objs news range res :
  keeps_keys (seq_loop rec objs news range res).
Proof using rec_keeps.
  revert res; induction range as [| i range IH]; intros res; cbn [seq_loop].
  - apply keeps_keys_ret.
  - apply keeps_keys_bind; [apply keeps_keys_lift | intros nhi].
    apply keeps_keys_bind; [apply keeps_keys_lift | intros ohi].
    apply keeps_keys_bind; [apply rec_keeps | intros u]. apply IH.
Qed.

Lemma keeps_keys_update_loop obj items new :
  keeps_keys (update_loop rec obj items new).
Proof using rec_keeps.
  revert new; induction items as [| [k s] items IH]; intros new; cbn [update_loop].
  - apply keeps_keys_ret.
  - destruct (dict_get obj k); [| apply IH].
    apply keeps_keys_bind; [apply rec_keeps | intros u; apply IH].
Qed.

Lemma keeps_keys_pipeline_loop steps op_index hs acc m :
  keeps_keys (pipeline_loop rec steps op_index hs acc m).
Proof using rec_keeps.
  revert op_index acc m; induction hs as [| h hs IH]; intros op_index acc m;
    cbn [pipeline_loop].
  - apply keeps_keys_ret.
  - apply keeps_keys_bind; [apply keeps_keys_lift | intros sub_op].
    apply keeps_keys_bind; [apply rec_keeps | intros op_instance].
    apply keeps_keys_bind; [| intros _; apply IH].
    destruct (is_choice sub_op); [apply keeps_keys_ret |].
    apply keeps_keys_bind; [apply keeps_keys_lift | intros cn].
    apply keeps_keys_py_assert.
Qed.

(** The dict loop assigns only to keys the sample dict has. *)
Lemma dict_loop_same_keys (r_obj r_new : nat) (ks : list key) st o st' :
  (forall d, dicts st !! r_new = Some d -> forall k, In k ks -> In k (map fst d)) ->
  dict_loop rec r_obj r_new ks st = (o, st') -> same_keys st st'.
Proof using rec_keeps.
  revert st. induction ks as [| k ks IH]; intros st Hks; cbn [dict_loop].
  - intros [= <- <-]; apply same_keys_refl.
  - unfold bind at 1. unfold read_dict at 1.
    destruct (dicts st !! r_new) as [d |] eqn:Hnew;
      [| intros [= <- <-]; apply same_keys_refl].
    unfold bind at 1.
    destruct (dict_get d k) as [sub_params |];
      [| intros [= <- <-]; apply same_keys_refl].
    cbn [ret]. unfold bind at 1. unfold read_dict at 1.
    destruct (dicts st !! r_obj) as [d_obj |];
      [| intros [= <- <-]; apply same_keys_refl].
    assert (Hnext : forall st1, same_keys st st1 ->
              dict_loop rec r_obj r_new ks st1 = (o, st') -> same_keys st st').
    { intros st1 H01 Hrun. eapply same_keys_trans; [exact H01 |].
      apply (IH st1); [| exact Hrun].
      intros d1 Hd1 k' Hk'.
      specialize (H01 r_new). rewrite Hnew, Hd1 in H01. cbn in H01.
      injection H01 as H01. rewrite <- H01.
      apply (Hks d eq_refl). right; exact Hk'. }
    unfold bind at 1.
    destruct (dict_get d_obj k) as [sub_op |]; [| apply Hnext, same_keys_refl].
    unfold bind at 1.
    destruct (rec sub_op sub_params st) as [[u | e | |] st1] eqn:Hrec;
      pose proof (rec_keeps _ _ _ _ _ Hrec) as H01;
      try (intros [= <- <-]; exact H01).
    destruct (is_none u); [apply Hnext; exact H01 |].
    pose proof (H01 r_new) as Hk1. rewrite Hnew in Hk1. cbn in Hk1.
    destruct (dicts st1 !! r_new) as [d1 |] eqn:Hnew1; [| discriminate].
    cbn in Hk1. injection Hk1 as Hk1.
    assert (Hin : In k (map fst d1)).
    { rewrite <- Hk1. apply (Hks d eq_refl). left; reflexivity. }
    destruct (setitem r_new k u st1) as [[[] | e | |] st2] eqn:Hset;
      pose proof (setitem_same_keys _ _ _ _ _ _ _ Hnew1 Hin Hset) as H12;
      try (intros [= <- <-]; eapply same_keys_trans; eassumption).
    apply Hnext. eapply same_keys_trans; eassumption.
Qed.

End LoopsKeepKeys.

Lemma keeps_keys_instantiate_body
    (inst create : pyval -> pyval -> M store pyval) :
  (forall x y, keeps_keys (inst x y)) ->
  (forall x y, keeps_keys (create x y)) ->
  forall obj new, keeps_keys (instantiate_body inst create obj new).
Proof.
  intros Hi Hc obj new. destruct new; cbn [instantiate_body];
    try apply keeps_keys_ret.
  - apply keeps_keys_bind.
    { destruct obj; try apply keeps_keys_raise; apply keeps_keys_ret. }
    intros objs.
    apply keeps_keys_bind; [apply keeps_keys_py_assert | intros _].
    apply keeps_keys_bind; [apply keeps_keys_seq_loop; exact Hi | intros res].
    destruct res; [apply keeps_keys_ret |].
    destruct (negb _); apply keeps_keys_ret.
  - apply keeps_keys_bind.
    { destruct obj; try apply keeps_keys_raise; apply keeps_keys_ret. }
    intros objs.
    apply keeps_keys_bind; [apply keeps_keys_py_assert | intros _].
    apply keeps_keys_bind; [apply keeps_keys_seq_loop; exact Hi | intros res].
    destruct res; [apply keeps_keys_ret |].
    destruct (negb _); apply keeps_keys_ret.
  - destruct obj; try apply keeps_keys_raise.
    intros st o st'. unfold bind at 1. unfold read_dict at 1.
    destruct (dicts st !! r) as [d |] eqn:Hr;
      [| intros [= <- <-]; apply same_keys_refl].
    unfold bind.
    destruct (dict_loop inst r0 r (map fst d) st) as [[[] | e | |] st1] eqn:Hloop;
      intros [= <- <-];
      (eapply dict_loop_same_keys; [exact Hi | | exact Hloop]);
      intros d' Hd' k Hk; rewrite Hr in Hd'; injection Hd' as <-; exact Hk.
  - apply keeps_keys_bind;
      [apply keeps_keys_resolve_marker | intros [sub_op sub_params]; apply Hc].
Qed.

Lemma keeps_keys_create_instance_body
    (inst create : pyval -> pyval -> M store pyval) :
  (forall x y, keeps_keys (inst x y)) ->
  (forall x y, keeps_keys (create x y)) ->
  forall lale_object hyperparams,
    keeps_keys (create_instance_body inst create lale_object hyperparams).
Proof.
  intros Hi Hc lale_object hyperparams.
  destruct lale_object as [| | | | | | | o]; try apply keeps_keys_ret.
  destruct o as [i cn hp | i cn steps edges | i cn choices];
    cbn [create_instance_body].
  - apply keeps_keys_bind; [apply keeps_keys_dict_without | intros new].
    apply keeps_keys_bind; [apply keeps_keys_update_loop; exact Hi | intros new'].
    apply keeps_keys_call_individual_op.
  - apply keeps_keys_bind; [apply keeps_keys_py_len | intros n].
    destruct (negb _); [apply keeps_keys_raise |].
    apply keeps_keys_bind; [apply keeps_keys_py_iter | intros items].
    apply keeps_keys_bind;
      [apply keeps_keys_pipeline_loop; exact Hc | intros [insts m]].
    apply keeps_keys_bind; [apply keeps_keys_lift | intros es].
    apply keeps_keys_TrainablePipeline.
  - apply keeps_keys_bind.
    { destruct (Nat.eqb _ 1); [apply keeps_keys_ret |].
      destruct hyperparams; try apply keeps_keys_raise.
      apply keeps_keys_bind; [apply keeps_keys_read_dict | intros d].
      apply keeps_keys_bind; [apply keeps_keys_lift | intros first].
      apply keeps_keys_ret. }
    intros [step_index hp'].
    apply keeps_keys_bind; [| intros step_object; apply Hc].
    destruct step_index; try apply keeps_keys_raise. apply keeps_keys_lift.
Qed.

Lemma keeps_keys_fuel (fuel : nat) :
  (forall x y, keeps_keys (instantiate_from_hyperopt_search_space fuel x y))
  /\ (forall x y, keeps_keys (create_instance_from_hyperopt_search_space fuel x y)).
Proof.
  induction fuel as [| fuel [IHi IHc]].
  - split; intros x y; apply keeps_keys_pure; reflexivity.
  - split; intros x y.
    + apply (keeps_keys_instantiate_body _ _ IHi IHc).
    + apply (keeps_keys_create_instance_body _ _ IHi IHc).
Qed.

(** X8.  Whatever they return or raise, the walker and the instantiator leave
    every mapping with the keys it had, in the order it had them: they
    replace values only. *)
Theorem instantiation_keeps_keys (fuel : nat) (a b : pyval) st
    (o : outcome pyval) st' :
  instantiate_from_hyperopt_search_space fuel a b st = (o, st')
  \/ create_instance_from_hyperopt_search_space fuel a b st = (o, st') ->
  forall r, map fst <$> (dicts st !! r) = map fst <$> (dicts st' !! r).
Proof.
  destruct (keeps_keys_fuel fuel) as [Hi Hc].
  intros [Hrun | Hrun]; [eapply Hi | eapply Hc]; exact Hrun.
Qed.

Lemma instantiation_keeps_keys_witness :
  instantiate_from_hyperopt_search_space 4 (VDict 5) (VDict 4) HyperoptExample2.st1
  = (Ok VNone,
     mk_store (<[4%nat := [(KStr "est",
                            VOp (IndividualOp 20 "Classifier"
                                   (Some [(KStr "a", VInt 9); (KStr "b", VInt 2)])));
                           (KStr "n", VInt 3)]]>
                 (dicts HyperoptExample2.st1)) 21)
  /\ forall r,
       map fst <$> (dicts HyperoptExample2.st1 !! r)
       = map fst <$>
           (<[4%nat := [(KStr "est",
                         VOp (IndividualOp 20 "Classifier"
                                (Some [(KStr "a", VInt 9); (KStr "b", VInt 2)])));
                        (KStr "n", VInt 3)]]>
              (dicts HyperoptExample2.st1) !! r).
Proof.
  assert (Hrun :
    instantiate_from_hyperopt_search_space 4 (VDict 5) (VDict 4)
      HyperoptExample2.st1
    = (Ok VNone,
       mk_store (<[4%nat := [(KStr "est",
                              VOp (IndividualOp 20 "Classifier"
                                     (Some [(KStr "a", VInt 9); (KStr "b", VInt 2)])));
                             (KStr "n", VInt 3)]]>
                   (dicts HyperoptExample2.st1)) 21)).
  { vm_compute. reflexivity. }
  split; [exact Hrun |].
  exact (instantiation_keeps_keys 4 (VDict 5) (VDict 4) HyperoptExample2.st1
           _ _ (or_introl Hrun)).
Defined.

End KeysFacts.

(** ** Failing folds, and the log-loss that may fail *)

Section CrossValMore.
Import Py Numpy Schemas CrossVal.
Context {World E Trained Proba cell label : Type} `{Estimator E}.
Variable fit : E -> array (list cell) -> option (array label) -> M World Trained.
Variable scorer :
  Trained -> array (list cell) -> option (array label) -> M World npfloat.
Variable predict_proba : Trained -> array (list cell) -> M World Proba.
Variable log_loss : option (array label) -> Proba -> M World npfloat.
Variable time_time : World -> Qc * World.

Local Abbreviation loop_body := (loop_body fit scorer predict_proba log_loss time_time).
Local Abbreviation loop := (loop fit scorer predict_proba log_loss time_time).
Local Abbreviation run_fold := (run_fold fit scorer predict_proba log_loss time_time).
Local Abbreviation run_folds := (run_folds fit scorer predict_proba log_loss time_time).
Local Abbreviation cross_val_score_track_trials :=
  (cross_val_score_track_trials fit scorer predict_proba log_loss time_time).

Lemma run_fold_raise_body estimator X y fold (w w1 : World) (e : exn) :
  run_fold estimator X y fold w = (Raise e, w1) ->
  loop_body estimator X y init fold w = (Raise e, w1).
Proof.
  unfold CrossVal.run_fold, bind.
  destruct (loop_body estimator X y init fold w) as [[l1 | e' | |] w2] eqn:Hb;
    try discriminate.
  - destruct (loop_body_init_shape _ _ _ _ _ _ _ _ _ _ _ _ Hb) as (s & ll & t & ->).
    discriminate.
  - intros [= -> ->]; reflexivity.
Qed.

Lemma loop_raises estimator X y (pre post : list (list nat * list nat)) fold
    (l : locals) (w w1 w2 : World) rs (e : exn) :
  run_folds estimator X y pre w = (Ok rs, w1) ->
  run_fold estimator X y fold w1 = (Raise e, w2) ->
  loop estimator X y l (pre ++ fold :: post) w = (Raise e, w2).
Proof.
  revert l w rs; induction pre as [| f pre IH]; intros l w rs Hpre Hfold.
  - injection Hpre as _ <-. cbn [app CrossVal.loop].
    apply run_fold_raise_body in Hfold.
    unfold bind. rewrite loop_body_extend, Hfold. reflexivity.
  - cbn [CrossVal.run_folds] in Hpre.
    apply bind_Ok_inv in Hpre as (r & wa & Hr & Hpre).
    apply bind_Ok_inv in Hpre as (rs' & wb & Hrs' & Hret).
    injection Hret as _ <-.
    cbn [app CrossVal.loop].
    erewrite bind_Ok by (eapply loop_body_run_fold; exact Hr).
    eapply IH; eassumption.
Qed.

(** X9.  An exception of a split, of [fit] or of the scorer is not caught: the
    evaluation raises it from the first fold where it occurs, and the
    folds after that one are not run. *)
Theorem failing_fold_is_raised estimator X y
    (pre post : list (list nat * list nat)) (train test : list nat)
    (w w1 : World) rs :
  run_folds estimator X y pre w = (Ok rs, w1) ->
  (forall (e : exn) w2,
      run_fold estimator X y (train, test) w1 = (Raise e, w2) ->
      cross_val_score_track_trials estimator X y
        (pre ++ (train, test) :: post) w = (Raise e, w2))
  /\ (forall (e : exn) X_train y_train X_test y_test start w2 w3,
        split_with_schemas estimator X y train None = Ok (X_train, y_train) ->
        split_with_schemas estimator X y test (Some train) = Ok (X_test, y_test) ->
        time_time w1 = (start, w2) ->
        fit estimator X_train y_train w2 = (Raise e, w3) ->
        cross_val_score_track_trials estimator X y
          (pre ++ (train, test) :: post) w = (Raise e, w3))
  /\ (forall (e : exn) X_train y_train X_test y_test start w2 trained w3 w4,
        split_with_schemas estimator X y train None = Ok (X_train, y_train) ->
        split_with_schemas estimator X y test (Some train) = Ok (X_test, y_test) ->
        time_time w1 = (start, w2) ->
        fit estimator X_train y_train w2 = (Ok trained, w3) ->
        scorer trained X_test y_test w3 = (Raise e, w4) ->
        cross_val_score_track_trials estimator X y
          (pre ++ (train, test) :: post) w = (Raise e, w4)).
Proof.
  intros Hpre.
  assert (Hraise : forall (e : exn) w2,
            run_fold estimator X y (train, test) w1 = (Raise e, w2) ->
            cross_val_score_track_trials estimator X y
              (pre ++ (train, test) :: post) w = (Raise e, w2)).
  { intros e w2 Hfold. unfold CrossVal.cross_val_score_track_trials, bind.
    rewrite (loop_raises _ _ _ _ post _ init _ _ _ _ _ Hpre Hfold). reflexivity. }
  split; [exact Hraise |]. split.
  - intros e X_train y_train X_test y_test start w2 w3 H1 H2 Ht Hfit.
    apply Hraise.
    unfold CrossVal.run_fold, CrossVal.loop_body, bind, lift, tick.
    rewrite H1, H2, Ht, Hfit. reflexivity.
  - intros e X_train y_train X_test y_test start w2 trained w3 w4 H1 H2 Ht Hfit Hs.
    apply Hraise.
    unfold CrossVal.run_fold, CrossVal.loop_body, bind, lift, tick.
    rewrite H1, H2, Ht, Hfit, Hs. reflexivity.
Qed.

(** X10.  Once the splits, [fit] and the scorer of a fold have succeeded the
    fold completes, whatever [predict_proba] and [log_loss] raise: the
    score and the duration are recorded, the log-loss only when both
    calls return. *)
Theorem log_loss_is_best_effort estimator X y (train test : list nat)
    X_train y_train X_test y_test (w w1 w2 w3 w4 : World)
    (start stop : Qc) trained (s : npfloat) :
  split_with_schemas estimator X y train None = Ok (X_train, y_train) ->
  split_with_schemas estimator X y test (Some train) = Ok (X_test, y_test) ->
  time_time w = (start, w1) ->
  fit estimator X_train y_train w1 = (Ok trained, w2) ->
  scorer trained X_test y_test w2 = (Ok s, w3) ->
  time_time w3 = (stop, w4) ->
  (forall (e : exn) w5,
      predict_proba trained X_test w4 = (Raise e, w5) ->
      run_fold estimator X y (train, test) w
      = (Ok (mk_fold_result s None (Qcminus stop start)), w5))
  /\ (forall p w5 (e : exn) w6,
        predict_proba trained X_test w4 = (Ok p, w5) ->
        log_loss y_test p w5 = (Raise e, w6) ->
        run_fold estimator X y (train, test) w
        = (Ok (mk_fold_result s None (Qcminus stop start)), w6))
  /\ (forall p w5 (ll : npfloat) w6,
        predict_proba trained X_test w4 = (Ok p, w5) ->
        log_loss y_test p w5 = (Ok ll, w6) ->
        run_fold estimator X y (train, test) w
        = (Ok (mk_fold_result s (Some ll) (Qcminus stop start)), w6)).
Proof.
  intros H1 H2 Ht Hfit Hs Ht'.
  split; [| split].
  - intros e w5 Hp.
    unfold CrossVal.run_fold, CrossVal.loop_body, bind, lift, tick, try_except.
    rewrite H1, H2, Ht, Hfit, Hs, Ht', Hp. reflexivity.
  - intros p w5 e w6 Hp Hl.
    unfold CrossVal.run_fold, CrossVal.loop_body, bind, lift, tick, try_except.
    rewrite H1, H2, Ht, Hfit, Hs, Ht', Hp, Hl. reflexivity.
  - intros p w5 ll w6 Hp Hl.
    unfold CrossVal.run_fold, CrossVal.loop_body, bind, lift, tick, try_except.
    rewrite H1, H2, Ht, Hfit, Hs, Ht', Hp, Hl. reflexivity.
Qed.

End CrossValMore.

Section CrossValMoreClosed.
Import Py Numpy Schemas CrossVal.

Lemma failing_fold_is_raised_witness :
  run_folds CrossValExample2.fit_once CrossValExample.scorer
    CrossValExample.predict_proba CrossValExample.log_loss
    CrossValExample.time_time tt CrossValExample.X CrossValExample.y
    [([0; 1], [2; 3])]%nat 0%nat
  = (Ok [mk_fold_result (Fin (Q2Qc 1)) None
           (Qcminus (Q2Qc (inject_Z 1)) (Q2Qc (inject_Z 0)))], 2%nat)
  /\ cross_val_score_track_trials CrossValExample2.fit_once CrossValExample.scorer
       CrossValExample.predict_proba CrossValExample.log_loss
       CrossValExample.time_time tt CrossValExample.X CrossValExample.y
       ([([0; 1], [2; 3])] ++ ([2; 3], [0; 1]) :: [([0], [1])])%nat 0%nat
     = (Raise (OtherError "fit"), 3%nat).
Proof.
  assert (Hpre :
    run_folds CrossValExample2.fit_once CrossValExample.scorer
      CrossValExample.predict_proba CrossValExample.log_loss
      CrossValExample.time_time tt CrossValExample.X CrossValExample.y
      [([0; 1], [2; 3])]%nat 0%nat
    = (Ok [mk_fold_result (Fin (Q2Qc 1)) None
             (Qcminus (Q2Qc (inject_Z 1)) (Q2Qc (inject_Z 0)))], 2%nat))
    by reflexivity.
  split; [exact Hpre |].
  apply (proj1 (failing_fold_is_raised CrossValExample2.fit_once
                  CrossValExample.scorer CrossValExample.predict_proba
                  CrossValExample.log_loss CrossValExample.time_time
                  tt CrossValExample.X CrossValExample.y
                  [([0; 1], [2; 3])]%nat [([0], [1])]%nat [2; 3]%nat [0; 1]%nat
                  0%nat 2%nat _ Hpre)).
  reflexivity.
Defined.

Lemma log_loss_is_best_effort_witness :
  run_fold CrossValExample.fit CrossValExample.scorer
    CrossValExample.predict_proba CrossValExample.log_loss
    CrossValExample.time_time tt CrossValExample.X CrossValExample.y
    ([0; 1], [2; 3])%nat 0%nat
  = (Ok (mk_fold_result (Fin (Q2Qc 1)) None
           (Qcminus (Q2Qc (inject_Z 1)) (Q2Qc (inject_Z 0)))), 2%nat).
Proof.
  refine (proj1 (log_loss_is_best_effort CrossValExample.fit
                   CrossValExample.scorer CrossValExample.predict_proba
                   CrossValExample.log_loss CrossValExample.time_time
                   tt CrossValExample.X CrossValExample.y [0; 1]%nat [2; 3]%nat
                   _ _ _ _ 0%nat 1%nat 1%nat 1%nat 2%nat
                   (Q2Qc (inject_Z 0)) (Q2Qc (inject_Z 1)) tt (Fin (Q2Qc 1))
                   _ _ _ _ _ _) AttributeError 2%nat _);
    reflexivity.
Defined.

End CrossValMoreClosed.

(** ** [cross_val_score] *)

Section CrossValSimpleFacts.
Import Py Schemas CrossValSimple.
Context {World E Trained Pred Score cell label : Type} `{Estimator E}.
Variable fit : E -> array (list cell) -> option (array label) -> M World Trained.
Variable predict : Trained -> array (list cell) -> M World Pred.
Variable scoring : option (array label) -> Pred -> M World Score.

Local Abbreviation score_loop := (score_loop fit predict scoring).
Local Abbreviation score_fold := (score_fold fit predict scoring).
Local Abbreviation score_folds := (score_folds fit predict scoring).
Local Abbreviation cross_val_score := (cross_val_score fit predict scoring).

(** The loop appends the scores of the folds still to run. *)
Lemma score_loop_folds estimator X y (acc : list Score) folds (w : World) :
  score_loop estimator X y acc folds w =
  match score_folds estimator X y folds w with
  | (Ok ss, w') => (Ok (acc ++ ss), w')
  | (Raise e, w') => (Raise e, w')
  | (OutOfFuel, w') => (OutOfFuel, w')
  | (Stuck, w') => (Stuck, w')
  end.
Proof.
  revert acc w; induction folds as [| [train test] folds IH]; intros acc w.
  - cbn. rewrite app_nil_r. reflexivity.
  - cbn [CrossValSimple.score_loop CrossValSimple.score_folds
         CrossValSimple.score_fold].
    unfold bind, lift.
    destruct (split_with_schemas estimator X y train None)
      as [[X_train y_train] | | |]; try reflexivity.
    destruct (split_with_schemas estimator X y test (Some train))
      as [[X_test y_test] | | |]; try reflexivity.
    destruct (fit estimator X_train y_train w) as [[trained | | |] w1];
      try reflexivity.
    destruct (predict trained X_test w1) as [[predicted | | |] w2];
      try reflexivity.
    destruct (scoring y_test predicted w2) as [[s | | |] w3]; try reflexivity.
    rewrite IH.
    destruct (score_folds estimator X y folds w3) as [[ss | | |] w4];
      try reflexivity.
    cbn [ret]. rewrite <- app_assoc. reflexivity.
Qed.

Lemma score_folds_length estimator X y folds (w w' : World) ss :
  score_folds estimator X y folds w = (Ok ss, w') -> length ss = length folds.
Proof.
  revert w w' ss; induction folds as [| fold folds IH]; intros w w' ss.
  - intros [= <- _]; reflexivity.
  - cbn [CrossValSimple.score_folds]. intros Hrun.
    apply bind_Ok_inv in Hrun as (s & w1 & _ & Hrun).
    apply bind_Ok_inv in Hrun as (ss' & w2 & Hss & Hret).
    injection Hret as <- _. cbn [length]. f_equal. eapply IH; exact Hss.
Qed.

(** X11.  [cross_val_score] returns the scores of the folds, one per fold and in
    fold order, and raises what the first failing fold raises; without
    folds it returns the empty list. *)
Theorem cross_val_score_per_fold estimator X y folds (w : World) :
  cross_val_score estimator X y folds w = score_folds estimator X y folds w
  /\ (forall ss w',
        cross_val_score estimator X y folds w = (Ok ss, w') ->
        length ss = length folds)
  /\ cross_val_score estimator X y [] w = (Ok [], w).
Proof.
  assert (Heq : cross_val_score estimator X y folds w
                = score_folds estimator X y folds w).
  { unfold CrossValSimple.cross_val_score. rewrite score_loop_folds.
    destruct (score_folds estimator X y folds w) as [[ss | | |] w'];
      reflexivity. }
  split; [exact Heq |]. split; [| reflexivity].
  intros ss w' Hrun. rewrite Heq in Hrun.
  eapply score_folds_length; exact Hrun.
Qed.

End CrossValSimpleFacts.

Section CrossValSimpleClosed.
Import Py Schemas CrossValSimple.

Lemma cross_val_score_per_fold_witness :
  cross_val_score CrossValExample.fit CrossValExample2.predict
    CrossValExample2.scoring tt CrossValExample.X CrossValExample.y
    CrossValExample.folds 0%nat
  = (Ok [true; true], 0%nat)
  /\ length [true; true] = length CrossValExample.folds.
Proof.
  split; [reflexivity |].
  apply (proj1 (proj2 (cross_val_score_per_fold CrossValExample.fit
                         CrossValExample2.predict CrossValExample2.scoring
                         tt CrossValExample.X CrossValExample.y
                         CrossValExample.folds 0%nat)) [true; true] 0%nat).
  reflexivity.
Defined.

End CrossValSimpleClosed.

(** ** Schemas without [items] *)

Section SchemaMore.
Import Py Schemas.



End SchemaMore.

(** ** [val_wrapper], any number of layers *)

Section ValWrapperMore.
Import ValWrapper.
Context {A : Type}.

(** X13.  However many wrappers are nested around a value that is no wrapper,
    [unwrap] returns that value; and unwrapping twice is unwrapping
    once. *)
Theorem unwrap_strips_all_layers (n : nat) (v obj : value A) :
  is_wrapper v = false ->
  unwrap (Nat.iter n val_wrapper v) = v
  /\ unwrap (unwrap obj) = unwrap obj
  /\ unwrap (Nat.iter n val_wrapper obj) = unwrap obj.
Proof.
  intros Hv.
  assert (Hiter : forall x : value A, unwrap (Nat.iter n val_wrapper x) = unwrap x).
  { intros x. induction n as [| n IH]; [reflexivity | exact IH]. }
  split; [rewrite Hiter; apply unwrap_plain; exact Hv |].
  split; [apply unwrap_idempotent | apply Hiter].
Qed.

End ValWrapperMore.

Lemma unwrap_strips_all_layers_witness :
  ValWrapper.is_wrapper (ValWrapper.Plain 7%nat) = false
  /\ ValWrapper.unwrap
       (Nat.iter 5 ValWrapper.val_wrapper (ValWrapper.Plain 7%nat))
     = ValWrapper.Plain 7%nat.
Proof.
  split; [reflexivity |].
  apply (proj1 (unwrap_strips_all_layers 5 (ValWrapper.Plain 7%nat)
                  (ValWrapper.Plain 0%nat) eq_refl)).
Defined.

(** ** Qualified class names *)

Section ReflectionFacts.
Import Py Reflection.

Lemma split_dot_nonempty (s : string) : split_dot s <> [].
Proof.
  induction s as [| c s IH]; cbn [split_dot]; [discriminate |].
  destruct (Ascii.eqb c "."); [discriminate |].
  destruct (split_dot s); discriminate.
Qed.

(** Joining the pieces gives the string back. *)
Lemma join_split_dot (s : string) : join_dot (split_dot s) = s.
Proof.
  induction s as [| c s IH]; [reflexivity |].
  cbn [split_dot].
  pose proof (split_dot_nonempty s) as Hne.
  destruct (Ascii.eqb c ".") eqn:Hc.
  - apply Ascii.eqb_eq in Hc. subst c.
    destruct (split_dot s) as [| p ps]; [contradiction |].
    rewrite <- IH. reflexivity.
  - destruct (split_dot s) as [| p ps]; [contradiction |].
    rewrite <- IH. destruct ps; reflexivity.
Qed.

Lemma split_dot_no_dot (c : string) : no_dot c = true -> split_dot c = [c].
Proof.
  induction c as [| a c IH]; [reflexivity |].
  cbn [no_dot split_dot]. intros Hc. apply andb_true_iff in Hc as [Ha Hc].
  apply negb_true_iff in Ha. rewrite Ha, (IH Hc). reflexivity.
Qed.

(** A name [m.c] with [c] free of dots splits into the pieces of [m]
    followed by [c]. *)
Lemma split_dot_qualified (m c : string) :
  no_dot c = true ->
  split_dot (String.append m (String "." c)) = split_dot m ++ [c].
Proof.
  intros Hc. induction m as [| a m IH].
  - change (split_dot (String "." c) = [EmptyString; c]).
    cbn [split_dot]. rewrite (split_dot_no_dot _ Hc). reflexivity.
  - change (String.append (String a m) (String "." c))
      with (String a (String.append m (String "." c))).
    cbn [split_dot]. rewrite IH. destruct (Ascii.eqb a "."); [reflexivity |].
    pose proof (split_dot_nonempty m) as Hne.
    destruct (split_dot m) as [| p ps]; [contradiction | reflexivity].
Qed.

Lemma split_dot_single (s : string) :
  length (split_dot s) = 1%nat <-> no_dot s = true.
Proof.
  induction s as [| a s IH]; cbn [split_dot no_dot]; [split; reflexivity |].
  pose proof (split_dot_nonempty s) as Hne.
  destruct (Ascii.eqb a ".") eqn:Ha; cbn [negb andb].
  - destruct (split_dot s); [contradiction |]. cbn. split; [lia | discriminate].
  - destruct (split_dot s) as [| p ps]; [contradiction |]. exact IH.
Qed.

Lemma qualified_parts (m c : string) :
  no_dot c = true ->
  (1 <? length (split_dot (String.append m (String "." c))))%nat = true
  /\ join_dot (removelast (split_dot (String.append m (String "." c)))) = m
  /\ last_part (split_dot (String.append m (String "." c))) = c.
Proof.
  intros Hc. rewrite (split_dot_qualified _ _ Hc).
  pose proof (split_dot_nonempty m) as Hne.
  split; [| split].
  - apply Nat.ltb_lt. rewrite length_app. cbn.
    destruct (split_dot m); [contradiction | cbn; lia].
  - rewrite removelast_last. apply join_split_dot.
  - unfold last_part. apply last_last.
Qed.

Section Oracles.
Context {World Module Class Instance Name Params : Type}.
Variable import_module : string -> M World Module.
Variable getattr : Module -> string -> M World Class.
Variable create : Class -> Name -> option Params -> M World Instance.
Variable construct : Class -> option Params -> M World Instance.

(** X14.  For a qualified name [m.c], [c] being the part after the last dot,
    [create_operator_using_reflection] imports the module [m], fetches
    its attribute [c] and returns what the class method [create] of that
    class returns for the operator name and the parameters. *)
Theorem create_operator_resolves_name (m c : string) (operator_name : Name)
    (param_dict : option Params) :
  no_dot c = true ->
  create_operator_using_reflection import_module getattr create
    (Some (String.append m (String "." c))) operator_name param_dict
  = let* module := import_module m in
    let* class_ := getattr module c in
    let* instance := create class_ operator_name param_dict in
    ret (Some instance).
Proof.
  intros Hc. unfold create_operator_using_reflection.
  destruct (qualified_parts m c Hc) as (-> & -> & ->). reflexivity.
Qed.

(** X15.  For a qualified name [m.c], [create_individual_op_using_reflection]
    imports the module [m], fetches its attribute [c] and returns what
    calling that class with the parameters returns; the operator name is
    not used. *)
Theorem create_individual_op_resolves_name (m c : string)
    (operator_name operator_name' : Name) (param_dict : option Params) :
  no_dot c = true ->
  create_individual_op_using_reflection import_module getattr construct
    (Some (String.append m (String "." c))) operator_name param_dict
  = (let* module := import_module m in
     let* class_ := getattr module c in
     let* instance := construct class_ param_dict in
     ret (Some instance))
  /\ create_individual_op_using_reflection import_module getattr construct
       (Some (String.append m (String "." c))) operator_name param_dict
     = create_individual_op_using_reflection import_module getattr construct
         (Some (String.append m (String "." c))) operator_name' param_dict.
Proof.
  intros Hc. unfold create_individual_op_using_reflection.
  destruct (qualified_parts m c Hc) as (-> & -> & ->). split; reflexivity.
Qed.

(** X16.  Without a class name both functions return None, and a class name
    without a dot fails the assertion: in either case nothing is
    imported. *)
Theorem reflection_without_qualified_name (class_name : string)
    (operator_name : Name) (param_dict : option Params) (w : World) :
  no_dot class_name = true ->
  create_operator_using_reflection import_module getattr create
    (Some class_name) operator_name param_dict w = (Raise AssertionError, w)
  /\ create_individual_op_using_reflection import_module getattr construct
       (Some class_name) operator_name param_dict w = (Raise AssertionError, w)
  /\ create_operator_using_reflection import_module getattr create
       None operator_name param_dict w = (Ok None, w)
  /\ create_individual_op_using_reflection import_module getattr construct
       None operator_name param_dict w = (Ok None, w).
Proof.
  intros Hc. apply split_dot_single in Hc.
  unfold create_operator_using_reflection, create_individual_op_using_reflection.
  rewrite Hc. repeat split.
Qed.

End Oracles.

Lemma create_operator_resolves_name_witness :
  no_dot "PCA" = true
  /\ create_operator_using_reflection ReflectionExample.import_module
       ReflectionExample.getattr ReflectionExample.create
       (Some (String.append "lale.lib.sklearn" (String "." "PCA"))) "pca"%string
       (Some 3%nat) []
     = (Ok (Some ("lale.lib.sklearn"%string, "PCA"%string, "pca"%string,
                  Some 3%nat)),
        ["lale.lib.sklearn"%string]).
Proof.
  split; [reflexivity |].
  rewrite (create_operator_resolves_name ReflectionExample.import_module
             ReflectionExample.getattr ReflectionExample.create
             "lale.lib.sklearn" "PCA" "pca"%string (Some 3%nat) eq_refl).
  reflexivity.
Defined.

Lemma create_individual_op_resolves_name_witness :
  no_dot "PCA" = true
  /\ create_individual_op_using_reflection ReflectionExample.import_module
       ReflectionExample.getattr ReflectionExample.construct
       (Some (String.append "sklearn.decomposition" (String "." "PCA")))
       "pca"%string (@None nat) []
     = (Ok (Some ("sklearn.decomposition"%string, "PCA"%string, EmptyString,
                  @None nat)),
        ["sklearn.decomposition"%string]).
Proof.
  split; [reflexivity |].
  rewrite (proj1 (create_individual_op_resolves_name
                    ReflectionExample.import_module ReflectionExample.getattr
                    ReflectionExample.construct
                    "sklearn.decomposition" "PCA" "pca"%string "other"%string
                    (@None nat) eq_refl)).
  reflexivity.
Defined.

Lemma reflection_without_qualified_name_witness :
  no_dot "PCA" = true
  /\ create_operator_using_reflection ReflectionExample.import_module
       ReflectionExample.getattr ReflectionExample.create
       (Some "PCA"%string) "pca"%string (@None nat) []
     = (Raise AssertionError, []).
Proof.
  split; [reflexivity |].
  apply (proj1 (reflection_without_qualified_name
                  ReflectionExample.import_module ReflectionExample.getattr
                  ReflectionExample.create ReflectionExample.construct
                  "PCA" "pca"%string (@None nat) [] eq_refl)).
Defined.

End ReflectionFacts.

(** ** [append_batch] *)

Section BatchFacts.
Import Py Batches.
Context {cell : Type}.
Implicit Types (d b : data cell) (batches : list (data cell)).

Local Abbreviation step :=
  (fun (acc : outcome (data cell)) (b : data cell) =>
     let+ d := acc in append_batch d b).

Lemma fold_step_not_Ok batches (acc : outcome (data cell)) :
  (forall d, acc <> Ok d) -> forall d, fold_left step batches acc <> Ok d.
Proof.
  revert acc; induction batches as [| b batches IH]; intros acc Hacc d;
    [apply Hacc |].
  cbn [fold_left]. apply IH. intros d'.
  destruct acc as [d0 | e | |]; cbn [obind]; try discriminate.
  exfalso; eapply Hacc; reflexivity.
Qed.

Lemma fold_step_arrays (xss : list (list cell)) (acc : list cell) :
  fold_left step (map DArray1 xss) (Ok (DArray1 acc))
  = Ok (DArray1 (acc ++ concat xss)).
Proof.
  revert acc; induction xss as [| xs xss IH]; intros acc; cbn.
  - rewrite app_nil_r. reflexivity.
  - rewrite IH, <- app_assoc. reflexivity.
Qed.

(** X17.  Accumulated from None, one-dimensional batches give the array of all
    their elements, in batch order; no batch gives None. *)
Theorem accumulate_arrays (xss : list (list cell)) :
  accumulate (map DArray1 xss)
  = Ok (match xss with
        | [] => DNone
        | _ :: _ => DArray1 (concat xss)
        end)
  /\ obind (accumulate (map DArray1 xss)) (fun d => Ok (n_rows d))
     = Ok (match xss with
           | [] => None
           | _ :: _ => Some (list_sum (map (@length cell) xss))
           end).
Proof.
  assert (Hacc : accumulate (map DArray1 xss)
                 = Ok (match xss with
                       | [] => DNone
                       | _ :: _ => DArray1 (concat xss)
                       end)).
  { unfold accumulate. destruct xss as [| xs xss]; [reflexivity |].
    cbn [map fold_left obind append_batch]. rewrite fold_step_arrays.
    reflexivity. }
  split; [exact Hacc |].
  rewrite Hacc. destruct xss as [| xs xss]; [reflexivity |].
  cbn [obind n_rows]. do 2 f_equal.
  generalize (xs :: xss). clear. intros l.
  induction l as [| x l IH]; [reflexivity |].
  cbn [concat map list_sum]. rewrite length_app, IH. reflexivity.
Qed.

Lemma fold_step_pairs (ps : list (data cell * data cell))
    (aX aY RX RY : data cell) :
  fold_left step (map fst ps) (Ok aX) = Ok RX ->
  fold_left step (map snd ps) (Ok aY) = Ok RY ->
  fold_left step (map (fun p => DTuple [fst p; snd p]) ps)
    (Ok (DTuple [aX; aY]))
  = Ok (DTuple [RX; RY]).
Proof.
  revert aX aY; induction ps as [| [bX bY] ps IH]; intros aX aY.
  - cbn. intros [= <-] [= <-]. reflexivity.
  - cbn [map fold_left fst snd obind]. intros HX HY.
    destruct (append_batch aX bX) as [aX' | e | |] eqn:HaX;
      try (exfalso; eapply fold_step_not_Ok; [| exact HX]; discriminate).
    destruct (append_batch aY bY) as [aY' | e | |] eqn:HaY;
      try (exfalso; eapply fold_step_not_Ok; [| exact HY]; discriminate).
    cbn [append_batch unpack_pair obind]. rewrite HaX, HaY. cbn [obind].
    apply IH; assumption.
Qed.

(** X18.  Accumulating batches that are pairs [(X, y)] accumulates the first
    and the second components on their own. *)
Theorem accumulate_pairs (ps : list (data cell * data cell)) (RX RY : data cell) :
  ps <> [] ->
  accumulate (map fst ps) = Ok RX ->
  accumulate (map snd ps) = Ok RY ->
  accumulate (map (fun p => DTuple [fst p; snd p]) ps) = Ok (DTuple [RX; RY]).
Proof.
  unfold accumulate. destruct ps as [| [bX bY] ps]; [contradiction |].
  intros _. cbn [map fold_left fst snd obind append_batch].
  apply fold_step_pairs.
Qed.

(** X19.  A batch of another kind than the data is not an error: the result is
    None, and what was accumulated is gone. *)
Theorem append_batch_mismatch_is_none d b :
  d <> DNone ->
  (is_array d = true -> is_array b = false) ->
  (is_tuple d = true -> length (match d with DTuple l => l | _ => [] end) = 2%nat
                        /\ is_tuple b = false) ->
  (d = DFile -> is_tuple b = false) ->
  append_batch d b = Ok DNone.
Proof.
  intros Hd Ha Ht Hf. destruct d as [| xs | n rows | items | |].
  - contradiction.
  - specialize (Ha eq_refl). destruct b; try discriminate; reflexivity.
  - specialize (Ha eq_refl). destruct b; try discriminate; reflexivity.
  - destruct (Ht eq_refl) as [Hlen Hb].
    destruct items as [| X [| y [| z items]]]; try discriminate.
    destruct b; try discriminate; reflexivity.
  - specialize (Hf eq_refl). destruct b; try discriminate; reflexivity.
  - reflexivity.
Qed.


End BatchFacts.

Section BatchClosed.
Import Py Batches.

Lemma append_batch_mismatch_is_none_witness :
  append_batch (DTuple [DArray1 [1%nat; 2%nat]; DNone]) (DArray1 [3%nat])
  = Ok DNone.
Proof.
  apply append_batch_mismatch_is_none.
  - discriminate.
  - discriminate.
  - intros _. split; reflexivity.
  - discriminate.
Defined.


Lemma accumulate_pairs_witness :
  accumulate (map (fun p => DTuple [fst p; snd p])
                [(DArray1 [1%nat], DArray1 [7%nat]);
                 (DArray1 [2%nat; 3%nat], DArray1 [8%nat; 9%nat])])
  = Ok (DTuple [DArray1 [1%nat; 2%nat; 3%nat]; DArray1 [7%nat; 8%nat; 9%nat]]).
Proof.
  apply accumulate_pairs; [discriminate | reflexivity | reflexivity].
Defined.

End BatchClosed.

(** ** [data_to_json] and [ndarray_to_json] *)

Section JsonFacts.
Import Py Json.
Context {key obj : Type}.
Variable is_python_scalar : obj -> bool.
Variables py_bool py_int py_float py_str : obj -> outcome obj.

Local Abbreviation element := (element_to_json is_python_scalar py_bool py_int py_float py_str).
Local Abbreviation subarray := (subarray_to_json is_python_scalar py_bool py_int py_float py_str).
Local Abbreviation ndarray_json := (ndarray_to_json is_python_scalar py_bool py_int py_float py_str).
Local Abbreviation data_json := (@data_to_json key obj is_python_scalar py_bool py_int py_float py_str).

Lemma omapM_Forall2 {A B} (f : A -> outcome B) (l : list A) (l' : list B) :
  omapM f l = Ok l' -> Forall2 (fun x y => f x = Ok y) l l'.
Proof.
  revert l'; induction l as [| x l IH]; intros l'; cbn [omapM].
  - intros [= <-]. constructor.
  - destruct (f x) as [y | | |] eqn:Hx; cbn [obind]; try discriminate.
    destruct (omapM f l) as [ys | | |]; cbn [obind]; try discriminate.
    intros [= <-]. constructor; [exact Hx | apply IH; reflexivity].
Qed.

Lemma omapM_all_Ok {A B} (f : A -> outcome B) (g : A -> B) (l : list A) :
  Forall (fun x => f x = Ok (g x)) l -> omapM f l = Ok (map g l).
Proof.
  induction 1 as [| x l Hx _ IH]; [reflexivity |].
  cbn [omapM map]. rewrite Hx, IH. reflexivity.
Qed.

Lemma pydata_nested_ind (P : pydata key obj -> Prop) :
  (forall elems, Forall P elems -> P (PTuple elems)) ->
  (forall elems, Forall P elems -> P (PList elems)) ->
  (forall items, Forall (fun kv => P (snd kv)) items -> P (PDict items)) ->
  (forall arr, P (PArray arr)) ->
  (forall o, P (PObj o)) ->
  forall d, P d.
Proof.
  intros Ht Hl Hd Ha Ho.
  fix IH 1. intros [elems | elems | items | arr | o].
  - apply Ht. induction elems as [| x elems IHl]; constructor;
      [apply IH | exact IHl].
  - apply Hl. induction elems as [| x elems IHl]; constructor;
      [apply IH | exact IHl].
  - apply Hd. induction items as [| [k v] items IHl]; constructor;
      [apply IH | exact IHl].
  - apply Ha.
  - apply Ho.
Qed.

Lemma num_subsamples_lookup (s : bool) (k : nat) :
  num_subsamples s !! k
  = match k with
    | 0%nat => Some (if s then 10 else int_max)
    | 1%nat | 2%nat => Some int_max
    | _ => None
    end.
Proof. destruct s, k as [| [| [| k]]]; reflexivity. Qed.

Lemma is_json_fixed (s : bool) (d : pydata key obj) :
  is_json d = true -> data_json s d = Ok d.
Proof.
  induction d as [elems IH | elems IH | items IH | arr | o]
    using pydata_nested_ind; cbn [is_json data_to_json]; try discriminate.
  - intros Hall.
    assert (Hm : omapM (data_json s) elems = Ok (map id elems)).
    { apply omapM_all_Ok. rewrite Forall_forall in IH |- *.
      intros x Hx. apply IH; [exact Hx |].
      rewrite forallb_forall in Hall. apply Hall.
      apply list_elem_of_In. exact Hx. }
    rewrite Hm, map_id. reflexivity.
  - intros Hall.
    assert (Hm : omapM (fun kv => let+ v := data_json s (snd kv) in
                                  Ok (fst kv, v)) items
                 = Ok (map id items)).
    { apply omapM_all_Ok. rewrite Forall_forall in IH |- *.
      intros [k v] Hx. pose proof (IH _ Hx) as Hv. cbn [fst snd id] in *.
      rewrite Hv; [reflexivity |].
      rewrite forallb_forall in Hall.
      apply (Hall (k, v)). apply list_elem_of_In. exact Hx. }
    rewrite Hm, map_id. reflexivity.
  - reflexivity.
Qed.

Lemma Forall2_is_json {A} (f : A -> outcome (pydata key obj))
    (l : list A) (l' : list (pydata key obj)) :
  Forall (fun x => forall j, f x = Ok j -> is_json j = true) l ->
  Forall2 (fun x y => f x = Ok y) l l' ->
  forallb is_json l' = true.
Proof.
  intros Hall H2. induction H2 as [| x y l l' Hxy _ IH]; [reflexivity |].
  cbn [forallb]. apply Forall_cons in Hall as [Hx Hl].
  rewrite (Hx _ Hxy), (IH Hl). reflexivity.
Qed.

Lemma subarray_is_json arr s rest indices (j : pydata key obj) :
  subarray arr s rest indices = Ok j -> is_json j = true.
Proof.
  revert indices j; induction rest as [| n rest IH]; intros indices j;
    cbn [subarray_to_json].
  - destruct (element arr indices); cbn [obind]; try discriminate.
    intros [= <-]. reflexivity.
  - destruct (num_subsamples s !! length indices) as [limit |];
      [| discriminate].
    destruct (omapM _ _) as [elems | | |] eqn:Hm; cbn [obind];
      try discriminate.
    intros [= <-]. cbn [is_json].
    eapply Forall2_is_json; [| apply omapM_Forall2; exact Hm].
    apply Forall_forall. intros i _ j' Hj'. eapply IH; exact Hj'.
Qed.

Lemma data_json_is_json s (d j : pydata key obj) :
  data_json s d = Ok j -> is_json j = true.
Proof.
  revert j;
    induction d as [elems IH | elems IH | items IH | arr | o]
      using pydata_nested_ind; intros j; cbn [data_to_json].
  - destruct (omapM _ _) as [elems' | | |] eqn:Hm; cbn [obind];
      try discriminate.
    intros [= <-]. cbn [is_json].
    eapply Forall2_is_json; [exact IH | apply omapM_Forall2; exact Hm].
  - destruct (omapM _ _) as [elems' | | |] eqn:Hm; cbn [obind];
      try discriminate.
    intros [= <-]. cbn [is_json].
    eapply Forall2_is_json; [exact IH | apply omapM_Forall2; exact Hm].
  - destruct (omapM _ _) as [items' | | |] eqn:Hm; cbn [obind];
      try discriminate.
    intros [= <-]. cbn [is_json].
    apply omapM_Forall2 in Hm. clear -IH Hm.
    induction Hm as [| [k v] [k' v'] l l' Hxy _ IHl]; [reflexivity |].
    apply Forall_cons in IH as [Hx Hl]. cbn [fst snd] in *.
    destruct (data_json s v) as [v0 | | |] eqn:Hv; cbn [obind] in Hxy;
      try discriminate.
    injection Hxy as <- <-. cbn [forallb snd].
    rewrite (Hx _ eq_refl), (IHl Hl). reflexivity.
  - apply subarray_is_json.
  - intros [= <-]. reflexivity.
Qed.


(** X22.  Data that holds no array is always converted, and the flag
    [subsample_array] makes no difference to the result. *)
Theorem data_to_json_without_arrays (d : pydata key obj) :
  array_free d = true ->
  exists j, (forall s, data_json s d = Ok j) /\ is_json j = true.
Proof.
  assert (Hmain : array_free d = true ->
                  exists j, forall s, data_json s d = Ok j).
  { induction d as [elems IH | elems IH | items IH | arr | o]
      using pydata_nested_ind; cbn [array_free data_to_json];
      try discriminate.
    - intros Hall.
      assert (Hm : exists l, forall s, omapM (data_json s) elems = Ok l).
      { induction elems as [| x elems IHl]; [exists []; reflexivity |].
        cbn [forallb] in Hall. apply andb_true_iff in Hall as [Hx Hl].
        apply Forall_cons in IH as [IHx IH].
        destruct (IHx Hx) as [y Hy]. destruct (IHl IH Hl) as [ys Hys].
        exists (y :: ys). intros s. cbn [omapM]. rewrite Hy, Hys.
        reflexivity. }
      destruct Hm as [l Hl]. exists (PList l). intros s. rewrite Hl.
      reflexivity.
    - intros Hall.
      assert (Hm : exists l, forall s, omapM (data_json s) elems = Ok l).
      { induction elems as [| x elems IHl]; [exists []; reflexivity |].
        cbn [forallb] in Hall. apply andb_true_iff in Hall as [Hx Hl].
        apply Forall_cons in IH as [IHx IH].
        destruct (IHx Hx) as [y Hy]. destruct (IHl IH Hl) as [ys Hys].
        exists (y :: ys). intros s. cbn [omapM]. rewrite Hy, Hys.
        reflexivity. }
      destruct Hm as [l Hl]. exists (PList l). intros s. rewrite Hl.
      reflexivity.
    - intros Hall.
      assert (Hm : exists l, forall s,
                     omapM (fun kv => let+ v := data_json s (snd kv) in
                                      Ok (fst kv, v)) items = Ok l).
      { induction items as [| [k v] items IHl]; [exists []; reflexivity |].
        cbn [forallb snd] in Hall. apply andb_true_iff in Hall as [Hx Hl].
        apply Forall_cons in IH as [IHx IH]. cbn [snd] in IHx.
        destruct (IHx Hx) as [y Hy]. destruct (IHl IH Hl) as [ys Hys].
        exists ((k, y) :: ys). intros s. cbn [omapM fst snd].
        rewrite Hy. cbn [obind]. rewrite Hys. reflexivity. }
      destruct Hm as [l Hl]. exists (PDict l). intros s. rewrite Hl.
      reflexivity.
    - intros _. exists (PObj o). reflexivity. }
  intros Hd. destruct (Hmain Hd) as [j Hj]. exists j.
  split; [exact Hj |]. eapply data_json_is_json. apply (Hj true).
Qed.

Lemma limit_rows (s : bool) (n : nat) :
  Z.of_nat n <= int_max ->
  Z.to_nat (Z.min (if s then 10 else int_max) (Z.of_nat n)) = sampled_rows s n.
Proof.
  unfold sampled_rows, int_max. destruct s; lia.
Qed.

(** X23.  Of an array of two dimensions [ndarray_to_json] returns the rows
    in order, each with all its columns: the first ten rows when
    [subsample_array] is set, all of them otherwise. *)
Theorem ndarray_to_json_table (arr : ndarray obj) (s : bool) (r c : nat)
    (f : nat -> nat -> obj) :
  shape arr = [r; c] ->
  Z.of_nat r <= int_max -> Z.of_nat c <= int_max ->
  (forall i j, (i < sampled_rows s r)%nat -> (j < c)%nat ->
     element arr [i; j] = Ok (f i j)) ->
  ndarray_json arr s
  = Ok (PList (key := key)
          (map (fun i => PList (map (fun j => PObj (f i j)) (seq 0 c)))
               (seq 0 (sampled_rows s r)))).
Proof.
  intros Hshape Hr Hc Hf. unfold ndarray_to_json. rewrite Hshape.
  cbn [subarray_to_json length]. rewrite num_subsamples_lookup.
  rewrite (limit_rows s r Hr).
  erewrite omapM_all_Ok; [reflexivity |].
  apply Forall_forall. intros i Hi. apply elem_of_seq in Hi.
  cbn [app length]. rewrite num_subsamples_lookup.
  rewrite (limit_rows false c Hc). unfold sampled_rows.
  erewrite omapM_all_Ok; [reflexivity |].
  apply Forall_forall. intros j Hj. apply elem_of_seq in Hj.
  cbn [app]. rewrite Hf by lia. reflexivity.
Qed.

Lemma positive_limit (s : bool) (k n : nat) (limit : Z) :
  num_subsamples s !! k = Some limit -> (0 < n)%nat ->
  exists m, seq 0 (Z.to_nat (Z.min limit (Z.of_nat n))) = 0%nat :: seq 1 m.
Proof.
  intros Hk Hn.
  assert (0 < limit).
  { rewrite num_subsamples_lookup in Hk. unfold int_max in Hk.
    destruct s, k as [| [| [| k]]]; inversion Hk; lia. }
  destruct (Z.to_nat (Z.min limit (Z.of_nat n))) as [| m] eqn:E; [lia |].
  exists m. reflexivity.
Qed.


(** X25.  An element that is no Python scalar, in an array whose dtype is
    neither bool, a number, nor of kind U, S or O, raises ValueError:
    so does the conversion of a table with such a first element. *)
Theorem ndarray_to_json_unexpected_dtype (arr : ndarray obj) (s : bool)
    (r c : nat) :
  shape arr = [r; c] -> (0 < r)%nat -> (0 < c)%nat ->
  arr_dtype arr = DUnexpected ->
  is_python_scalar (item arr [0%nat; 0%nat]) = false ->
  exists msg, ndarray_json arr s = Raise (A := pydata key obj) (ValueError msg).
Proof.
  intros Hshape Hr Hc Hdt Hsc. unfold ndarray_to_json. rewrite Hshape.
  cbn [subarray_to_json length].
  destruct (num_subsamples s !! 0%nat) as [l0 |] eqn:E0;
    [| rewrite num_subsamples_lookup in E0; discriminate].
  destruct (positive_limit s 0 r l0 E0 Hr) as [m0 ->].
  cbn [omapM app length].
  destruct (num_subsamples s !! 1%nat) as [l1 |] eqn:E1;
    [| rewrite num_subsamples_lookup in E1; discriminate].
  destruct (positive_limit s 1 c l1 E1 Hc) as [m1 ->].
  cbn [omapM app subarray_to_json]. unfold element_to_json.
  cbn zeta. rewrite Hsc, Hdt. eexists. reflexivity.
Qed.

End JsonFacts.

Section JsonClosed.
Import Py Json.


Lemma data_to_json_without_arrays_witness :
  exists j, (forall s, JsonExample.data_to_json s JsonExample.description = Ok j)
            /\ is_json j = true.
Proof.
  apply (data_to_json_without_arrays JsonExample.is_python_scalar
           JsonExample.py_bool JsonExample.py_int JsonExample.py_float
           JsonExample.py_str JsonExample.description).
  reflexivity.
Defined.

Lemma ndarray_to_json_table_witness :
  JsonExample.ndarray_to_json JsonExample.table true
  = Ok (PList (map (fun i => PList (map (fun j => PObj (JsonExample.table_cell i j))
                                        (seq 0 2)))
                   (seq 0 10))).
Proof.
  apply (ndarray_to_json_table (key := string) JsonExample.is_python_scalar
           JsonExample.py_bool JsonExample.py_int JsonExample.py_float
           JsonExample.py_str JsonExample.table true 12 2
           JsonExample.table_cell).
  - reflexivity.
  - unfold int_max; lia.
  - unfold int_max; lia.
  - intros i j _ _. reflexivity.
Defined.


Lemma ndarray_to_json_unexpected_dtype_witness :
  exists msg,
    JsonExample.ndarray_to_json JsonExample.dates false = Raise (ValueError msg).
Proof.
  apply (ndarray_to_json_unexpected_dtype (key := string)
           JsonExample.is_python_scalar
           JsonExample.py_bool JsonExample.py_int JsonExample.py_float
           JsonExample.py_str JsonExample.dates false 1 1);
    [reflexivity | lia | lia | reflexivity | reflexivity].
Defined.

End JsonClosed.
